(** * RrOfdmaManager: a shallow embedding of the round-robin OFDMA scheduler

    The development follows [rr-ofdma-manager.cc]: the merge sort on
    candidate vectors, the RU packer [GetNumberAndTypeOfRus], the format
    decision [SelectTxFormat] and the finalizer [ComputeDlOfdmaInfo].

    C++ [int], [size_t] and [uint32_t] values are integers of [Z]; the
    vectors handled here hold at most a few hundred candidates (the batch
    is bounded by the [uint8_t] attribute NStations), so no [int]
    arithmetic below leaves the 32-bit range.  Narrowing stores into
    [uint8_t] are written with their reduction modulo 256. *)

From Stdlib Require Import String ZArith List Lia Bool Sorting.Sorted Sorting.Permutation.
Import ListNotations.
Local Open Scope Z_scope.

(** ** Abnormal terminations *)

(** What a C++ run can do instead of returning. *)
Inductive fault : Type :=
| BadAccess    (* an iterator or operator[] used outside its container: undefined behaviour *)
| OutOfRange   (* std::out_of_range thrown by std::map::at *)
| BadAlloc     (* a vector constructed with a negative length *)
| AssertFailed (* NS_ASSERT *)
| FatalError   (* NS_ABORT_MSG_IF, NS_FATAL_ERROR *)
| OutOfFuel.   (* the recursion did not finish within the fuel of the model *)

Inductive result (A : Type) : Type :=
| Ok (a : A)
| Fault (f : fault).
Arguments Ok {A} a.
Arguments Fault {A} f.

Definition bind {A B : Type} (m : result A) (k : A -> result B) : result B :=
  match m with
  | Ok a => k a
  | Fault f => Fault f
  end.

Notation "x <- m ;; k" := (bind m (fun x => k))
  (at level 61, m at next level, right associativity).
Notation "' p <- m ;; k" := (bind m (fun p => k))
  (at level 61, p pattern, m at next level, right associativity).

Definition ns_assert (b : bool) : result unit :=
  if b then Ok tt else Fault AssertFailed.

(** ** Data model *)

(** A MAC address is its 48-bit value; [operator<] and [operator==] of
    [Mac48Address] compare the six bytes from the most significant one. *)
Definition Mac48Address : Type := Z.

Record DlPerStaInfo : Type := mkDlPerStaInfo { aid : Z; tid : Z }.

(** [std::tuple<Mac48Address, uint32_t, DlPerStaInfo>]: address, size in
    bytes of the pending frame, per-station information. *)
Definition Candidate : Type := (Mac48Address * Z * DlPerStaInfo)%type.

Definition get0 (c : Candidate) : Mac48Address := fst (fst c).
Definition get1 (c : Candidate) : Z := snd (fst c).
Definition get2 (c : Candidate) : DlPerStaInfo := snd c.

(** ** Vectors *)

Section Vectors.
Context {A : Type}.

(** [v[i]] as an rvalue. *)
Definition vec_get (v : list A) (i : Z) : result A :=
  if i <? 0 then Fault BadAccess
  else match nth_error v (Z.to_nat i) with
       | Some x => Ok x
       | None => Fault BadAccess
       end.

(** [v[i] = x]. *)
Definition vec_set (v : list A) (i : Z) (x : A) : result (list A) :=
  if (0 <=? i) && (i <? Z.of_nat (length v))
  then Ok (firstn (Z.to_nat i) v ++ x :: skipn (S (Z.to_nat i)) v)
  else Fault BadAccess.

(** [for (i = 0; i < n; i++) X[i] = v[start + i]] into a fresh [X]. *)
Fixpoint vec_copy (v : list A) (start : Z) (n : nat) : result (list A) :=
  match n with
  | O => Ok []
  | S n' =>
      x <- vec_get v start ;;
      xs <- vec_copy v (start + 1) n' ;;
      Ok (x :: xs)
  end.
End Vectors.

(** ** merge and merge_sort *)

Section Merge.
Variable r : Z.

(** The first loop of [merge]: [L] and [R] stand for the unread parts
    [L[i..]] and [R[j..]]; the loop also stops when [k] passes [r]. *)
Fixpoint merge_both (L : list Candidate)
  : list Candidate -> list Candidate -> Z ->
    result (list Candidate * Z * list Candidate * list Candidate) :=
  fix merge_right (R : list Candidate) (v : list Candidate) (k : Z) :=
    match L, R with
    | x :: L', y :: R' =>
        if k <=? r then
          if get1 y <=? get1 x then
            v' <- vec_set v k x ;; merge_both L' R v' (k + 1)
          else
            v' <- vec_set v k y ;; merge_right R' v' (k + 1)
        else Ok (v, k, L, R)
    | _, _ => Ok (v, k, L, R)
    end.
End Merge.

(** The two trailing loops of [merge]: copy what is left of one side. *)
Fixpoint merge_rest (X : list Candidate) (v : list Candidate) (k : Z)
  : result (list Candidate * Z) :=
  match X with
  | [] => Ok (v, k)
  | x :: X' => v' <- vec_set v k x ;; merge_rest X' v' (k + 1)
  end.

Definition merge (v : list Candidate) (p q r : Z) : result (list Candidate) :=
  let size1 := q - p + 1 in
  let size2 := r - q in
  if (size1 <? 0) || (size2 <? 0) then Fault BadAlloc else
  L <- vec_copy v p (Z.to_nat size1) ;;
  R <- vec_copy v (q + 1) (Z.to_nat size2) ;;
  '(v1, k1, L1, R1) <- merge_both r L R v p ;;
  '(v2, k2) <- merge_rest L1 v1 k1 ;;
  '(v3, _) <- merge_rest R1 v2 k2 ;;
  Ok v3.

(** [merge_sort] recurses on a range, not on a subterm, and for negative
    bounds the C++ recursion need not end ([(p+r)/2] truncates towards
    zero): the model takes fuel, one unit per level of recursion. *)
Fixpoint merge_sort_fuel (fuel : nat) (v : list Candidate) (p r : Z)
  : result (list Candidate) :=
  if p <? r then
    match fuel with
    | O => Fault OutOfFuel
    | S fuel' =>
        let q := Z.quot (p + r) 2 in
        v1 <- merge_sort_fuel fuel' v p q ;;
        v2 <- merge_sort_fuel fuel' v1 (q + 1) r ;;
        merge v2 p q r
    end
  else Ok v.

Definition merge_sort (v : list Candidate) (p r : Z) : result (list Candidate) :=
  merge_sort_fuel (Z.to_nat (r - p)) v p r.

(** Decreasing pending-frame size. *)
Definition size_ge (x y : Candidate) : Prop := get1 y <= get1 x.

(** The candidates of [l] whose pending frame has size [s], in order. *)
Definition of_size (s : Z) (l : list Candidate) : list Candidate :=
  filter (fun c => get1 c =? s) l.

(** The list-level merge that [merge] carries out inside the vector. *)
Fixpoint lmerge (L : list Candidate) : list Candidate -> list Candidate :=
  fix lmerge_right (R : list Candidate) :=
    match L, R with
    | x :: L', y :: R' =>
        if get1 y <=? get1 x then x :: lmerge L' R
        else y :: lmerge_right R'
    | [], _ => R
    | _, [] => L
    end.

(** The three loops of [merge], run one after the other. *)
Definition merge_loops (r : Z) (L R v : list Candidate) (k : Z)
  : result (list Candidate) :=
  '(v1, k1, L1, R1) <- merge_both r L R v k ;;
  '(v2, k2) <- merge_rest L1 v1 k1 ;;
  '(v3, _) <- merge_rest R1 v2 k2 ;;
  Ok v3.


(** [l'] is [l] stably sorted by decreasing size: sorted, a permutation,
    and candidates of equal size in their original order. *)
Definition stably_sorted (l l' : list Candidate) : Prop :=
  StronglySorted size_ge l' /\
  Permutation l l' /\
  forall s : Z, of_size s l' = of_size s l.

(** ** RU types and tables *)

(** [HeRu::RuType]. *)
Inductive RuType : Type :=
| RU_26_TONE | RU_52_TONE | RU_106_TONE | RU_242_TONE
| RU_484_TONE | RU_996_TONE | RU_2x996_TONE.

Definition RuType_eqb (t1 t2 : RuType) : bool :=
  match t1, t2 with
  | RU_26_TONE, RU_26_TONE | RU_52_TONE, RU_52_TONE
  | RU_106_TONE, RU_106_TONE | RU_242_TONE, RU_242_TONE
  | RU_484_TONE, RU_484_TONE | RU_996_TONE, RU_996_TONE
  | RU_2x996_TONE, RU_2x996_TONE => true
  | _, _ => false
  end.

(** The number of subcarriers the name of an RU type states. *)
Definition tones (t : RuType) : Z :=
  match t with
  | RU_26_TONE => 26 | RU_52_TONE => 52 | RU_106_TONE => 106
  | RU_242_TONE => 242 | RU_484_TONE => 484 | RU_996_TONE => 996
  | RU_2x996_TONE => 1992
  end.

(** [HeRu::m_heRuSubcarrierGroups], a map from (bandwidth, RU type) to
    the vector of subcarrier groups of that type, is declared outside
    this file.  The packer only reads the keys and the length of each
    vector, so an RU table is the list of its entries in iteration order,
    each with the number of its groups (the RU slots). *)
Definition RuTable : Type := list ((Z * RuType) * nat).

(** An RU allocation entry: [std::pair<HeRu::RuType, size_t>]. *)
Definition RuEntry : Type := (RuType * Z)%type.

(** Modelled from the spec: the map [table] from RU type names to RU
    types is declared in the header, which is missing; section 4.3 has the
    three names looked up in it denote the 106-, 52- and 26-tone units. *)
Definition table : list (string * RuType) :=
  [ ("RU_26_TONE", RU_26_TONE); ("RU_52_TONE", RU_52_TONE);
    ("RU_106_TONE", RU_106_TONE); ("RU_242_TONE", RU_242_TONE);
    ("RU_484_TONE", RU_484_TONE); ("RU_996_TONE", RU_996_TONE);
    ("RU_2x996_TONE", RU_2x996_TONE) ]%string.

(** [table.at (name)]. *)
Definition table_at (name : string) : result RuType :=
  match find (fun e => String.eqb (fst e) name) table with
  | Some e => Ok (snd e)
  | None => Fault OutOfRange
  end.

(** [(int) v.size ()]. *)
Definition size_of {A : Type} (v : list A) : Z := Z.of_nat (length v).

(** Reading the candidate under an iterator and advancing it: the
    iterator [it] is the part of its vector not yet visited, and it
    cannot be read at the end. *)
Definition take_next (it : list Candidate) : result (Candidate * list Candidate) :=
  match it with
  | [] => Fault BadAccess
  | c :: it' => Ok (c, it')
  end.

(** A loop of [n] turns that pushes the candidate under [it] and
    advances [it]: the candidates pushed and the iterator afterwards. *)
Fixpoint take_iter (n : nat) (it : list Candidate)
  : result (list Candidate * list Candidate) :=
  match n with
  | O => Ok ([], it)
  | S n' =>
      '(c, it1) <- take_next it ;;
      '(cs, it2) <- take_iter n' it1 ;;
      Ok (c :: cs, it2)
  end.

(** ** The mixed small-class branch of the packer *)

(** The reservation counters [(a, size, allocated)] of one loop. *)
Fixpoint reserve_units (fuel : nat) (tonesPerUnit : Z) (a size allocated : Z)
  : result (Z * Z * Z) :=
  if (a >=? tonesPerUnit) && (size >? 0) then
    match fuel with
    | O => Fault OutOfFuel
    | S fuel' =>
        reserve_units fuel' tonesPerUnit (a - tonesPerUnit) (size - 1) (allocated + 1)
    end
  else Ok (a, size, allocated).

(** What the reservation leaves: [allocated106], [allocated52],
    [allocated26]. *)
Record Reserved : Type := mkReserved {
  allocated106 : Z;
  allocated52 : Z;
  allocated26 : Z
}.

(** The tone budget once 26 tones are set aside for each member of the
    onoff class: [int a = 242 - 26 * size2]. *)
Definition initial_budget (size2 : Z) : Z := 242 - 26 * size2.

(** Lines 699-717: each loop takes at least 26 tones from [a], which
    bounds its number of turns by [a]. *)
Definition reserve (size2 size3 size4 : Z) : result Reserved :=
  let allocated106 := 0 in
  let allocated52 := 0 in
  let allocated26 := size2 in
  let a := initial_budget size2 in
  let '(allocated106, a, size3) :=
    if (a >=? 106) && (size3 >? 0)
    then (allocated106 + 1, a - 106, size3 - 1)
    else (allocated106, a, size3) in
  '(a, size3, allocated52) <- reserve_units (Z.to_nat a) 52 a size3 allocated52 ;;
  '(a, size4, allocated26) <- reserve_units (Z.to_nat a) 26 a size4 allocated26 ;;
  Ok (mkReserved allocated106 allocated52 allocated26).

(** The locals of the emission part (lines 723-816): the counters left,
    the three iterators, and the two vectors being written. *)
Record Emission : Type := mkEmission {
  e_allocated52 : Z;
  e_allocated26 : Z;
  e_size2 : Z;
  e_size3 : Z;
  e_size4 : Z;
  staInfoIt1 : list Candidate;   (* over onoff *)
  staInfoIt2 : list Candidate;   (* over bulksend *)
  staInfoIt3 : list Candidate;   (* over http *)
  e_dataInfo : list Candidate;   (* m_dataInfo *)
  e_ruAssigned : list RuEntry    (* ruAssigned *)
}.

(** [while (size > 0 && cnt > 0)] handing 26-tone units at indices
    [idx], [idx+1], ... to the candidates under [it].  The four loops of
    this shape differ in which counter ([u] or [allocated26]), class and
    index variable they use. *)
Fixpoint give_26 (fuel : nat) (type3 : RuType) (cnt size : Z)
  (it : list Candidate) (idx : Z) (dataInfo : list Candidate)
  (ruAssigned : list RuEntry)
  : result (Z * Z * list Candidate * Z * list Candidate * list RuEntry) :=
  if (size >? 0) && (cnt >? 0) then
    match fuel with
    | O => Fault OutOfFuel
    | S fuel' =>
        '(c, it') <- take_next it ;;
        give_26 fuel' type3 (cnt - 1) (size - 1) it' (idx + 1)
          (dataInfo ++ [c]) (ruAssigned ++ [(type3, idx)])
    end
  else Ok (cnt, size, it, idx, dataInfo, ruAssigned).

(** Lines 734-762: the first member of bulksend gets the 106-tone unit
    if one was reserved, else a 52-tone unit followed by up to two
    26-tone units at indices 3 and 4. *)
Definition first_member (type1 type2 type3 : RuType) (alloc : Reserved)
  (onoff bulksend http : list Candidate) : result Emission :=
  let size2 := size_of onoff in
  let size3 := size_of bulksend in
  let size4 := size_of http in
  if allocated106 alloc >? 0 then
    '(c, it2) <- take_next bulksend ;;
    Ok (mkEmission (allocated52 alloc) (allocated26 alloc)
          size2 (size3 - 1) size4 onoff it2 http [c] [(type1, 1)])
  else
    '(c, it2) <- take_next bulksend ;;
    let size3 := size3 - 1 in
    let allocated52 := allocated52 alloc - 1 in
    let u := 2 in
    let in_ := 3 in
    '(u, size2, it1, in_, dataInfo, ruAssigned) <-
       give_26 (Z.to_nat u) type3 u size2 onoff in_ [c] [(type2, 1)] ;;
    '(u, size4, it3, in_, dataInfo, ruAssigned) <-
       give_26 (Z.to_nat u) type3 u size4 http in_ dataInfo ruAssigned ;;
    Ok (mkEmission allocated52 (allocated26 alloc)
          size2 size3 size4 it1 it2 it3 dataInfo ruAssigned).

(** Lines 763-780: an odd [allocated26] is made even by one 26-tone unit
    at index 5. *)
Definition odd_26 (type3 : RuType) (e : Emission) : result Emission :=
  if negb (Z.rem (e_allocated26 e) 2 =? 0) then
    if e_size2 e >? 0 then
      '(c, it1) <- take_next (staInfoIt1 e) ;;
      Ok (mkEmission (e_allocated52 e) (e_allocated26 e - 1)
            (e_size2 e - 1) (e_size3 e) (e_size4 e)
            it1 (staInfoIt2 e) (staInfoIt3 e)
            (e_dataInfo e ++ [c]) (e_ruAssigned e ++ [(type3, 5)]))
    else
      '(c, it3) <- take_next (staInfoIt3 e) ;;
      Ok (mkEmission (e_allocated52 e) (e_allocated26 e - 1)
            (e_size2 e) (e_size3 e) (e_size4 e - 1)
            (staInfoIt1 e) (staInfoIt2 e) it3
            (e_dataInfo e ++ [c]) (e_ruAssigned e ++ [(type3, 5)]))
  else Ok e.

(** Lines 784-793: [while (allocated52 > 0)]. *)
Fixpoint give_52 (fuel : nat) (type2 : RuType) (allocated52 size3 : Z)
  (it2 : list Candidate) (in1 : Z) (dataInfo : list Candidate)
  (ruAssigned : list RuEntry)
  : result (Z * Z * list Candidate * list Candidate * list RuEntry) :=
  if allocated52 >? 0 then
    match fuel with
    | O => Fault OutOfFuel
    | S fuel' =>
        '(c, it2') <- take_next it2 ;;
        give_52 fuel' type2 (allocated52 - 1) (size3 - 1) it2' (in1 + 1)
          (dataInfo ++ [c]) (ruAssigned ++ [(type2, in1)])
    end
  else Ok (allocated52, size3, it2, dataInfo, ruAssigned).

(** Lines 781-816: the remaining reserved units, then the candidates
    left without an RU. *)
Definition remaining_units (type2 type3 : RuType) (e : Emission)
  : result (list RuEntry * list Candidate) :=
  let in1 := 3 in
  let in2 := if e_allocated52 e >? 0 then 8 else 6 in
  '(allocated52, size3, it2, dataInfo, ruAssigned) <-
     give_52 (Z.to_nat (e_allocated52 e)) type2 (e_allocated52 e) (e_size3 e)
       (staInfoIt2 e) in1 (e_dataInfo e) (e_ruAssigned e) ;;
  '(allocated26, size2, it1, in2, dataInfo, ruAssigned) <-
     give_26 (Z.to_nat (e_allocated26 e)) type3 (e_allocated26 e) (e_size2 e)
       (staInfoIt1 e) in2 dataInfo ruAssigned ;;
  '(allocated26, size4, it3, in2, dataInfo, ruAssigned) <-
     give_26 (Z.to_nat allocated26) type3 allocated26 (e_size4 e)
       (staInfoIt3 e) in2 dataInfo ruAssigned ;;
  '(rest1, _) <- take_iter (Z.to_nat size2) it1 ;;
  '(rest2, _) <- take_iter (Z.to_nat size3) it2 ;;
  '(rest3, _) <- take_iter (Z.to_nat size4) it3 ;;
  Ok (ruAssigned, dataInfo ++ rest1 ++ rest2 ++ rest3).

Definition mixed_branch (onoff bulksend http : list Candidate)
  : result (list RuEntry * list Candidate) :=
  alloc <- reserve (size_of onoff) (size_of bulksend) (size_of http) ;;
  type1 <- table_at "RU_106_TONE" ;;
  type2 <- table_at "RU_52_TONE" ;;
  type3 <- table_at "RU_26_TONE" ;;
  e <- first_member type1 type2 type3 alloc onoff bulksend http ;;
  e <- odd_26 type3 e ;;
  remaining_units type2 type3 e.

(** ** GetNumberAndTypeOfRus *)

Section RuPacker.
(** [HeRu::m_heRuSubcarrierGroups] and the three membership lists
    [onoff1], [bulksend1], [http1], all declared outside this file. *)
Variable m_heRuSubcarrierGroups : RuTable.
Variables onoff1 bulksend1 http1 : list Mac48Address.

(** [HeRu::m_heRuSubcarrierGroups.at ({bandwidth, ruType}).size ()]. *)
Definition groups_at (bandwidth : Z) (ruType : RuType) : result nat :=
  match find (fun e => (fst (fst e) =? bandwidth) && RuType_eqb (snd (fst e)) ruType)
             m_heRuSubcarrierGroups with
  | Some e => Ok (snd e)
  | None => Fault OutOfRange
  end.

(** The search of a membership list for the address of a candidate. *)
Definition listed (members : list Mac48Address) (c : Candidate) : bool :=
  existsb (fun b1 => b1 =? get0 c) members.

(** Lines 573-613: every candidate goes to the first class whose list
    has its address, in the order bulksend, onoff, http; a candidate in
    no list goes to no class. *)
Fixpoint classify (dataInfo onoff bulksend http : list Candidate)
  : list Candidate * list Candidate * list Candidate :=
  match dataInfo with
  | [] => (onoff, bulksend, http)
  | c :: rest =>
      if listed bulksend1 c then classify rest onoff (bulksend ++ [c]) http
      else if listed onoff1 c then classify rest (onoff ++ [c]) bulksend http
      else if listed http1 c then classify rest onoff bulksend (http ++ [c])
      else classify rest onoff bulksend http
  end.

(** Lines 624-638: the first entry of the table, in iteration order,
    with no more groups than [nStations], or at 160 MHz an 80 MHz entry
    with no more than half of it; with it the value stored in
    [uint8_t nRusAssigned]. *)
Fixpoint first_fit (groups : RuTable) (bandwidth nStations : Z)
  : option (RuType * Z) :=
  match groups with
  | [] => None
  | ((bw, t), n) :: rest =>
      if (bw =? bandwidth) && (Z.of_nat n <=? nStations)
      then Some (t, Z.of_nat n mod 256)
      else if (bandwidth =? 160) && (bw =? 80) && (2 * Z.of_nat n <=? nStations)
      then Some (t, (2 * Z.of_nat n) mod 256)
      else first_fit rest bandwidth nStations
  end.

(** Lines 624-644: the RU type of the uniform allocation. *)
Definition uniform_type (bandwidth nStations : Z) : result RuType :=
  let found := first_fit m_heRuSubcarrierGroups bandwidth nStations in
  let nRusAssigned := match found with Some (_, n) => n | None => 0 end in
  if nRusAssigned =? 0 then
    _ <- ns_assert ((bandwidth =? 160) && (nStations =? 1)) ;;
    Ok RU_2x996_TONE
  else
    match found with
    | Some (t, _) => Ok t
    | None => Ok RU_2x996_TONE
    end.

(** [for (ruIndex = 1; ruIndex <= m_heRuSubcarrierGroups.at ({bandwidth,
    ruType}).size (); ruIndex++) ruAssigned.push_back ({ruType, ruIndex})]. *)
Definition one_per_group (bandwidth : Z) (ruType : RuType) : result (list RuEntry) :=
  n <- groups_at bandwidth ruType ;;
  Ok (map (fun ruIndex => (ruType, Z.of_nat ruIndex)) (seq 1 n)).

(** Lines 620-659. *)
Definition degenerate_branch (bandwidth nStations : Z)
  (onoff bulksend http : list Candidate) : result (list RuEntry * list Candidate) :=
  ruType <- uniform_type bandwidth nStations ;;
  let dataInfo := onoff ++ bulksend ++ http in
  ruAssigned <- one_per_group bandwidth ruType ;;
  Ok (ruAssigned, dataInfo).

(** Lines 665-696.  The second loop reads [size2] candidates of
    bulksend, however many it has; the RU type is that of the first
    entry of the table, and with an empty table no key is found. *)
Definition overflow_branch (bandwidth : Z)
  (onoff bulksend http : list Candidate) : result (list RuEntry * list Candidate) :=
  let size2 := size_of onoff in
  '(part2, _) <- take_iter (Z.to_nat size2) bulksend ;;
  let dataInfo := onoff ++ part2 ++ http in
  match m_heRuSubcarrierGroups with
  | [] => Fault OutOfRange
  | ((_, ruType), _) :: _ =>
      ruAssigned <- one_per_group bandwidth ruType ;;
      Ok (ruAssigned, dataInfo)
  end.

(** The RU allocation sequence returned and the rewritten [m_dataInfo]. *)
Definition GetNumberAndTypeOfRus (bandwidth nStations : Z)
  (m_dataInfo : list Candidate) : result (list RuEntry * list Candidate) :=
  let '(onoff, bulksend, http) := classify m_dataInfo [] [] [] in
  let size2 := size_of onoff in
  onoff <- merge_sort onoff 0 (size2 - 1) ;;
  let size3 := size_of bulksend in
  bulksend <- merge_sort bulksend 0 (size3 - 1) ;;
  let size4 := size_of http in
  http <- merge_sort http 0 (size4 - 1) ;;
  if (size3 =? 0) || (size2 + size3 + size4 <=? 1) then
    degenerate_branch bandwidth nStations onoff bulksend http
  else if size2 >? 7 then
    overflow_branch bandwidth onoff bulksend http
  else
    mixed_branch onoff bulksend http.
End RuPacker.

(** The RU table of IEEE 802.11ax, which ns-3 lists by increasing
    bandwidth and RU width; it has no 160 MHz entries, a 160 MHz channel
    being handled as two 80 MHz halves. *)
Definition heRuSubcarrierGroups_11ax : RuTable :=
  [ ((20, RU_26_TONE), 9%nat); ((20, RU_52_TONE), 4%nat);
    ((20, RU_106_TONE), 2%nat); ((20, RU_242_TONE), 1%nat);
    ((40, RU_26_TONE), 18%nat); ((40, RU_52_TONE), 8%nat);
    ((40, RU_106_TONE), 4%nat); ((40, RU_242_TONE), 2%nat);
    ((40, RU_484_TONE), 1%nat);
    ((80, RU_26_TONE), 37%nat); ((80, RU_52_TONE), 16%nat);
    ((80, RU_106_TONE), 8%nat); ((80, RU_242_TONE), 4%nat);
    ((80, RU_484_TONE), 2%nat); ((80, RU_996_TONE), 1%nat) ].

(** The largest number of RU slots an RU table gives a bandwidth. *)
Definition slot_capacity (groups : RuTable) (bandwidth : Z) : Z :=
  fold_right (fun e acc => if fst (fst e) =? bandwidth
                           then Z.max (Z.of_nat (snd e)) acc else acc)
             0 groups.

(** A batch for experiments: [n] candidates with addresses [base + 1],
    ..., [base + n], AIDs alike, and pending frames of [sz] bytes. *)
Definition batch (base : Z) (n : nat) (sz : Z) : list Candidate :=
  map (fun i => (base + Z.of_nat i, sz, mkDlPerStaInfo (base + Z.of_nat i) 0)) (seq 1 n).

Definition addresses (base : Z) (n : nat) : list Mac48Address :=
  map (fun i => base + Z.of_nat i) (seq 1 n).

(** ** Ordered maps *)

(** A [std::map] with integer keys is the list of its entries by
    increasing key. *)
Section StdMap.
Context {V : Type}.

(** [m.find (k)], [None] standing for [m.end ()]. *)
Fixpoint map_find (k : Z) (m : list (Z * V)) : option V :=
  match m with
  | [] => None
  | (k', v) :: rest => if k' =? k then Some v else map_find k rest
  end.

(** [m[k] = v]. *)
Fixpoint map_assign (k : Z) (v : V) (m : list (Z * V)) : list (Z * V) :=
  match m with
  | [] => [(k, v)]
  | (k', v') :: rest =>
      if k <? k' then (k, v) :: m
      else if k =? k' then (k, v) :: rest
      else (k', v') :: map_assign k v rest
  end.

(** [m.insert ({k, v})], which leaves an entry already under [k]. *)
Fixpoint map_insert (k : Z) (v : V) (m : list (Z * V)) : list (Z * V) :=
  match m with
  | [] => [(k, v)]
  | (k', v') :: rest =>
      if k <? k' then (k, v) :: m
      else if k =? k' then m
      else (k', v') :: map_insert k v rest
  end.
End StdMap.

(** ** The scheduler: formats, TX vector, state and collaborators *)

Inductive OfdmaTxFormat : Type := NON_OFDMA | DL_OFDMA | UL_OFDMA.

(** The UL acknowledgment sequences: the one the code supports and any
    other. *)
Inductive UlMuAckSequenceType : Type := UL_MULTI_STA_BLOCK_ACK | UL_OTHER_SEQUENCE.

(** [HeRu::RuSpec]. *)
Record RuSpec : Type := mkRuSpec {
  primary80MHz : bool;
  ruType : RuType;
  index : Z
}.

(** The part of [WifiTxVector] the scheduler decides: the user infos by
    station id (of each, its RU) and the L-SIG length. *)
Record WifiTxVector : Type := mkWifiTxVector {
  GetHeMuUserInfoMap : list (Z * RuSpec);
  GetLength : Z
}.

(** The members of [RrOfdmaManager] that a decision reads and writes. *)
Record RrOfdmaManager : Type := mkRrOfdmaManager {
  m_startStation : Z;
  m_dataInfo : list Candidate;
  m_staInfo : list (Mac48Address * DlPerStaInfo);
  m_txVector : WifiTxVector
}.

(** The attributes, the tables declared outside this file, and the
    MAC/PHY collaborators, each a function of what the scheduler passes
    to it.  Durations are nanoseconds.  The DL acknowledgment sequence
    only reaches the TX parameters and the response durations, which are
    collaborators here. *)
Record Env : Type := mkEnv {
  (* attributes *)
  m_nStations : Z;
  m_forceDlOfdma : bool;
  m_enableUlOfdma : bool;
  m_ulPsduSize : Z;
  (* tables *)
  heRuSubcarrierGroups : RuTable;
  onoff1 : list Mac48Address;
  bulksend1 : list Mac48Address;
  http1 : list Mac48Address;
  (* the previous decision and the frame that triggers this one *)
  GetTxFormat : OfdmaTxFormat;
  GetQosTid : Z;
  (* MAC *)
  GetStaList : list (Z * Mac48Address);
  GetMaxBufferStatus : Mac48Address -> Z;
  QosUtilsMapTidToAc : Z -> Z;
  GetAckSequenceForUlMu : Z -> UlMuAckSequenceType;
  GetTxopLimit : Z -> Z;
  GetTxopRemaining : Z -> Z;
  GetBaAgreementEstablished : Z -> Mac48Address -> Z -> bool;
  PeekNextFrame : Z -> Z -> Mac48Address -> option Z;
  IsWithinSizeAndTimeLimits : Z -> Z -> RuType -> Z -> bool;
  (* PHY and time *)
  GetChannelWidth : Z;
  GetPpduMaxTime : Z;
  IsStrictlyPositive : Z -> bool;
  IsNegative : Z -> bool;
  UlResponseDuration : WifiTxVector -> Z;
  DlResponseDuration : WifiTxVector -> Z;
  CalculateTxDuration : Z -> WifiTxVector -> Z;
  ConvertHeTbPpduDurationToLSigLength : Z -> Z
}.

(** ** InitTxVectorAndParams *)

(** Lines 96-133: the stations of [staList], in the order of their
    addresses, each with the type of the RU entry at the same position,
    until either sequence ends. *)
Fixpoint init_user_infos (staList : list (Mac48Address * DlPerStaInfo))
  (ruIt : list RuEntry) (users : list (Z * RuSpec)) : list (Z * RuSpec) :=
  match staList, ruIt with
  | (_, info) :: staList', (t, _) :: ruIt' =>
      init_user_infos staList' ruIt' (map_assign (aid info) (mkRuSpec false t 1) users)
  | _, _ => users
  end.

Definition InitTxVectorAndParams (staList : list (Mac48Address * DlPerStaInfo))
  (ruAssigned : list RuEntry) : WifiTxVector :=
  mkWifiTxVector (init_user_infos staList ruAssigned []) 0.

(** ** SelectTxFormat *)

Section Scheduler.
Variable env : Env.

(** The [uint8_t] that [GetMaxBufferStatus] returns. *)
Definition queueSize_of (address : Mac48Address) : Z :=
  GetMaxBufferStatus env address mod 256.

(** The [uint32_t] attribute UlPsduSize. *)
Definition ulPsduSize : Z := m_ulPsduSize env mod 2 ^ 32.

(** Lines 190-219: the loop over the users of the previous DL MU PPDU,
    from the value [maxBufferSize] has on entering it. *)
Fixpoint max_buffer_size (users : list (Z * RuSpec)) (maxBufferSize : Z) : Z :=
  match users with
  | [] => maxBufferSize
  | (staId, _) :: rest =>
      match map_find staId (GetStaList env) with
      | Some address =>
          let queueSize := queueSize_of address in
          if queueSize =? 255 then
            max_buffer_size rest (Z.max maxBufferSize ulPsduSize)
          else if queueSize =? 254 then
            0xffffffff
          else
            max_buffer_size rest (Z.max maxBufferSize ((queueSize * 256) mod 2 ^ 32))
      | None => max_buffer_size rest maxBufferSize
      end
  end.

(** What an invocation of [SelectTxFormat] can end with: the format
    returned and the members as it leaves them. *)
Definition Outcome : Type := (OfdmaTxFormat * RrOfdmaManager)%type.

Definition clear_candidates (m : RrOfdmaManager) : RrOfdmaManager :=
  mkRrOfdmaManager (m_startStation m) [] [] (m_txVector m).

(** Lines 222-305, entered with a positive [maxBufferSize]. *)
Definition grant_uplink (m : RrOfdmaManager) (ac maxBufferSize : Z) : Outcome :=
  let maxDuration := GetPpduMaxTime env in
  let response := UlResponseDuration env (m_txVector m) in
  let inTxop := IsStrictlyPositive env (GetTxopLimit env ac) in
  if inTxop && (response >? GetTxopRemaining env ac) then
    (DL_OFDMA, clear_candidates m)
  else
    let maxDuration :=
      if inTxop then Z.min maxDuration (GetTxopRemaining env ac - response)
      else maxDuration in
    let bufferTxTime := CalculateTxDuration env maxBufferSize (m_txVector m) in
    let minDuration := CalculateTxDuration env ulPsduSize (m_txVector m) in
    if negb (bufferTxTime <? maxDuration) && (maxDuration <? minDuration) then
      (DL_OFDMA, clear_candidates m)
    else
      let maxDuration :=
        if bufferTxTime <? maxDuration then bufferTxTime else maxDuration in
      let length := ConvertHeTbPpduDurationToLSigLength env maxDuration in
      (UL_OFDMA,
       mkRrOfdmaManager (m_startStation m) (m_dataInfo m) (m_staInfo m)
         (mkWifiTxVector (GetHeMuUserInfoMap (m_txVector m)) length)).

(** [staList.find (m_startStation)] and lines 313-317: the stations
    from the starting one round to the one before it, and the starting
    AID.  On an empty list [staList.begin ()] is [staList.end ()]. *)
Fixpoint position_of (aid : Z) (staList : list (Z * Mac48Address)) : option nat :=
  match staList with
  | [] => None
  | (k, _) :: rest =>
      if k =? aid then Some O
      else match position_of aid rest with
           | Some i => Some (S i)
           | None => None
           end
  end.

Definition round_from (m_startStation : Z)
  : result (list (Z * Mac48Address) * Z) :=
  let staList := GetStaList env in
  match position_of m_startStation staList with
  | Some i => Ok (skipn i staList ++ firstn i staList, m_startStation)
  | None =>
      match staList with
      | [] => Fault BadAccess
      | (first, _) :: _ => Ok (staList, first)
      end
  end.

(** Lines 339-348: the do-while building [guess]; [round] is what the
    iterator [staIt] has yet to visit before it is back at [startIt]. *)
Fixpoint guess_loop (currTid count : Z) (round : list (Z * Mac48Address))
  (guess : list (Mac48Address * DlPerStaInfo)) : list (Mac48Address * DlPerStaInfo) :=
  match round with
  | [] => guess
  | (staId, address) :: rest =>
      let guess := map_assign address (mkDlPerStaInfo staId currTid) guess in
      match rest with
      | [] => guess
      | _ :: _ => if size_of guess <? count then guess_loop currTid count rest guess
                  else guess
      end
  end.

(** Lines 388-436: the loop over the TIDs for one station.  [ruIt] is
    the number of times the iterator over [ruType] was advanced; it is
    dereferenced only when a frame is found. *)
Fixpoint scan_tids (ruType : list RuEntry) (primaryAc txopLimit : Z)
  (staId : Z) (address : Mac48Address) (tids : list Z) (ruIt : nat)
  : result (option Candidate) :=
  match tids with
  | [] => Ok None
  | tid :: rest =>
      let ac := QosUtilsMapTidToAc env tid in
      if (ac >=? primaryAc) && GetBaAgreementEstablished env ac address tid then
        match PeekNextFrame env ac tid address with
        | Some size =>
            match nth_error ruType ruIt with
            | None => Fault BadAccess
            | Some (t, _) =>
                if IsWithinSizeAndTimeLimits env size staId t txopLimit
                then Ok (Some (address, size, mkDlPerStaInfo staId tid))
                else scan_tids ruType primaryAc txopLimit staId address rest (S ruIt)
            end
        | None => scan_tids ruType primaryAc txopLimit staId address rest (S ruIt)
        end
      else scan_tids ruType primaryAc txopLimit staId address rest (S ruIt)
  end.

Definition tids_from (currTid : Z) : list Z := [currTid; 1; 2; 0; 3; 4; 5; 6; 7].

(** Lines 384-444: the do-while over the stations.  It returns the two
    batches and what [startIt] has yet to visit ([[]] when it is back at
    the starting station). *)
Fixpoint select_loop (ruType : list RuEntry) (currTid primaryAc txopLimit : Z)
  (round : list (Z * Mac48Address))
  (dataInfo : list Candidate) (staInfo : list (Mac48Address * DlPerStaInfo))
  : result (list Candidate * list (Mac48Address * DlPerStaInfo)
            * list (Z * Mac48Address)) :=
  match round with
  | [] => Ok (dataInfo, staInfo, [])
  | (staId, address) :: rest =>
      found <- scan_tids ruType primaryAc txopLimit staId address
                 (tids_from currTid) O ;;
      let '(dataInfo, staInfo) :=
        match found with
        | Some c => (dataInfo ++ [c], staInfo ++ [(get0 c, get2 c)])
        | None => (dataInfo, staInfo)
        end in
      match rest with
      | [] => Ok (dataInfo, staInfo, [])
      | _ :: _ =>
          if size_of staInfo <? m_nStations env mod 256
          then select_loop ruType currTid primaryAc txopLimit rest dataInfo staInfo
          else Ok (dataInfo, staInfo, rest)
      end
  end.

Definition forced_format : OfdmaTxFormat :=
  if m_forceDlOfdma env then DL_OFDMA else NON_OFDMA.

(** Lines 308-353: up to the initialisation of the TX vector from the
    guess.  It yields the round of stations, the tentative RU list and
    the members so far. *)
Definition prepare_downlink (m : RrOfdmaManager)
  : result (list (Z * Mac48Address) * list RuEntry * RrOfdmaManager) :=
  '(round, startStation) <- round_from (m_startStation m) ;;
  let currTid := GetQosTid env in
  let count := m_nStations env mod 256 in
  '(ruType, dataInfo) <-
     GetNumberAndTypeOfRus (heRuSubcarrierGroups env) (onoff1 env)
       (bulksend1 env) (http1 env) (GetChannelWidth env) count [] ;;
  _ <- ns_assert (count >=? 1) ;;
  let guess := guess_loop currTid count round [] in
  Ok (round, ruType,
      mkRrOfdmaManager startStation dataInfo [] (InitTxVectorAndParams guess ruType)).

(** [primaryAc], the access category of the triggering frame. *)
Definition primary_ac : Z := QosUtilsMapTidToAc env (GetQosTid env).

(** Lines 356-370: [txopLimit], zero outside a TXOP. *)
Definition txop_limit (m : RrOfdmaManager) : Z :=
  if IsStrictlyPositive env (GetTxopLimit env primary_ac)
  then GetTxopRemaining env primary_ac - DlResponseDuration env (m_txVector m)
  else 0.

(** Line 371, reached only within a TXOP. *)
Definition txop_exhausted (m : RrOfdmaManager) : bool :=
  IsStrictlyPositive env (GetTxopLimit env primary_ac)
  && IsNegative env (txop_limit m).

Definition select_stations (ruType : list RuEntry)
  (round : list (Z * Mac48Address)) (m : RrOfdmaManager) :=
  select_loop ruType (GetQosTid env) primary_ac (txop_limit m) round
    (m_dataInfo m) (m_staInfo m).

(** Lines 308-458. *)
Definition downlink_path (m : RrOfdmaManager) : result Outcome :=
  '(round, ruType, m) <- prepare_downlink m ;;
  if txop_exhausted m then Ok (forced_format, m)
  else
    '(dataInfo, staInfo, unvisited) <- select_stations ruType round m ;;
    match staInfo with
    | [] =>
        Ok (forced_format,
            mkRrOfdmaManager (m_startStation m) dataInfo staInfo (m_txVector m))
    | _ :: _ =>
        let next := match unvisited with
                    | (staId, _) :: _ => staId
                    | [] => m_startStation m
                    end in
        Ok (DL_OFDMA, mkRrOfdmaManager next dataInfo staInfo (m_txVector m))
    end.

(** Whether the invocation tries to follow a DL MU PPDU by an UL one. *)
Definition uplink_reuse : bool :=
  m_enableUlOfdma env &&
  match GetTxFormat env with DL_OFDMA => true | _ => false end.

(** The estimate of lines 190-219 for the members [m]. *)
Definition buffer_estimate (m : RrOfdmaManager) : Z :=
  max_buffer_size (GetHeMuUserInfoMap (m_txVector m)) 0.

Definition SelectTxFormat (m : RrOfdmaManager) : result Outcome :=
  if uplink_reuse then
    if ulPsduSize =? 0 then Fault FatalError else
    let ac := QosUtilsMapTidToAc env (GetQosTid env) in
    match GetAckSequenceForUlMu env ac with
    | UL_MULTI_STA_BLOCK_ACK =>
        let maxBufferSize := buffer_estimate m in
        if maxBufferSize >? 0 then Ok (grant_uplink m ac maxBufferSize)
        else downlink_path m
    | UL_OTHER_SEQUENCE => Fault FatalError
    end
  else downlink_path m.

(** ** ComputeDlOfdmaInfo *)

(** What [DlOfdmaInfo] holds of the allocation: the receivers by
    address and the TX vector. *)
Record DlOfdmaInfo : Type := mkDlOfdmaInfo {
  staInfo : list (Mac48Address * DlPerStaInfo);
  txVector : WifiTxVector
}.

(** Lines 854-861: one receiver per RU entry. *)
Fixpoint collect_receivers (n : nat) (staInfoIt : list Candidate)
  (receivers : list (Mac48Address * DlPerStaInfo))
  : result (list (Mac48Address * DlPerStaInfo) * list Candidate) :=
  match n with
  | O => Ok (receivers, staInfoIt)
  | S n' =>
      match staInfoIt with
      | [] => Fault AssertFailed
      | c :: staInfoIt' =>
          collect_receivers n' staInfoIt' (map_insert (get0 c) (get2 c) receivers)
      end
  end.

(** Lines 903-912: the inner loop, [nRusAssigned] turns for one value
    of [primary80MHz]; both iterators go on from where the previous
    half left them. *)
Fixpoint assign_rus (primary : bool) (n : nat)
  (mapIt : list (Mac48Address * DlPerStaInfo)) (ruIt : list RuEntry)
  (users : list (Z * RuSpec))
  : result (list (Mac48Address * DlPerStaInfo) * list RuEntry * list (Z * RuSpec)) :=
  match n with
  | O => Ok (mapIt, ruIt, users)
  | S n' =>
      match mapIt with
      | [] => Fault AssertFailed
      | (_, info) :: mapIt' =>
          match ruIt with
          | [] => Fault BadAccess
          | (t, i) :: ruIt' =>
              assign_rus primary n' mapIt' ruIt'
                (map_assign (aid info) (mkRuSpec primary t i) users)
          end
      end
  end.

(** Lines 901-913: the loop over [primary80MHzSet]. *)
Fixpoint assign_halves (primary80MHzSet : list bool) (n : nat)
  (mapIt : list (Mac48Address * DlPerStaInfo)) (ruIt : list RuEntry)
  (users : list (Z * RuSpec)) : result (list (Z * RuSpec)) :=
  match primary80MHzSet with
  | [] => Ok users
  | primary :: others =>
      '(mapIt, ruIt, users) <- assign_rus primary n mapIt ruIt users ;;
      assign_halves others n mapIt ruIt users
  end.

Definition ComputeDlOfdmaInfo (m : RrOfdmaManager)
  : result (DlOfdmaInfo * RrOfdmaManager) :=
  match m_staInfo m with
  | [] => Ok (mkDlOfdmaInfo [] (mkWifiTxVector [] 0), m)
  | _ :: _ =>
      let bw := GetChannelWidth env in
      let nRusAssigned := size_of (m_dataInfo m) in
      '(ruAssigned, dataInfo) <-
         GetNumberAndTypeOfRus (heRuSubcarrierGroups env) (onoff1 env)
           (bulksend1 env) (http1 env) bw nRusAssigned (m_dataInfo m) ;;
      let nRusAssigned := length ruAssigned in
      '(receivers, staInfoIt) <- collect_receivers nRusAssigned dataInfo [] ;;
      startStation <-
        (if Z.of_nat nRusAssigned <? size_of dataInfo then
           match staInfoIt with
           | [] => Fault AssertFailed
           | c :: _ => Ok (aid (get2 c))
           end
         else Ok (m_startStation m)) ;;
      let txVector := InitTxVectorAndParams receivers ruAssigned in
      let primary80MHzSet := if bw =? 160 then [true; false] else [true] in
      users <- assign_halves primary80MHzSet nRusAssigned receivers ruAssigned
                 (GetHeMuUserInfoMap txVector) ;;
      let txVector := mkWifiTxVector users (GetLength txVector) in
      Ok (mkDlOfdmaInfo receivers txVector,
          mkRrOfdmaManager startStation dataInfo (m_staInfo m) txVector)
  end.
End Scheduler.

(** ** The uplink estimate, as the specification words it *)

Section Estimate.
Variable env : Env.

(** The addresses of the users of the previous DL MU PPDU that are
    still in the list of associated stations. *)
Fixpoint still_associated (users : list (Z * RuSpec)) : list Mac48Address :=
  match users with
  | [] => []
  | (staId, _) :: rest =>
      match map_find staId (GetStaList env) with
      | Some address => address :: still_associated rest
      | None => still_associated rest
      end
  end.

(** The bytes a buffer-status code stands for: the minimum UL PSDU
    size for 255, else 256 bytes per unit. *)
Definition pending_bytes (address : Mac48Address) : Z :=
  if queueSize_of env address =? 255 then ulPsduSize env
  else queueSize_of env address * 256.

Definition unbounded (address : Mac48Address) : bool :=
  queueSize_of env address =? 254.

(** Unbounded as soon as one station reports 254, else the largest
    of the reports. *)
Definition aggregate_estimate (users : list (Z * RuSpec)) : Z :=
  if existsb unbounded (still_associated users) then 0xffffffff
  else fold_right Z.max 0 (map pending_bytes (still_associated users)).
End Estimate.

(** ** Sample collaborators *)

(** The mapping of TIDs to access categories of IEEE 802.11e, with
    AC_BE = 0, AC_BK = 1, AC_VI = 2, AC_VO = 3. *)
Definition tid_to_ac (tid : Z) : Z :=
  if (tid =? 0) || (tid =? 3) then 0
  else if (tid =? 1) || (tid =? 2) then 1
  else if (tid =? 4) || (tid =? 5) then 2
  else if (tid =? 6) || (tid =? 7) then 3
  else 4.

(** An access point on the 802.11ax table with block-ack agreements
    with every station for every TID and frames that always fit; the
    rest is left to the arguments. *)
Definition sample_env (bandwidth nStations : Z) (forceDl enableUl : bool)
  (txopLimit txopRemaining : Z)
  (previous : OfdmaTxFormat) (stations : list (Z * Mac48Address))
  (status : Mac48Address -> Z) (queued : Z -> Mac48Address -> option Z)
  (onoff bulksend http : list Mac48Address) : Env :=
  {| m_nStations := nStations;
     m_forceDlOfdma := forceDl;
     m_enableUlOfdma := enableUl;
     m_ulPsduSize := 500;
     heRuSubcarrierGroups := heRuSubcarrierGroups_11ax;
     onoff1 := onoff;
     bulksend1 := bulksend;
     http1 := http;
     GetTxFormat := previous;
     GetQosTid := 0;
     GetStaList := stations;
     GetMaxBufferStatus := status;
     QosUtilsMapTidToAc := tid_to_ac;
     GetAckSequenceForUlMu := fun _ => UL_MULTI_STA_BLOCK_ACK;
     GetTxopLimit := fun _ => txopLimit;
     GetTxopRemaining := fun _ => txopRemaining;
     GetBaAgreementEstablished := fun _ _ _ => true;
     PeekNextFrame := fun _ tid address => queued tid address;
     IsWithinSizeAndTimeLimits := fun _ _ _ _ => true;
     GetChannelWidth := bandwidth;
     GetPpduMaxTime := 5484000;
     IsStrictlyPositive := fun t => t >? 0;
     IsNegative := fun t => t <=? 0;
     UlResponseDuration := fun _ => 100000;
     DlResponseDuration := fun _ => 100000;
     CalculateTxDuration := fun bytes _ => 1000 * bytes;
     ConvertHeTbPpduDurationToLSigLength := fun d => d / 1000 |}.

Definition fresh_manager : RrOfdmaManager :=
  mkRrOfdmaManager 0 [] [] (mkWifiTxVector [] 0).

(** One associated station (AID 1) that reported an empty buffer after
    the previous DL MU PPDU and to which nothing is queued. *)
Definition idle_env : Env :=
  sample_env 20 4 false true 0 0 DL_OFDMA [(1, 101)] (fun _ => 0) (fun _ _ => None) [] [] [].

Definition idle_manager : RrOfdmaManager :=
  mkRrOfdmaManager 1 [] [] (mkWifiTxVector [(1, mkRuSpec false RU_242_TONE 1)] 0).

(** One station with a frame queued for TID 1 only, and one RU per
    opportunity. *)
Definition late_tid_env : Env :=
  sample_env 20 1 false false 0 0 NON_OFDMA [(1, 101)] (fun _ => 0)
    (fun tid _ => if tid =? 1 then Some 100 else None) [] [] [].

(** The idle access point inside a TXOP of which less is left than the
    acknowledgment of the DL MU PPDU takes, with ForceDlOfdma on. *)
Definition short_txop_env : Env :=
  sample_env 20 4 true false 3000000 50000 NON_OFDMA [(1, 101)] (fun _ => 0)
    (fun _ _ => None) [] [] [].

(** A 160 MHz channel and two stations of the bulksend class, each
    with a frame queued. *)
Definition wide_env : Env :=
  sample_env 160 4 false false 0 0 NON_OFDMA [(1, 201); (2, 202)] (fun _ => 0)
    (fun _ _ => Some 100) [] [201; 202] [].

Definition wide_manager : RrOfdmaManager :=
  mkRrOfdmaManager 1
    [(201, 100, mkDlPerStaInfo 1 0); (202, 100, mkDlPerStaInfo 2 0)]
    [(201, mkDlPerStaInfo 1 0); (202, mkDlPerStaInfo 2 0)]
    (mkWifiTxVector [] 0).

(** Seven onoff, one bulksend and two http candidates, with the
    membership lists that class them so. *)
Definition crowded_batch : list Candidate :=
  batch 100 7 50 ++ batch 200 1 60 ++ batch 300 2 70.

(** Eight onoff and eight bulksend candidates. *)
Definition overflow_batch : list Candidate :=
  batch 100 8 50 ++ batch 200 8 60.

(** ** Vocabulary for the uniform allocations *)

(** The test of lines 626 and 632 on an entry of the table. *)
Definition fits (bandwidth nStations : Z) (e : (Z * RuType) * nat) : bool :=
  ((fst (fst e) =? bandwidth) && (Z.of_nat (snd e) <=? nStations))
  || ((bandwidth =? 160) && (fst (fst e) =? 80) && (2 * Z.of_nat (snd e) <=? nStations)).

(** Every RU type of the table has at least one group, and few enough
    for twice their number to fit [uint8_t]. *)
Definition table_ok (groups : RuTable) : bool :=
  forallb (fun e => (1 <=? Z.of_nat (snd e)) && (Z.of_nat (snd e) <=? 127)) groups.

(** Entries of type [t] with the indices 1, ..., [slots]. *)
Definition uniform_entries (t : RuType) (slots : nat) : list RuEntry :=
  map (fun ruIndex => (t, Z.of_nat ruIndex)) (seq 1 slots).

(** [t] is the widest of the RU types that the table lists for the
    bandwidth with at most [nStations] groups. *)
Definition widest_fitting (groups : RuTable) (bandwidth nStations : Z) (t : RuType) : Prop :=
  forall (t' : RuType) (n : nat),
    In ((bandwidth, t'), n) groups -> Z.of_nat n <= nStations -> tones t' <= tones t.

(** [t] is the widest of the RU types that the table lists for the
    bandwidth. *)
Definition widest_available (groups : RuTable) (bandwidth : Z) (t : RuType) : Prop :=
  forall (t' : RuType) (n : nat), In ((bandwidth, t'), n) groups -> tones t' <= tones t.

(** The single RU that the 802.11ax table gives a 20, 40 or 80 MHz
    channel. *)
Definition whole_band (bandwidth : Z) : RuType :=
  if bandwidth =? 20 then RU_242_TONE
  else if bandwidth =? 40 then RU_484_TONE
  else RU_996_TONE.

(** What holds of the locals of the emission part between its steps:
    the counters agree with the iterators, no more 52-tone units are owed
    than bulksend candidates remain, every candidate is either placed or
    still under an iterator, and each candidate placed has its RU entry. *)
Definition mixed_inv (onoff bulksend http : list Candidate) (e : Emission) : Prop :=
  e_size2 e = size_of (staInfoIt1 e)
  /\ e_size3 e = size_of (staInfoIt2 e)
  /\ e_size4 e = size_of (staInfoIt3 e)
  /\ 0 <= e_allocated52 e <= e_size3 e
  /\ (length (e_dataInfo e) + length (staInfoIt1 e) + length (staInfoIt2 e)
      + length (staInfoIt3 e)
      = length onoff + length bulksend + length http)%nat
  /\ length (e_ruAssigned e) = length (e_dataInfo e).

(** A 20 MHz channel, an onoff station (AID 1) and a bulksend station
    (AID 2) with the larger address. *)
Definition two_class_env : Env :=
  sample_env 20 4 false false 0 0 NON_OFDMA [(1, 101); (2, 201)] (fun _ => 0)
    (fun _ _ => Some 100) [101] [201] [].

(** ** Vocabulary for the selection of stations *)

(** What the loop over the TIDs checked before it took candidate [c] for
    the station [sta]: the candidate carries the address and AID of the
    station, a TID of the scan whose access category is not below the
    primary one and for which a block-ack agreement is established, the
    size of the frame at the head of that queue, and the frame fits the
    limits under an RU type of the tentative list. *)
Definition eligible (env : Env) (ruType : list RuEntry) (primaryAc txopLimit : Z)
  (sta : Z * Mac48Address) (c : Candidate) : Prop :=
  get0 c = snd sta
  /\ aid (get2 c) = fst sta
  /\ In (tid (get2 c)) (tids_from (GetQosTid env))
  /\ primaryAc <= QosUtilsMapTidToAc env (tid (get2 c))
  /\ GetBaAgreementEstablished env (QosUtilsMapTidToAc env (tid (get2 c)))
       (snd sta) (tid (get2 c)) = true
  /\ PeekNextFrame env (QosUtilsMapTidToAc env (tid (get2 c))) (tid (get2 c)) (snd sta)
     = Some (get1 c)
  /\ exists (t : RuType) (i : Z),
       In (t, i) ruType
       /\ IsWithinSizeAndTimeLimits env (get1 c) (fst sta) t txopLimit = true.

(** The entry of [m_staInfo] pushed with a candidate of [m_dataInfo]. *)
Definition sta_entry (c : Candidate) : Mac48Address * DlPerStaInfo := (get0 c, get2 c).

(** The candidates that the visit of one station adds. *)
Definition taken (found : option Candidate) : list Candidate :=
  match found with
  | Some c => [c]
  | None => []
  end.


(** Three associated stations with frames queued for TID 0 and two RUs
    per opportunity; the cursor of [fresh_manager] names none of them. *)
Definition three_station_env : Env :=
  sample_env 20 2 false false 0 0 NON_OFDMA [(1, 101); (2, 102); (3, 103)]
    (fun _ => 0) (fun tid _ => if tid =? 0 then Some 100 else None) [] [] [].

(** The same access point with nobody associated. *)
Definition deserted_env : Env :=
  sample_env 20 2 false false 0 0 NON_OFDMA [] (fun _ => 0) (fun _ _ => None) [] [] [].

(** An access point that sent a DL MU PPDU to station 1, which then
    reported [status] as its buffer status, inside a TXOP of which
    [txopRemaining] is left. *)
Definition reporting_env (status txopRemaining : Z) : Env :=
  sample_env 20 4 false true 3000000 txopRemaining DL_OFDMA [(1, 101)]
    (fun _ => status) (fun _ _ => None) [] [] [].

(** ** Vocabulary for the classes *)

(** The class a candidate goes to, by the membership lists: bulksend
    when [bulksend1] has its address, else onoff when [onoff1] has it, else
    http when [http1] has it. *)
Definition bulksend_member (b1 : list Mac48Address) (c : Candidate) : bool :=
  listed b1 c.

Definition onoff_member (o1 b1 : list Mac48Address) (c : Candidate) : bool :=
  negb (listed b1 c) && listed o1 c.

Definition http_member (o1 b1 h1 : list Mac48Address) (c : Candidate) : bool :=
  negb (listed b1 c) && negb (listed o1 c) && listed h1 c.

(** The candidates that some membership list names. *)
Definition classed (o1 b1 h1 : list Mac48Address) (c : Candidate) : bool :=
  listed b1 c || listed o1 c || listed h1 c.

(** A batch of one candidate, station 1 of [late_tid_env], which no
    membership list names. *)
Definition unlisted_manager : RrOfdmaManager :=
  mkRrOfdmaManager 1 [(101, 100, mkDlPerStaInfo 1 1)] [(101, mkDlPerStaInfo 1 1)]
    (mkWifiTxVector [] 0).

(** ** decToHexa *)

(** Characters are their codes.  The character stored for a remainder:
    [temp + 48] below ten, else [temp + 55]. *)
Definition hex_char (temp : Z) : Z := if temp <? 10 then temp + 48 else temp + 55.

(** Lines 523-543: the loop of [decToHexa] over an [int n], with the part
    of [char hexaDeciNum[100]] written so far; its length is the counter
    [i].  [%] and [/] truncate towards zero. *)
Fixpoint hex_digits (fuel : nat) (n : Z) (hexaDeciNum : list Z) : result (list Z) :=
  if n =? 0 then Ok hexaDeciNum
  else
    match fuel with
    | O => Fault OutOfFuel
    | S fuel' =>
        let temp := Z.rem n 16 in
        if size_of hexaDeciNum <? 100
        then hex_digits fuel' (Z.quot n 16) (hexaDeciNum ++ [hex_char temp])
        else Fault BadAccess
    end.

(** The ten characters of [char array[] = "0:0:0:0:0:"], which a zero
    byte follows. *)
Definition array : list Z := [48; 58; 48; 58; 48; 58; 48; 58; 48; 58].

(** Lines 516-555.  The loop divides [n] by 16 as long as it is not
    zero, which takes one turn per hexadecimal digit of [n].  [strcpy]
    writes the ten characters and the zero byte into the [10 + i]
    characters allocated, and the digits then overwrite from position 10
    on: what is returned is the content of the allocation, which ends
    with the last digit. *)
Definition decToHexa (n : Z) : result (list Z) :=
  hexaDeciNum <- hex_digits (Z.to_nat (Z.log2 (Z.abs n) / 4 + 1)) n [] ;;
  let i := size_of hexaDeciNum in
  _ <- (if 10 + i <? size_of array + 1 then Fault BadAccess else Ok tt) ;;
  Ok (array ++ rev hexaDeciNum).

(** The value of a hexadecimal digit written with capital letters, and
    of a string of them, for the statement of the round trip. *)
Definition hex_value (c : Z) : option Z :=
  if (48 <=? c) && (c <=? 57) then Some (c - 48)
  else if (65 <=? c) && (c <=? 70) then Some (c - 55)
  else None.

Fixpoint parse_hex (acc : Z) (s : list Z) : option Z :=
  match s with
  | [] => Some acc
  | c :: s' =>
      match hex_value c with
      | Some d => parse_hex (16 * acc + d) s'
      | None => None
      end
  end.

(** ** GetTriggerFrameHeader *)

Inductive TriggerFrameType : Type := BASIC_TRIGGER | MU_BAR_TRIGGER.

Section Trigger.
(** [WifiMode], with the MCS value of a mode and the HE mode of an MCS
    value. *)
Variable WifiMode : Type.
Variable GetMcsValue : WifiMode -> Z.
Variable GetHeMcs : Z -> WifiMode.

(** [HeMuUserInfo]. *)
Record HeMuUserInfo : Type := mkHeMuUserInfo {
  ru : RuSpec;
  mcs : WifiMode;
  nss : Z
}.

(** What a [CtrlTriggerHeader] is built from: the type of the Trigger
    Frame and the user infos of the TX vector. *)
Record CtrlTriggerHeader : Type := mkCtrlTriggerHeader {
  GetType : TriggerFrameType;
  GetUserInfos : list (Z * HeMuUserInfo)
}.

(** Lines 933-947: the loop runs over a copy of the user infos and
    sets, in the TX vector, the user info under each station id. *)
Definition GetTriggerFrameHeader (dlMuTxVector : list (Z * HeMuUserInfo))
  (maxMcs : Z) : CtrlTriggerHeader :=
  let userInfoMap := dlMuTxVector in
  mkCtrlTriggerHeader MU_BAR_TRIGGER
    (fold_left
       (fun txVector userInfo =>
          let mcs' := Z.min (GetMcsValue (mcs (snd userInfo))) maxMcs in
          map_assign (fst userInfo)
            (mkHeMuUserInfo (ru (snd userInfo)) (GetHeMcs mcs') (nss (snd userInfo)))
            txVector)
       userInfoMap dlMuTxVector).

(** The user info with its MCS capped. *)
Definition capped (maxMcs : Z) (userInfo : Z * HeMuUserInfo) : Z * HeMuUserInfo :=
  (fst userInfo,
   mkHeMuUserInfo (ru (snd userInfo))
     (GetHeMcs (Z.min (GetMcsValue (mcs (snd userInfo))) maxMcs))
     (nss (snd userInfo))).
End Trigger.


(** * Properties *)

(** ** The error monad *)

Lemma bind_Ok {A B : Type} (m : result A) (k : A -> result B) (b : B) :
  bind m k = Ok b -> exists a, m = Ok a /\ k a = Ok b.
Proof.
  destruct m as [a|f]; simpl; intros H; [exists a; auto | discriminate].
Qed.

(** ** Vector accesses inside a known layout *)

Lemma vec_get_mid {A : Type} (pre post : list A) (x : A) (i : Z) :
  i = Z.of_nat (length pre) ->
  vec_get (pre ++ x :: post) i = Ok x.
Proof.
  intros ->. unfold vec_get.
  destruct (Z.ltb_spec (Z.of_nat (length pre)) 0); [lia|].
  rewrite Nat2Z.id, nth_error_app2 by lia.
  rewrite Nat.sub_diag. reflexivity.
Qed.

Lemma vec_set_mid {A : Type} (pre post : list A) (x y : A) (i : Z) :
  i = Z.of_nat (length pre) ->
  vec_set (pre ++ y :: post) i x = Ok (pre ++ x :: post).
Proof.
  intros ->. unfold vec_set.
  rewrite length_app. cbn [length].
  destruct (Z.leb_spec 0 (Z.of_nat (length pre))); [|lia].
  destruct (Z.ltb_spec (Z.of_nat (length pre)) (Z.of_nat (length pre + S (length post)))); [|lia].
  cbn [andb]. rewrite Nat2Z.id. f_equal.
  rewrite firstn_app, firstn_all, Nat.sub_diag, firstn_0, app_nil_r.
  f_equal. f_equal.
  change (S (length pre)) with (1 + length pre)%nat.
  rewrite <- skipn_skipn.
  rewrite skipn_app, skipn_all, Nat.sub_diag. reflexivity.
Qed.

Lemma vec_copy_mid {A : Type} (mid pre post : list A) (i : Z) :
  i = Z.of_nat (length pre) ->
  vec_copy (pre ++ mid ++ post) i (length mid) = Ok mid.
Proof.
  revert pre i. induction mid as [|x mid IH]; intros pre i Hi; simpl.
  - reflexivity.
  - rewrite (vec_get_mid pre (mid ++ post) x i Hi). simpl.
    replace (pre ++ x :: mid ++ post) with ((pre ++ [x]) ++ mid ++ post)
      by (rewrite <- app_assoc; reflexivity).
    rewrite IH by (rewrite length_app; simpl; lia).
    reflexivity.
Qed.

(** ** merge writes the list-level merge over the range *)

Lemma lmerge_nil_r (L : list Candidate) : lmerge L [] = L.
Proof. destruct L; reflexivity. Qed.

Lemma merge_rest_spec (X junk pre post : list Candidate) (k : Z) :
  length junk = length X ->
  k = Z.of_nat (length pre) ->
  merge_rest X (pre ++ junk ++ post) k
  = Ok (pre ++ X ++ post, k + Z.of_nat (length X)).
Proof.
  revert junk pre k. induction X as [|x X IH]; intros junk pre k Hlen Hk.
  - destruct junk; [|discriminate]. simpl. f_equal. f_equal. lia.
  - destruct junk as [|y junk]; [discriminate|]. simpl.
    rewrite (vec_set_mid pre (junk ++ post) x y k Hk). simpl.
    replace (pre ++ x :: junk ++ post) with ((pre ++ [x]) ++ junk ++ post)
      by (rewrite <- app_assoc; reflexivity).
    rewrite IH; [| simpl in Hlen; lia | rewrite length_app; simpl; lia].
    rewrite <- app_assoc. simpl. f_equal. f_equal. lia.
Qed.

Lemma merge_both_nil_l (r : Z) (R v : list Candidate) (k : Z) :
  merge_both r [] R v k = Ok (v, k, [], R).
Proof. destruct R; reflexivity. Qed.

Lemma merge_both_nil_r (r : Z) (L v : list Candidate) (k : Z) :
  merge_both r L [] v k = Ok (v, k, L, []).
Proof. destruct L; reflexivity. Qed.

Lemma merge_both_cons (r : Z) (x y : Candidate) (L R v : list Candidate) (k : Z) :
  merge_both r (x :: L) (y :: R) v k
  = if k <=? r then
      if get1 y <=? get1 x then
        v' <- vec_set v k x ;; merge_both r L (y :: R) v' (k + 1)
      else
        v' <- vec_set v k y ;; merge_both r (x :: L) R v' (k + 1)
    else Ok (v, k, x :: L, y :: R).
Proof. reflexivity. Qed.

Lemma lmerge_cons (x y : Candidate) (L R : list Candidate) :
  lmerge (x :: L) (y :: R)
  = if get1 y <=? get1 x then x :: lmerge L (y :: R) else y :: lmerge (x :: L) R.
Proof. reflexivity. Qed.

Lemma lmerge_nil_l (R : list Candidate) : lmerge [] R = R.
Proof. destruct R; reflexivity. Qed.

Lemma merge_rest_nil (v : list Candidate) (k : Z) : merge_rest [] v k = Ok (v, k).
Proof. reflexivity. Qed.

Lemma app_cons_assoc {A : Type} (pre : list A) (x : A) (rest : list A) :
  pre ++ x :: rest = (pre ++ [x]) ++ rest.
Proof. rewrite <- app_assoc. reflexivity. Qed.

Lemma merge_loops_spec (r : Z) (L : list Candidate) :
  forall (R junk pre post : list Candidate) (k : Z),
    length junk = (length L + length R)%nat ->
    k = Z.of_nat (length pre) ->
    k + Z.of_nat (length L + length R) - 1 <= r ->
    merge_loops r L R (pre ++ junk ++ post) k = Ok (pre ++ lmerge L R ++ post).
Proof.
  induction L as [|x L IHL]; intros R.
  - intros junk pre post k Hlen Hk _. unfold merge_loops.
    rewrite merge_both_nil_l. cbn [bind]. rewrite merge_rest_nil. cbn [bind].
    rewrite (merge_rest_spec R junk pre post k Hlen Hk). cbn [bind].
    rewrite lmerge_nil_l. reflexivity.
  - induction R as [|y R IHR]; intros junk pre post k Hlen Hk Hr.
    + unfold merge_loops. rewrite merge_both_nil_r. cbn [bind].
      rewrite (merge_rest_spec (x :: L) junk pre post k); [| simpl in *; lia | exact Hk].
      cbn [bind]. rewrite merge_rest_nil. cbn [bind]. rewrite lmerge_nil_r. reflexivity.
    + destruct junk as [|z junk]; [discriminate|].
      cbn [length] in Hlen, Hr.
      unfold merge_loops. rewrite merge_both_cons, lmerge_cons.
      destruct (Z.leb_spec k r) as [_|Hkr]; [| lia].
      cbn [app].
      destruct (get1 y <=? get1 x) eqn:Hcmp.
      * rewrite (vec_set_mid pre (junk ++ post) x z k Hk). cbn [bind].
        rewrite (app_cons_assoc pre x (junk ++ post)).
        fold (merge_loops r L (y :: R) ((pre ++ [x]) ++ junk ++ post) (k + 1)).
        rewrite IHL.
        -- rewrite <- app_assoc. reflexivity.
        -- cbn [length]. lia.
        -- rewrite length_app; cbn [length]; lia.
        -- cbn [length]. lia.
      * rewrite (vec_set_mid pre (junk ++ post) y z k Hk). cbn [bind].
        rewrite (app_cons_assoc pre y (junk ++ post)).
        fold (merge_loops r (x :: L) R ((pre ++ [y]) ++ junk ++ post) (k + 1)).
        rewrite IHR.
        -- rewrite <- app_assoc. reflexivity.
        -- cbn [length]. lia.
        -- rewrite length_app; cbn [length]; lia.
        -- cbn [length]. lia.
Qed.

Lemma merge_spec (pre A B post : list Candidate) (p q r : Z) :
  p = Z.of_nat (length pre) ->
  q = p + Z.of_nat (length A) - 1 ->
  r = q + Z.of_nat (length B) ->
  merge (pre ++ A ++ B ++ post) p q r = Ok (pre ++ lmerge A B ++ post).
Proof.
  intros Hp Hq Hr. unfold merge.
  destruct (Z.ltb_spec (q - p + 1) 0); [lia|].
  destruct (Z.ltb_spec (r - q) 0); [lia|]. simpl orb. cbv iota.
  replace (Z.to_nat (q - p + 1)) with (length A) by lia.
  replace (Z.to_nat (r - q)) with (length B) by lia.
  rewrite (vec_copy_mid A pre (B ++ post) p Hp). simpl bind.
  replace (pre ++ A ++ B ++ post) with ((pre ++ A) ++ B ++ post)
    by (rewrite <- app_assoc; reflexivity).
  rewrite (vec_copy_mid B (pre ++ A) post (q + 1))
    by (rewrite length_app; lia).
  simpl bind.
  replace ((pre ++ A) ++ B ++ post) with (pre ++ (A ++ B) ++ post)
    by (rewrite <- !app_assoc; reflexivity).
  apply (merge_loops_spec r A B (A ++ B) pre post p).
  - apply length_app.
  - exact Hp.
  - lia.
Qed.

(** ** The list-level merge keeps order, content and stability *)

Lemma lmerge_Forall (P : Candidate -> Prop) (L : list Candidate) :
  forall R, Forall P L -> Forall P R -> Forall P (lmerge L R).
Proof.
  induction L as [|x L IHL]; intros R HL HR.
  - rewrite lmerge_nil_l. exact HR.
  - induction R as [|y R IHR].
    + rewrite lmerge_nil_r. exact HL.
    + rewrite lmerge_cons. destruct (get1 y <=? get1 x).
      * constructor; [inversion HL; assumption|].
        apply IHL; [inversion HL; assumption | exact HR].
      * constructor; [inversion HR; assumption|].
        apply IHR. inversion HR; assumption.
Qed.

Lemma lmerge_sorted (L : list Candidate) :
  forall R, StronglySorted size_ge L -> StronglySorted size_ge R ->
            StronglySorted size_ge (lmerge L R).
Proof.
  induction L as [|x L IHL]; intros R HL HR.
  - rewrite lmerge_nil_l. exact HR.
  - induction R as [|y R IHR].
    + rewrite lmerge_nil_r. exact HL.
    + rewrite lmerge_cons.
      apply StronglySorted_inv in HL as HL'. destruct HL' as [HLs HLx].
      apply StronglySorted_inv in HR as HR'. destruct HR' as [HRs HRy].
      destruct (Z.leb_spec (get1 y) (get1 x)) as [Hyx|Hxy].
      * constructor; [apply IHL; assumption|].
        apply lmerge_Forall; [exact HLx|].
        constructor; [exact Hyx|].
        eapply Forall_impl; [|exact HRy].
        intros c Hc. unfold size_ge in *. lia.
      * constructor; [apply IHR; assumption|].
        apply lmerge_Forall; [|exact HRy].
        constructor; [unfold size_ge; lia|].
        eapply Forall_impl; [|exact HLx].
        intros c Hc. unfold size_ge in *. lia.
Qed.

Lemma lmerge_perm (L : list Candidate) :
  forall R, Permutation (L ++ R) (lmerge L R).
Proof.
  induction L as [|x L IHL]; intros R.
  - rewrite lmerge_nil_l. apply Permutation_refl.
  - induction R as [|y R IHR].
    + rewrite lmerge_nil_r, app_nil_r. apply Permutation_refl.
    + rewrite lmerge_cons. destruct (get1 y <=? get1 x).
      * cbn [app]. apply perm_skip, IHL.
      * eapply Permutation_trans; [|apply perm_skip, IHR].
        apply Permutation_sym, Permutation_middle.
Qed.

Lemma of_size_none (s : Z) (l : list Candidate) :
  Forall (fun c => get1 c <> s) l -> of_size s l = [].
Proof.
  induction 1 as [|c l Hc _ IH]; [reflexivity|].
  unfold of_size in *. cbn [filter].
  destruct (Z.eqb_spec (get1 c) s); [contradiction | exact IH].
Qed.

Lemma of_size_app (s : Z) (l1 l2 : list Candidate) :
  of_size s (l1 ++ l2) = of_size s l1 ++ of_size s l2.
Proof. apply filter_app. Qed.

Lemma of_size_cons (s : Z) (c : Candidate) (l : list Candidate) :
  of_size s (c :: l) = if get1 c =? s then c :: of_size s l else of_size s l.
Proof. reflexivity. Qed.

Lemma lmerge_stable (s : Z) (L : list Candidate) :
  forall R, StronglySorted size_ge L ->
            of_size s (lmerge L R) = of_size s L ++ of_size s R.
Proof.
  induction L as [|x L IHL]; intros R HL.
  - rewrite lmerge_nil_l. reflexivity.
  - apply StronglySorted_inv in HL as HL'. destruct HL' as [HLs HLx].
    induction R as [|y R IHR].
    + rewrite lmerge_nil_r, app_nil_r. reflexivity.
    + rewrite lmerge_cons.
      destruct (Z.leb_spec (get1 y) (get1 x)) as [Hyx|Hxy].
      * rewrite !(of_size_cons s x), IHL by exact HLs.
        destruct (get1 x =? s); reflexivity.
      * rewrite (of_size_cons s y (lmerge _ _)), IHR, (of_size_cons s y R).
        destruct (Z.eqb_spec (get1 y) s) as [Hys|Hys]; [|reflexivity].
        rewrite (of_size_none s (x :: L)); [reflexivity|].
        constructor; [lia|].
        eapply Forall_impl; [|exact HLx].
        intros c Hc. unfold size_ge in Hc. lia.
Qed.

(** ** merge_sort sorts the range it is given *)

Lemma stably_sorted_short (l : list Candidate) :
  (length l <= 1)%nat -> stably_sorted l l.
Proof.
  intros Hl. split; [|split; [apply Permutation_refl | reflexivity]].
  destruct l as [|x [|y l]]; [constructor | | simpl in Hl; lia].
  constructor; constructor.
Qed.

Lemma stably_sorted_merge (A B A' B' : list Candidate) :
  stably_sorted A A' -> stably_sorted B B' ->
  stably_sorted (A ++ B) (lmerge A' B').
Proof.
  intros (HsA & HpA & HtA) (HsB & HpB & HtB). split; [|split].
  - apply lmerge_sorted; assumption.
  - eapply Permutation_trans; [|apply lmerge_perm].
    apply Permutation_app; assumption.
  - intros s. rewrite lmerge_stable by exact HsA.
    rewrite of_size_app, HtA, HtB. reflexivity.
Qed.

Lemma merge_sort_fuel_spec (fuel : nat) :
  forall (mid pre post : list Candidate) (p r : Z),
    p = Z.of_nat (length pre) ->
    r = p + Z.of_nat (length mid) - 1 ->
    (Z.to_nat (r - p) <= fuel)%nat ->
    exists mid',
      merge_sort_fuel fuel (pre ++ mid ++ post) p r = Ok (pre ++ mid' ++ post)
      /\ stably_sorted mid mid'.
Proof.
  induction fuel as [|fuel IH]; intros mid pre post p r Hp Hr Hfuel.
  - exists mid. split; [|apply stably_sorted_short; lia].
    cbn [merge_sort_fuel]. destruct (Z.ltb_spec p r); [lia | reflexivity].
  - cbn [merge_sort_fuel]. destruct (Z.ltb_spec p r) as [Hlt|Hge].
    2:{ exists mid. split; [reflexivity | apply stably_sorted_short; lia]. }
    cbv zeta.
    assert (Hq : p <= Z.quot (p + r) 2 < r).
    { rewrite Z.quot_div_nonneg by lia.
      pose proof (Z.div_mod (p + r) 2 ltac:(lia)).
      pose proof (Z.mod_pos_bound (p + r) 2 ltac:(lia)). lia. }
    set (q := Z.quot (p + r) 2) in *.
    set (A := firstn (Z.to_nat (q - p + 1)) mid).
    set (B := skipn (Z.to_nat (q - p + 1)) mid).
    assert (HAB : mid = A ++ B) by (symmetry; apply firstn_skipn).
    assert (HlA : length A = Z.to_nat (q - p + 1)).
    { unfold A. rewrite length_firstn. lia. }
    assert (HlB : length B = Z.to_nat (r - q)).
    { unfold B. rewrite length_skipn. lia. }
    destruct (IH A pre (B ++ post) p q) as (A' & HrunA & HsA); [lia | lia | lia |].
    assert (HlA' : length A' = length A).
    { symmetry. apply Permutation_length. apply HsA. }
    destruct (IH B (pre ++ A') post (q + 1) r) as (B' & HrunB & HsB);
      [rewrite length_app; lia | lia | lia |].
    assert (HlB' : length B' = length B).
    { symmetry. apply Permutation_length. apply HsB. }
    exists (lmerge A' B'). split.
    + rewrite HAB, <- app_assoc, HrunA. cbn [bind].
      rewrite (app_assoc pre A' (B ++ post)), HrunB. cbn [bind].
      rewrite <- app_assoc.
      apply merge_spec; lia.
    + rewrite HAB. apply stably_sorted_merge; assumption.
Qed.

Lemma merge_sort_class (v : list Candidate) :
  exists v', merge_sort v 0 (size_of v - 1) = Ok v' /\ stably_sorted v v'.
Proof.
  destruct (merge_sort_fuel_spec (Z.to_nat (size_of v - 1 - 0))
              v [] [] 0 (size_of v - 1))
    as (v' & Hrun & Hs); [reflexivity | unfold size_of; lia | lia |].
  exists v'. split; [|exact Hs].
  unfold merge_sort. cbn [app] in Hrun. rewrite !app_nil_r in Hrun. exact Hrun.
Qed.

(** ** A stable sort has one result *)

Lemma of_size_In (s : Z) (c : Candidate) (l : list Candidate) :
  In c (of_size s l) <-> In c l /\ get1 c = s.
Proof.
  unfold of_size. rewrite filter_In. rewrite Z.eqb_eq. reflexivity.
Qed.

Lemma sorted_agree_head (x y : Candidate) (l1 l2 : list Candidate) :
  StronglySorted size_ge (x :: l1) ->
  (forall s, of_size s (x :: l1) = of_size s (y :: l2)) ->
  get1 y <= get1 x.
Proof.
  intros Hs Heq.
  assert (Hy : In y (of_size (get1 y) (x :: l1))).
  { rewrite Heq. apply of_size_In. split; [left; reflexivity | reflexivity]. }
  apply of_size_In in Hy as [[<-|Hin] _]; [lia|].
  apply StronglySorted_inv in Hs as [_ Hall].
  rewrite Forall_forall in Hall. exact (Hall y Hin).
Qed.

Lemma sorted_of_size_unique (l1 : list Candidate) :
  forall l2,
    StronglySorted size_ge l1 -> StronglySorted size_ge l2 ->
    (forall s, of_size s l1 = of_size s l2) ->
    l1 = l2.
Proof.
  induction l1 as [|x l1 IH]; intros l2 Hs1 Hs2 Heq.
  - destruct l2 as [|y l2]; [reflexivity|].
    specialize (Heq (get1 y)). rewrite of_size_cons, Z.eqb_refl in Heq. discriminate.
  - destruct l2 as [|y l2].
    + specialize (Heq (get1 x)). rewrite of_size_cons, Z.eqb_refl in Heq. discriminate.
    + assert (Hxy : get1 x = get1 y).
      { pose proof (sorted_agree_head x y l1 l2 Hs1 Heq).
        pose proof (sorted_agree_head y x l2 l1 Hs2 (fun s => eq_sym (Heq s))). lia. }
      assert (Hhead : x = y).
      { specialize (Heq (get1 x)). rewrite !of_size_cons in Heq.
        rewrite <- Hxy, Z.eqb_refl in Heq. inversion Heq. reflexivity. }
      subst y. f_equal.
      apply IH.
      * apply StronglySorted_inv in Hs1. apply Hs1.
      * apply StronglySorted_inv in Hs2. apply Hs2.
      * intros s. specialize (Heq s). rewrite !of_size_cons in Heq.
        destruct (get1 x =? s); [inversion Heq; reflexivity | exact Heq].
Qed.

Lemma stably_sorted_unique (v w1 w2 : list Candidate) :
  stably_sorted v w1 -> stably_sorted v w2 -> w1 = w2.
Proof.
  intros (Hs1 & _ & Ht1) (Hs2 & _ & Ht2).
  apply sorted_of_size_unique; [assumption | assumption |].
  intros s. rewrite Ht1, Ht2. reflexivity.
Qed.

(** C7: [merge_sort] over the full index range returns, and what it
    returns is the input sorted by decreasing pending-frame size (the
    second component), a permutation of it, with candidates of equal size
    in their original relative order.  It is deterministic: a function of
    the vector alone, whose result is the only arrangement of the input
    with these properties.  This is the call made on each class by
    [GetNumberAndTypeOfRus]. *)
Theorem merge_sort_stable_descending (v : list Candidate) :
  exists v',
    merge_sort v 0 (Z.of_nat (length v) - 1) = Ok v'
    /\ StronglySorted size_ge v'
    /\ Permutation v v'
    /\ (forall s : Z, of_size s v' = of_size s v)
    /\ (forall w : list Candidate, stably_sorted v w -> w = v').
Proof.
  destruct (merge_sort_class v) as (v' & Hrun & Hs).
  exists v'. split; [exact Hrun|].
  destruct Hs as (Hsorted & Hperm & Hstable).
  split; [exact Hsorted|]. split; [exact Hperm|]. split; [exact Hstable|].
  intros w Hw. apply (stably_sorted_unique v w v' Hw).
  split; [exact Hsorted|]. split; [exact Hperm | exact Hstable].
Qed.

(** ** The uplink estimate *)

Lemma queueSize_of_range (env : Env) (address : Mac48Address) :
  0 <= queueSize_of env address < 256.
Proof. unfold queueSize_of. apply Z.mod_pos_bound. lia. Qed.

Lemma ulPsduSize_range (env : Env) : 0 <= ulPsduSize env < 2 ^ 32.
Proof. unfold ulPsduSize. apply Z.mod_pos_bound. lia. Qed.


Lemma max_buffer_size_from (env : Env) (users : list (Z * RuSpec)) :
  forall acc : Z,
    0 <= acc ->
    max_buffer_size env users acc
    = if existsb (unbounded env) (still_associated env users) then 0xffffffff
      else Z.max acc (fold_right Z.max 0 (map (pending_bytes env) (still_associated env users))).
Proof.
  induction users as [|[staId ru] users IH]; intros acc Hacc.
  - cbn. lia.
  - cbn [max_buffer_size still_associated].
    destruct (map_find staId (GetStaList env)) as [address|]; [|apply IH, Hacc].
    cbn [existsb map fold_right]. unfold unbounded at 1, pending_bytes at 1.
    pose proof (queueSize_of_range env address) as Hq.
    pose proof (ulPsduSize_range env) as Hu.
    destruct (Z.eqb_spec (queueSize_of env address) 255) as [E255|N255];
      destruct (Z.eqb_spec (queueSize_of env address) 254) as [E254|N254];
      try lia; cbn [orb]; try reflexivity.
    + rewrite IH by lia.
      destruct (existsb (unbounded env) (still_associated env users)); [reflexivity | lia].
    + rewrite IH by lia. rewrite Z.mod_small by lia.
      destruct (existsb (unbounded env) (still_associated env users)); [reflexivity | lia].
Qed.

Lemma fold_max_nonneg (l : list Z) : 0 <= fold_right Z.max 0 l.
Proof. induction l; cbn; lia. Qed.

(** C3: the estimate of the uplink-reuse path is taken over the users of
    the previous downlink allocation that are still associated, the
    others being skipped; it is the unbounded maximum 0xffffffff as soon
    as one of them reports 254, whatever the others report, and else the
    largest of the minimum UL PSDU size (for a code 255) and of 256 bytes
    per unit (for any other code). *)
Theorem buffer_estimate_is_aggregate (env : Env) (m : RrOfdmaManager) :
  buffer_estimate env m
  = aggregate_estimate env (GetHeMuUserInfoMap (m_txVector m)).
Proof.
  unfold buffer_estimate, aggregate_estimate.
  rewrite max_buffer_size_from by lia.
  destruct (existsb _ _); [reflexivity|].
  pose proof (fold_max_nonneg
                (map (pending_bytes env)
                     (still_associated env (GetHeMuUserInfoMap (m_txVector m))))).
  lia.
Qed.

(** ** The downlink path *)

Lemma prepare_downlink_clears (env : Env) (m m1 : RrOfdmaManager)
  (round : list (Z * Mac48Address)) (ruType : list RuEntry) :
  prepare_downlink env m = Ok (round, ruType, m1) -> m_staInfo m1 = [].
Proof.
  unfold prepare_downlink. intros H.
  apply bind_Ok in H as ([round0 start] & _ & H).
  apply bind_Ok in H as ([ru0 data0] & _ & H).
  apply bind_Ok in H as (_ & _ & H).
  inversion H. reflexivity.
Qed.

Lemma forced_format_cases (env : Env) :
  forced_format env = DL_OFDMA
  \/ (forced_format env = NON_OFDMA /\ m_forceDlOfdma env = false).
Proof. unfold forced_format. destruct (m_forceDlOfdma env); auto. Qed.

Lemma downlink_path_format (env : Env) (m m' : RrOfdmaManager) (fmt : OfdmaTxFormat) :
  downlink_path env m = Ok (fmt, m') ->
  fmt = DL_OFDMA
  \/ (fmt = NON_OFDMA /\ m_forceDlOfdma env = false /\ m_staInfo m' = []).
Proof.
  unfold downlink_path. intros H.
  apply bind_Ok in H as ([[round ruType] m1] & Hprep & H).
  apply prepare_downlink_clears in Hprep.
  destruct (txop_exhausted env m1).
  - inversion H; subst.
    destruct (forced_format_cases env) as [->|[-> Hf]]; auto.
  - apply bind_Ok in H as ([[dataInfo staInfo] unvisited] & _ & H).
    destruct staInfo.
    + inversion H; subst. cbn.
      destruct (forced_format_cases env) as [->|[-> Hf]]; auto.
    + inversion H. auto.
Qed.

(** ** Uplink reuse with nothing to send *)

(** C2, as the code has it: when uplink reuse is attempted and the
    estimate decoded from the buffer-status reports is zero, the
    invocation is the downlink path; it never returns UL_OFDMA, and
    returns DL_OFDMA, or NON_OFDMA when no station was selected and
    ForceDlOfdma is off. *)
Theorem zero_estimate_takes_downlink_path (env : Env) (m : RrOfdmaManager) :
  uplink_reuse env = true ->
  ulPsduSize env <> 0 ->
  GetAckSequenceForUlMu env (QosUtilsMapTidToAc env (GetQosTid env))
    = UL_MULTI_STA_BLOCK_ACK ->
  buffer_estimate env m = 0 ->
  SelectTxFormat env m = downlink_path env m
  /\ forall (fmt : OfdmaTxFormat) (m' : RrOfdmaManager),
       SelectTxFormat env m = Ok (fmt, m') ->
       fmt <> UL_OFDMA
       /\ (fmt = DL_OFDMA
           \/ (fmt = NON_OFDMA /\ m_forceDlOfdma env = false /\ m_staInfo m' = [])).
Proof.
  intros Hreuse Hsize Hack Hzero.
  assert (Heq : SelectTxFormat env m = downlink_path env m).
  { unfold SelectTxFormat. rewrite Hreuse.
    destruct (Z.eqb_spec (ulPsduSize env) 0); [contradiction|].
    rewrite Hack, Hzero. reflexivity. }
  split; [exact Heq|].
  intros fmt m' Hrun. rewrite Heq in Hrun.
  apply downlink_path_format in Hrun.
  destruct Hrun as [->|(-> & Hf & Hs)]; split; auto; discriminate.
Qed.

Lemma zero_estimate_witness :
  SelectTxFormat idle_env idle_manager = downlink_path idle_env idle_manager.
Proof.
  apply (zero_estimate_takes_downlink_path idle_env idle_manager).
  - reflexivity.
  - vm_compute. discriminate.
  - reflexivity.
  - reflexivity.
Defined.

(** C2 as stated fails: with uplink reuse attempted and a zero estimate,
    an access point with nothing queued returns NON_OFDMA. *)
Lemma zero_estimate_may_return_non_ofdma :
  uplink_reuse idle_env = true
  /\ buffer_estimate idle_env idle_manager = 0
  /\ exists m', SelectTxFormat idle_env idle_manager = Ok (NON_OFDMA, m')
  /\ ~ (forall fmt m', SelectTxFormat idle_env idle_manager = Ok (fmt, m') ->
                       fmt = DL_OFDMA).
Proof.
  split; [reflexivity|]. split; [reflexivity|].
  eexists. split; [vm_compute; reflexivity|].
  intros H. specialize (H NON_OFDMA _ ltac:(vm_compute; reflexivity)).
  discriminate.
Qed.

(** ** An empty batch *)

Lemma scan_tids_no_frame (env : Env) (ruType : list RuEntry)
  (primaryAc txopLimit staId : Z) (address : Mac48Address) (tids : list Z) :
  (forall ac tid, PeekNextFrame env ac tid address = None) ->
  forall ruIt : nat,
    scan_tids env ruType primaryAc txopLimit staId address tids ruIt = Ok None.
Proof.
  intros Hnone. induction tids as [|tid tids IH]; intros ruIt; cbn [scan_tids].
  - reflexivity.
  - rewrite Hnone.
    destruct ((QosUtilsMapTidToAc env tid >=? primaryAc)
              && GetBaAgreementEstablished env (QosUtilsMapTidToAc env tid) address tid);
      apply IH.
Qed.

Lemma select_loop_none (env : Env) (ruType : list RuEntry)
  (currTid primaryAc txopLimit : Z) (round : list (Z * Mac48Address)) :
  forall (dataInfo : list Candidate) (staInfo : list (Mac48Address * DlPerStaInfo)),
    Forall (fun sta => scan_tids env ruType primaryAc txopLimit (fst sta) (snd sta)
                         (tids_from currTid) 0 = Ok None) round ->
    exists unvisited,
      select_loop env ruType currTid primaryAc txopLimit round dataInfo staInfo
      = Ok (dataInfo, staInfo, unvisited).
Proof.
  induction round as [|[staId address] round IH]; intros dataInfo staInfo Hnone.
  - exists []. reflexivity.
  - inversion Hnone as [|sta l Hhead Htail]; subst. cbn [fst snd] in Hhead.
    cbn [select_loop]. rewrite Hhead. cbn [bind].
    destruct round as [|next others]; [exists []; reflexivity|].
    destruct (size_of staInfo <? m_nStations env mod 256).
    + apply IH, Htail.
    + eexists. reflexivity.
Qed.

(** C9: on the downlink path, when the remaining TXOP time is negative
    once the response time is subtracted, or when the selection of
    stations ends with an empty batch, the invocation returns normally:
    DL_OFDMA when ForceDlOfdma is on and NON_OFDMA when it is off, with
    no receiver station in either case.  The selection does end with an
    empty batch when no station has a frame that passes the tests, in
    particular when nothing is queued. *)
Theorem empty_batch_is_not_an_error (env : Env) (m m1 : RrOfdmaManager)
  (round : list (Z * Mac48Address)) (ruType : list RuEntry) :
  prepare_downlink env m = Ok (round, ruType, m1) ->
  (txop_exhausted env m1 = true ->
   downlink_path env m
   = Ok (if m_forceDlOfdma env then DL_OFDMA else NON_OFDMA, m1)
   /\ m_staInfo m1 = [])
  /\ (txop_exhausted env m1 = false ->
      forall dataInfo unvisited,
        select_stations env ruType round m1 = Ok (dataInfo, [], unvisited) ->
        exists m',
          downlink_path env m
          = Ok (if m_forceDlOfdma env then DL_OFDMA else NON_OFDMA, m')
          /\ m_staInfo m' = [])
  /\ (txop_exhausted env m1 = false ->
      Forall (fun sta => scan_tids env ruType (primary_ac env) (txop_limit env m1)
                           (fst sta) (snd sta) (tids_from (GetQosTid env)) 0
                         = Ok None) round ->
      exists m',
        downlink_path env m
        = Ok (if m_forceDlOfdma env then DL_OFDMA else NON_OFDMA, m')
        /\ m_staInfo m' = [])
  /\ ((forall ac tid address, PeekNextFrame env ac tid address = None) ->
      exists m',
        downlink_path env m
        = Ok (if m_forceDlOfdma env then DL_OFDMA else NON_OFDMA, m')
        /\ m_staInfo m' = []).
Proof.
  intros Hprep.
  pose proof (prepare_downlink_clears env m m1 _ _ Hprep) as Hclear.
  assert (Hneg : txop_exhausted env m1 = true ->
                 downlink_path env m
                 = Ok (if m_forceDlOfdma env then DL_OFDMA else NON_OFDMA, m1)
                 /\ m_staInfo m1 = []).
  { intros Hneg. split; [|exact Hclear].
    unfold downlink_path. rewrite Hprep. cbn [bind]. rewrite Hneg. reflexivity. }
  assert (Hsel : txop_exhausted env m1 = false ->
                 forall dataInfo unvisited,
                   select_stations env ruType round m1 = Ok (dataInfo, [], unvisited) ->
                   exists m',
                     downlink_path env m
                     = Ok (if m_forceDlOfdma env then DL_OFDMA else NON_OFDMA, m')
                     /\ m_staInfo m' = []).
  { intros Hpos dataInfo unvisited Hsel.
    eexists. split.
    - unfold downlink_path. rewrite Hprep. cbn [bind]. rewrite Hpos, Hsel.
      cbn [bind]. reflexivity.
    - reflexivity. }
  assert (Hall : txop_exhausted env m1 = false ->
                 Forall (fun sta => scan_tids env ruType (primary_ac env)
                                      (txop_limit env m1) (fst sta) (snd sta)
                                      (tids_from (GetQosTid env)) 0 = Ok None) round ->
                 exists m',
                   downlink_path env m
                   = Ok (if m_forceDlOfdma env then DL_OFDMA else NON_OFDMA, m')
                   /\ m_staInfo m' = []).
  { intros Hpos Hnone.
    destruct (select_loop_none env ruType (GetQosTid env) (primary_ac env)
                (txop_limit env m1) round (m_dataInfo m1) (m_staInfo m1) Hnone)
      as (unvisited & Hrun).
    rewrite Hclear in Hrun.
    apply (Hsel Hpos (m_dataInfo m1) unvisited).
    unfold select_stations. rewrite Hclear. exact Hrun. }
  split; [exact Hneg|]. split; [exact Hsel|]. split; [exact Hall|].
  intros Hidle.
  destruct (txop_exhausted env m1) eqn:Htxop.
  - exists m1. apply Hneg. reflexivity.
  - apply Hall; [reflexivity|].
    apply Forall_forall. intros [staId address] _.
    apply scan_tids_no_frame. intros ac tid. apply Hidle.
Qed.

Lemma empty_batch_witness :
  (exists m',
     downlink_path idle_env idle_manager = Ok (NON_OFDMA, m') /\ m_staInfo m' = [])
  /\ (exists m1,
        downlink_path short_txop_env fresh_manager = Ok (DL_OFDMA, m1)
        /\ m_staInfo m1 = []).
Proof.
  split.
  - refine (proj1 (proj2 (empty_batch_is_not_an_error idle_env idle_manager
                     (mkRrOfdmaManager 1 [] []
                        (mkWifiTxVector [(1, mkRuSpec false RU_52_TONE 1)] 0))
                     [(1, 101)]
                     [(RU_52_TONE, 1); (RU_52_TONE, 2); (RU_52_TONE, 3); (RU_52_TONE, 4)]
                     _)) _ [] [] _).
    + vm_compute. reflexivity.
    + reflexivity.
    + vm_compute. reflexivity.
  - eexists.
    refine (proj1 (empty_batch_is_not_an_error short_txop_env fresh_manager
                     (mkRrOfdmaManager 1 [] []
                        (mkWifiTxVector [(1, mkRuSpec false RU_52_TONE 1)] 0))
                     [(1, 101)]
                     [(RU_52_TONE, 1); (RU_52_TONE, 2); (RU_52_TONE, 3); (RU_52_TONE, 4)]
                     _) _).
    + vm_compute. reflexivity.
    + reflexivity.
Defined.

(** ** The iterator over the tentative RU list *)

Lemma scan_tids_past_end (env : Env) (ruType : list RuEntry)
  (primaryAc txopLimit staId : Z) (address : Mac48Address)
  (tid size : Z) (post : list Z) :
  forall (pre : list Z) (ruIt : nat),
    scan_tids env ruType primaryAc txopLimit staId address pre ruIt = Ok None ->
    (QosUtilsMapTidToAc env tid >=? primaryAc)
      && GetBaAgreementEstablished env (QosUtilsMapTidToAc env tid) address tid = true ->
    PeekNextFrame env (QosUtilsMapTidToAc env tid) tid address = Some size ->
    (length ruType <= ruIt + length pre)%nat ->
    scan_tids env ruType primaryAc txopLimit staId address (pre ++ tid :: post) ruIt
    = Fault BadAccess.
Proof.
  induction pre as [|t pre IH]; intros ruIt Hpre Hcond Hpeek Hlen.
  - cbn [app scan_tids]. rewrite Hcond, Hpeek.
    cbn [length] in Hlen.
    destruct (nth_error ruType ruIt) eqn:Hnth; [|reflexivity].
    assert (nth_error ruType ruIt <> None) as Hn by (rewrite Hnth; discriminate).
    apply nth_error_Some in Hn. lia.
  - cbn [app scan_tids] in *.
    destruct ((QosUtilsMapTidToAc env t >=? primaryAc)
              && GetBaAgreementEstablished env (QosUtilsMapTidToAc env t) address t).
    + destruct (PeekNextFrame env (QosUtilsMapTidToAc env t) t address).
      * destruct (nth_error ruType ruIt) as [[ty i]|]; [|discriminate].
        destruct (IsWithinSizeAndTimeLimits env z staId ty txopLimit); [discriminate|].
        apply IH; auto. cbn [length] in Hlen. lia.
      * apply IH; auto. cbn [length] in Hlen. lia.
    + apply IH; auto. cbn [length] in Hlen. lia.
Qed.

Lemma select_loop_skips (env : Env) (ruType : list RuEntry)
  (currTid primaryAc txopLimit : Z) (visited : list (Z * Mac48Address)) :
  forall (rest : list (Z * Mac48Address)) (dataInfo : list Candidate)
         (staInfo : list (Mac48Address * DlPerStaInfo)),
    Forall (fun sta => scan_tids env ruType primaryAc txopLimit (fst sta) (snd sta)
                         (tids_from currTid) 0 = Ok None) visited ->
    rest <> [] ->
    size_of staInfo < m_nStations env mod 256 ->
    select_loop env ruType currTid primaryAc txopLimit (visited ++ rest) dataInfo staInfo
    = select_loop env ruType currTid primaryAc txopLimit rest dataInfo staInfo.
Proof.
  induction visited as [|[staId address] visited IH];
    intros rest dataInfo staInfo Hnone Hrest Hsize.
  - reflexivity.
  - inversion Hnone as [|sta l Hhead Htail]; subst. cbn [fst snd] in Hhead.
    cbn [app select_loop]. rewrite Hhead. cbn [bind].
    destruct (visited ++ rest) as [|next others] eqn:Happ.
    + apply app_eq_nil in Happ as [_ ->]. contradiction.
    + rewrite <- Happ.
      destruct (Z.ltb_spec (size_of staInfo) (m_nStations env mod 256)); [|lia].
      apply IH; assumption.
Qed.

Lemma prepare_downlink_count (env : Env) (m m1 : RrOfdmaManager)
  (round : list (Z * Mac48Address)) (ruType : list RuEntry) :
  prepare_downlink env m = Ok (round, ruType, m1) ->
  1 <= m_nStations env mod 256.
Proof.
  unfold prepare_downlink. intros H.
  apply bind_Ok in H as ([round0 start] & _ & H).
  apply bind_Ok in H as ([ru0 data0] & _ & H).
  apply bind_Ok in H as (u & Hassert & _).
  unfold ns_assert in Hassert.
  destruct (Z.geb_spec (m_nStations env mod 256) 1); [lia | discriminate].
Qed.

(** C10: the iterator over the tentative RU list advances once per TID
    examined and is never compared with the end of the list.  For every
    station for which a frame is found at a TID after more TIDs were
    examined than the list has entries, the tentative RU assignment reads
    past the end of the list: the lookup of the model has no entry there
    and the scan of the station ends in that access; so does the
    invocation when the stations visited before had no frame to offer. *)
Theorem tentative_ru_read_past_end (env : Env) (ruType : list RuEntry)
  (txopLimit staId : Z) (address : Mac48Address)
  (pre post : list Z) (tid size : Z) :
  tids_from (GetQosTid env) = pre ++ tid :: post ->
  scan_tids env ruType (primary_ac env) txopLimit staId address pre 0 = Ok None ->
  (QosUtilsMapTidToAc env tid >=? primary_ac env)
    && GetBaAgreementEstablished env (QosUtilsMapTidToAc env tid) address tid = true ->
  PeekNextFrame env (QosUtilsMapTidToAc env tid) tid address = Some size ->
  (length ruType < length pre + 1)%nat ->
  nth_error ruType (length pre) = None
  /\ scan_tids env ruType (primary_ac env) txopLimit staId address
       (tids_from (GetQosTid env)) 0 = Fault BadAccess
  /\ forall (m m1 : RrOfdmaManager) (visited rest : list (Z * Mac48Address)),
       uplink_reuse env = false ->
       prepare_downlink env m = Ok (visited ++ (staId, address) :: rest, ruType, m1) ->
       txop_exhausted env m1 = false ->
       txop_limit env m1 = txopLimit ->
       Forall (fun sta => scan_tids env ruType (primary_ac env) txopLimit
                            (fst sta) (snd sta) (tids_from (GetQosTid env)) 0
                          = Ok None) visited ->
       SelectTxFormat env m = Fault BadAccess.
Proof.
  intros Htids Hpre Hcond Hpeek Hlen.
  assert (Hscan : scan_tids env ruType (primary_ac env) txopLimit staId address
                    (tids_from (GetQosTid env)) 0 = Fault BadAccess).
  { rewrite Htids.
    apply (scan_tids_past_end env ruType (primary_ac env) txopLimit
             staId address tid size post pre 0 Hpre Hcond Hpeek). lia. }
  split; [apply nth_error_None; lia|]. split; [exact Hscan|].
  intros m m1 visited rest Hreuse Hprep Htxop Hlimit Hvisited.
  unfold SelectTxFormat. rewrite Hreuse.
  unfold downlink_path. rewrite Hprep. cbn [bind]. rewrite Htxop.
  unfold select_stations. rewrite Hlimit.
  rewrite (prepare_downlink_clears env m m1 _ _ Hprep).
  rewrite select_loop_skips;
    [| exact Hvisited | discriminate
     | pose proof (prepare_downlink_count env m m1 _ _ Hprep);
       unfold size_of; cbn [length]; lia].
  cbn [select_loop]. rewrite Hscan. reflexivity.
Qed.

Lemma tentative_ru_read_past_end_witness :
  nth_error [(RU_242_TONE, 1)] 1 = None
  /\ SelectTxFormat late_tid_env fresh_manager = Fault BadAccess.
Proof.
  destruct (tentative_ru_read_past_end late_tid_env [(RU_242_TONE, 1)] 0 1 101
              [0] [2; 0; 3; 4; 5; 6; 7] 1 100) as (Hnth & _ & Hrun).
  - reflexivity.
  - reflexivity.
  - reflexivity.
  - reflexivity.
  - cbn. lia.
  - split; [exact Hnth|].
    apply (Hrun fresh_manager
             (mkRrOfdmaManager 1 [] []
                (mkWifiTxVector [(1, mkRuSpec false RU_242_TONE 1)] 0))
             [] []).
    + reflexivity.
    + vm_compute. reflexivity.
    + reflexivity.
    + reflexivity.
    + constructor.
Defined.

(** ** ComputeDlOfdmaInfo on a 160 MHz channel *)

Lemma map_insert_length {V : Type} (k : Z) (v : V) (m : list (Z * V)) :
  (length (map_insert k v m) <= S (length m))%nat.
Proof.
  induction m as [|[k' v'] m IH]; cbn [map_insert length]; [lia|].
  destruct (k <? k'); [cbn [length]; lia|].
  destruct (k =? k'); cbn [length]; lia.
Qed.

Lemma collect_receivers_length (n : nat) :
  forall staInfoIt receivers receivers' staInfoIt',
    collect_receivers n staInfoIt receivers = Ok (receivers', staInfoIt') ->
    (length receivers' <= length receivers + n)%nat.
Proof.
  induction n as [|n IH]; intros it rc rc' it' H; cbn [collect_receivers] in H.
  - inversion H; subst. lia.
  - destruct it as [|c it]; [discriminate|].
    apply IH in H. eapply Nat.le_trans; [exact H|].
    apply (Nat.le_trans _ (S (length rc) + n)); [|lia].
    apply Nat.add_le_mono_r. exact (map_insert_length (get0 c) (get2 c) rc).
Qed.

Lemma collect_receivers_fault (n : nat) :
  forall staInfoIt receivers f,
    collect_receivers n staInfoIt receivers = Fault f -> f = AssertFailed.
Proof.
  induction n as [|n IH]; intros it rc f H; cbn [collect_receivers] in H.
  - discriminate.
  - destruct it as [|c it]; [inversion H; reflexivity|].
    eapply IH; exact H.
Qed.

Lemma assign_rus_fault (primary : bool) (n : nat) :
  forall mapIt ruIt users f,
    (length mapIt <= length ruIt)%nat ->
    assign_rus primary n mapIt ruIt users = Fault f -> f = AssertFailed.
Proof.
  induction n as [|n IH]; intros mapIt ruIt users f Hlen H; cbn [assign_rus] in H.
  - discriminate.
  - destruct mapIt as [|[a info] mapIt]; [inversion H; reflexivity|].
    destruct ruIt as [|[t i] ruIt]; [cbn in Hlen; lia|].
    eapply IH; [|exact H]. cbn in Hlen. lia.
Qed.

Lemma assign_rus_consumes (primary : bool) (n : nat) :
  forall mapIt ruIt users mapIt' ruIt' users',
    assign_rus primary n mapIt ruIt users = Ok (mapIt', ruIt', users') ->
    (length mapIt = n + length mapIt')%nat.
Proof.
  induction n as [|n IH]; intros mapIt ruIt users mapIt' ruIt' users' H;
    cbn [assign_rus] in H.
  - inversion H; subst. reflexivity.
  - destruct mapIt as [|[a info] mapIt]; [discriminate|].
    destruct ruIt as [|[t i] ruIt]; [discriminate|].
    apply IH in H. cbn [length]. lia.
Qed.

Lemma assign_halves_160 (n : nat) (mapIt : list (Mac48Address * DlPerStaInfo))
  (ruIt : list RuEntry) (users : list (Z * RuSpec)) :
  (1 <= n)%nat ->
  (length mapIt <= n)%nat ->
  (length mapIt <= length ruIt)%nat ->
  assign_halves [true; false] n mapIt ruIt users = Fault AssertFailed.
Proof.
  intros Hn Hmap Hru. cbn [assign_halves].
  destruct (assign_rus true n mapIt ruIt users) as [[[mapIt' ruIt'] users']|f] eqn:Hfirst.
  - cbn [bind]. apply assign_rus_consumes in Hfirst.
    assert (mapIt' = []) as -> by (destruct mapIt'; [reflexivity | cbn in Hfirst; lia]).
    destruct n as [|n]; [lia|]. reflexivity.
  - cbn [bind]. apply assign_rus_fault in Hfirst; [|exact Hru]. rewrite Hfirst. reflexivity.
Qed.

(** Were a batch to reach the finalizer on a 160 MHz channel with at
    least one RU entry from the packer, the loop over the two 80 MHz halves
    would run the RU sequence and the receiver map a second time without
    going back to their beginning, and the assertion that the receiver map
    is not exhausted would fail. *)
Lemma secondary_half_runs_past_the_end (env : Env) (m : RrOfdmaManager)
  (ruAssigned : list RuEntry) (dataInfo : list Candidate) :
  GetChannelWidth env = 160 ->
  m_staInfo m <> [] ->
  GetNumberAndTypeOfRus (heRuSubcarrierGroups env) (onoff1 env) (bulksend1 env)
    (http1 env) 160 (size_of (m_dataInfo m)) (m_dataInfo m)
    = Ok (ruAssigned, dataInfo) ->
  ruAssigned <> [] ->
  ComputeDlOfdmaInfo env m = Fault AssertFailed.
Proof.
  intros Hbw Hsta Hru Hne. unfold ComputeDlOfdmaInfo.
  destruct (m_staInfo m) as [|s0 srest]; [contradiction|].
  rewrite Hbw, Hru. cbn [bind].
  destruct (collect_receivers (length ruAssigned) dataInfo [])
    as [[receivers staInfoIt]|f] eqn:Hcol.
  2:{ apply collect_receivers_fault in Hcol. rewrite Hcol. reflexivity. }
  cbn [bind].
  apply collect_receivers_length in Hcol. cbn [length] in Hcol.
  match goal with
  | |- bind ?s _ = _ => destruct s as [start|f] eqn:Hstart
  end.
  2:{ destruct (Z.of_nat (length ruAssigned) <? size_of dataInfo); [|discriminate].
      destruct staInfoIt; [inversion Hstart; reflexivity | discriminate]. }
  cbn [bind]. change (160 =? 160) with true. cbv iota.
  rewrite assign_halves_160; [reflexivity | | lia | lia].
  destruct ruAssigned; [contradiction | cbn; lia].
Qed.

Lemma secondary_half_witness :
  ComputeDlOfdmaInfo wide_env wide_manager = Fault AssertFailed.
Proof.
  apply (secondary_half_runs_past_the_end wide_env wide_manager
           [(RU_106_TONE, 1); (RU_52_TONE, 3)]
           [(201, 100, mkDlPerStaInfo 1 0); (202, 100, mkDlPerStaInfo 2 0)]).
  - reflexivity.
  - discriminate.
  - vm_compute. reflexivity.
  - discriminate.
Defined.

(** On the 802.11ax table itself no decision is taken at 160 MHz: the
    tentative RU list is counted under a key the table does not have. *)
Lemma wide_decision_throws_11ax :
  SelectTxFormat wide_env fresh_manager = Fault OutOfRange.
Proof. vm_compute. reflexivity. Qed.

(** The receivers are visited in the order of their addresses, not in
    that of the reordered batch: on 20 MHz the packer puts the bulksend
    candidate (AID 2) first, with the 106-tone unit, and the onoff
    candidate (AID 1) second, with the 26-tone unit of index 5, and the
    finalizer gives AID 1 the 106-tone unit. *)
Lemma receivers_follow_addresses :
  exists m info m',
    SelectTxFormat two_class_env fresh_manager = Ok (DL_OFDMA, m)
    /\ GetNumberAndTypeOfRus heRuSubcarrierGroups_11ax [101] [201] [] 20 2 (m_dataInfo m)
       = Ok ([(RU_106_TONE, 1); (RU_26_TONE, 5)],
             [(201, 100, mkDlPerStaInfo 2 0); (101, 100, mkDlPerStaInfo 1 0)])
    /\ ComputeDlOfdmaInfo two_class_env m = Ok (info, m')
    /\ GetHeMuUserInfoMap (txVector info)
       = [(1, mkRuSpec true RU_106_TONE 1); (2, mkRuSpec true RU_26_TONE 5)].
Proof.
  eexists. eexists. eexists.
  split; [vm_compute; reflexivity|].
  split; [vm_compute; reflexivity|].
  split; [vm_compute; reflexivity|].
  reflexivity.
Qed.

(** ** The number of RU entries *)

(** C1, at the inputs where the code departs from it.  With seven onoff,
    one bulksend and two http candidates the mixed branch returns ten
    entries whatever the table, the bandwidth and the number of stations
    asked for, the last two being 26-tone units of index 10 and 11, while
    a 20 MHz channel has nine RU slots at most; and with eight onoff and
    eight bulksend candidates on 40 MHz the overflow branch returns 18
    entries for the 16 stations of the batch. *)
Theorem ru_entries_exceed_slots_and_stations :
  (forall (groups : RuTable) (bandwidth nStations : Z),
     exists ruAssigned dataInfo,
       GetNumberAndTypeOfRus groups (addresses 100 7) (addresses 200 1)
         (addresses 300 2) bandwidth nStations crowded_batch
       = Ok (ruAssigned, dataInfo)
       /\ length ruAssigned = 10%nat
       /\ length dataInfo = 10%nat
       /\ In (RU_26_TONE, 10) ruAssigned /\ In (RU_26_TONE, 11) ruAssigned)
  /\ slot_capacity heRuSubcarrierGroups_11ax 20 = 9
  /\ (exists ruAssigned dataInfo,
        GetNumberAndTypeOfRus heRuSubcarrierGroups_11ax (addresses 100 8)
          (addresses 200 8) [] 40 16 overflow_batch
        = Ok (ruAssigned, dataInfo)
        /\ length ruAssigned = 18%nat
        /\ length dataInfo = 16%nat).
Proof.
  split; [|split].
  - intros groups bandwidth nStations. eexists. eexists.
    split; [vm_compute; reflexivity|].
    cbn. repeat split; auto 20.
  - reflexivity.
  - eexists. eexists. split; [vm_compute; reflexivity|]. split; reflexivity.
Qed.

(** ** The reservation of the mixed branch *)

Lemma reserve_units_spec (fuel : nat) (t : Z) :
  0 < t ->
  forall a size allocated : Z,
    a <= Z.of_nat fuel ->
    exists k : Z,
      0 <= k
      /\ reserve_units fuel t a size allocated = Ok (a - k * t, size - k, allocated + k)
      /\ (k = 0 \/ (k * t <= a /\ k <= size))
      /\ (a - k * t < t \/ size - k <= 0).
Proof.
  intros Ht.
  assert (Hstay : forall a size allocated : Z,
             Ok (a, size, allocated)
             = Ok (A := Z * Z * Z) (a - 0 * t, size - 0, allocated + 0)).
  { intros. f_equal. f_equal; [f_equal|]; lia. }
  induction fuel as [|fuel IH]; intros a size allocated Hfuel.
  - exists 0. cbn [reserve_units].
    destruct (Z.geb_spec a t); [lia|]. cbn [andb].
    split; [lia|]. split; [apply Hstay|]. split; [left; reflexivity | left; lia].
  - cbn [reserve_units].
    destruct (Z.geb_spec a t) as [Hat|Hat].
    + destruct (Z.gtb_spec size 0) as [Hs|Hs]; cbn [andb].
      * destruct (IH (a - t) (size - 1) (allocated + 1)) as (k & Hk & Hrun & Hle & Hstop);
          [lia|].
        exists (k + 1). rewrite Hrun.
        replace ((k + 1) * t) with (k * t + t) by ring.
        split; [lia|]. split; [f_equal; f_equal; [f_equal|]; lia|].
        split; [right; destruct Hle as [->|[H1 H2]]; lia | lia].
      * exists 0. split; [lia|]. split; [apply Hstay|].
        split; [left; reflexivity | right; lia].
    + exists 0. cbn [andb]. split; [lia|]. split; [apply Hstay|].
      split; [left; reflexivity | left; lia].
Qed.

Lemma reserve_spec (size2 size3 size4 : Z) :
  0 <= size2 <= 7 -> 1 <= size3 -> 0 <= size4 ->
  exists a106 a52 k26,
    reserve size2 size3 size4 = Ok (mkReserved a106 a52 (size2 + k26))
    /\ 0 <= k26 <= size4
    /\ ((size2 <= 5 /\ a106 = 1 /\ 0 <= a52 /\ a52 + 1 <= size3)
        \/ (6 <= size2 /\ a106 = 0 /\ a52 = 1)).
Proof.
  intros H2 H3 H4. unfold reserve, initial_budget.
  destruct (Z.geb_spec (242 - 26 * size2) 106) as [Ha|Ha];
    (destruct (Z.gtb_spec size3 0) as [Hs|Hs]; [|lia]); cbn [andb].
  - destruct (reserve_units_spec (Z.to_nat (242 - 26 * size2 - 106)) 52 ltac:(lia)
                (242 - 26 * size2 - 106) (size3 - 1) 0 ltac:(lia))
      as (k52 & Hk52 & Hrun52 & Hle52 & Hstop52).
    rewrite Hrun52. cbn [bind].
    destruct (reserve_units_spec (Z.to_nat (242 - 26 * size2 - 106 - k52 * 52)) 26
                ltac:(lia) (242 - 26 * size2 - 106 - k52 * 52) size4 size2 ltac:(lia))
      as (k26 & Hk26 & Hrun26 & Hle26 & Hstop26).
    rewrite Hrun26. cbn [bind].
    exists 1, k52, k26.
    split; [f_equal; f_equal; lia|]. split; [lia|]. left. lia.
  - destruct (reserve_units_spec (Z.to_nat (242 - 26 * size2)) 52 ltac:(lia)
                (242 - 26 * size2) size3 0 ltac:(lia))
      as (k52 & Hk52 & Hrun52 & Hle52 & Hstop52).
    rewrite Hrun52. cbn [bind].
    destruct (reserve_units_spec (Z.to_nat (242 - 26 * size2 - k52 * 52)) 26
                ltac:(lia) (242 - 26 * size2 - k52 * 52) size4 size2 ltac:(lia))
      as (k26 & Hk26 & Hrun26 & Hle26 & Hstop26).
    rewrite Hrun26. cbn [bind].
    exists 0, k52, k26.
    split; [f_equal; f_equal; lia|]. split; [lia|]. right. lia.
Qed.

(** ** The assignment to the first member *)

Lemma size_of_cons {A : Type} (x : A) (l : list A) : size_of (x :: l) = size_of l + 1.
Proof. unfold size_of. cbn [length]. lia. Qed.

Lemma size_of_nonneg {A : Type} (l : list A) : 0 <= size_of l.
Proof. unfold size_of. lia. Qed.

Lemma give_26_step (fuel : nat) (t : RuType) (cnt size idx : Z) (c : Candidate)
  (it dataInfo : list Candidate) (ruAssigned : list RuEntry) :
  0 < size -> 0 < cnt ->
  give_26 (S fuel) t cnt size (c :: it) idx dataInfo ruAssigned
  = give_26 fuel t (cnt - 1) (size - 1) it (idx + 1)
      (dataInfo ++ [c]) (ruAssigned ++ [(t, idx)]).
Proof.
  intros Hs Hc. cbn [give_26].
  destruct (Z.gtb_spec size 0); [|lia]. destruct (Z.gtb_spec cnt 0); [|lia].
  reflexivity.
Qed.

Lemma give_26_stop (fuel : nat) (t : RuType) (cnt size idx : Z)
  (it dataInfo : list Candidate) (ruAssigned : list RuEntry) :
  size <= 0 \/ cnt <= 0 ->
  give_26 fuel t cnt size it idx dataInfo ruAssigned
  = Ok (cnt, size, it, idx, dataInfo, ruAssigned).
Proof.
  intros H. destruct fuel; cbn [give_26];
    destruct (Z.gtb_spec size 0); destruct (Z.gtb_spec cnt 0);
    cbn [andb]; try reflexivity; lia.
Qed.

Lemma mixed_branch_unfold (onoff bulksend http : list Candidate) :
  mixed_branch onoff bulksend http
  = (alloc <- reserve (size_of onoff) (size_of bulksend) (size_of http) ;;
     e <- first_member RU_106_TONE RU_52_TONE RU_26_TONE alloc onoff bulksend http ;;
     e <- odd_26 RU_26_TONE e ;;
     remaining_units RU_52_TONE RU_26_TONE e).
Proof. reflexivity. Qed.

Ltac emission_fields :=
  cbn [e_size2 e_size3 e_size4 e_allocated52 e_allocated26
       staInfoIt1 staInfoIt2 staInfoIt3 e_dataInfo e_ruAssigned
       allocated106 allocated52 allocated26 length app] in *.

Lemma first_member_spec (onoff bulksend http : list Candidate) :
  size_of onoff <= 7 ->
  bulksend <> [] ->
  exists (a106 a52 k26 : Z) (e : Emission),
    reserve (size_of onoff) (size_of bulksend) (size_of http)
      = Ok (mkReserved a106 a52 (size_of onoff + k26))
    /\ 0 <= k26 <= size_of http
    /\ first_member RU_106_TONE RU_52_TONE RU_26_TONE
         (mkReserved a106 a52 (size_of onoff + k26)) onoff bulksend http = Ok e
    /\ e_allocated26 e = size_of onoff + k26
    /\ mixed_inv onoff bulksend http e
    /\ (staInfoIt1 e = [] -> size_of onoff = 0)
    /\ staInfoIt3 e = http.
Proof.
  intros H7 Hbulk.
  destruct bulksend as [|b bulk]; [contradiction|].
  pose proof (size_of_nonneg onoff) as Hon.
  pose proof (size_of_nonneg bulk) as Hbk.
  pose proof (size_of_nonneg http) as Hht.
  destruct (reserve_spec (size_of onoff) (size_of (b :: bulk)) (size_of http))
    as (a106 & a52 & k26 & Hres & Hk26 & Hcase);
    [lia | rewrite size_of_cons; lia | lia |].
  exists a106, a52, k26.
  destruct Hcase as [(H5 & -> & Ha52 & Ha52')|(H6 & -> & ->)].
  - (* a 106-tone unit was reserved *)
    eexists. split; [exact Hres|]. split; [exact Hk26|].
    split; [reflexivity|]. split; [reflexivity|].
    split; [|split; [cbn; intros ->; reflexivity | reflexivity]].
    unfold mixed_inv. emission_fields.
    rewrite size_of_cons in *.
    repeat split; lia.
  - (* a 52-tone unit and two 26-tone units of index 3 and 4 *)
    destruct onoff as [|c1 [|c2 rest]];
      [unfold size_of in H6; cbn in H6; lia
      | unfold size_of in H6; cbn in H6; lia |].
    assert (Hrest : 4 <= size_of rest) by (rewrite !size_of_cons in H6; lia).
    exists (mkEmission 0 (size_of (c1 :: c2 :: rest) + k26)
              (size_of (c1 :: c2 :: rest) - 1 - 1)
              (size_of (b :: bulk) - 1) (size_of http)
              rest bulk http
              [b; c1; c2]
              [(RU_52_TONE, 1); (RU_26_TONE, 3); (RU_26_TONE, 4)]).
    split; [exact Hres|]. split; [exact Hk26|].
    split.
    { unfold first_member. cbn [allocated106 allocated52 allocated26 take_next bind].
      change (0 >? 0) with false. cbv iota.
      change (Z.to_nat 2) with 2%nat.
      rewrite give_26_step by (rewrite ?size_of_cons; lia).
      rewrite give_26_step by (rewrite ?size_of_cons; lia).
      rewrite give_26_stop by lia. cbn [bind].
      rewrite give_26_stop by lia. cbn [bind].
      reflexivity. }
    split; [reflexivity|].
    split; [|split; [|reflexivity]].
    + unfold mixed_inv. emission_fields.
      rewrite !size_of_cons in *.
      repeat split; lia.
    + cbn. intros ->. unfold size_of in Hrest. cbn in Hrest. lia.
Qed.

(** ** The 26-tone unit of index 5 *)

Lemma rem2_odd_nonneg (x : Z) : 0 <= x -> Z.rem x 2 = Z.b2z (Z.odd x).
Proof.
  intros Hx. rewrite Z.rem_mod_nonneg by lia.
  rewrite <- Z.bit0_odd. symmetry. apply Z.bit0_mod.
Qed.

Lemma rem2_odd (x : Z) : negb (Z.rem x 2 =? 0) = Z.odd x.
Proof.
  destruct (Z.le_gt_cases 0 x) as [Hx|Hx].
  - rewrite rem2_odd_nonneg by exact Hx. destruct (Z.odd x); reflexivity.
  - replace x with (- - x) by lia.
    rewrite Z.rem_opp_l by lia. rewrite Z.odd_opp.
    rewrite rem2_odd_nonneg by lia. destruct (Z.odd (- x)); reflexivity.
Qed.

Lemma odd_pred_even (x : Z) : Z.odd x = true -> Z.even (x - 1) = true.
Proof.
  intros H. rewrite Z.even_sub. rewrite <- Z.negb_odd, H. reflexivity.
Qed.

Lemma odd_26_even (e : Emission) :
  Z.odd (e_allocated26 e) = false -> odd_26 RU_26_TONE e = Ok e.
Proof. intros H. unfold odd_26. rewrite rem2_odd, H. reflexivity. Qed.

Lemma odd_26_odd (e : Emission) :
  e_size2 e = size_of (staInfoIt1 e) ->
  (staInfoIt1 e = [] -> staInfoIt3 e <> []) ->
  Z.odd (e_allocated26 e) = true ->
  exists c e',
    odd_26 RU_26_TONE e = Ok e'
    /\ e_ruAssigned e' = e_ruAssigned e ++ [(RU_26_TONE, 5)]
    /\ e_dataInfo e' = e_dataInfo e ++ [c]
    /\ match staInfoIt1 e with
       | c1 :: it1 =>
           c = c1 /\ staInfoIt1 e' = it1 /\ staInfoIt3 e' = staInfoIt3 e
           /\ e_size2 e' = e_size2 e - 1 /\ e_size4 e' = e_size4 e
       | [] =>
           staInfoIt3 e = c :: staInfoIt3 e' /\ staInfoIt1 e' = []
           /\ e_size2 e' = e_size2 e /\ e_size4 e' = e_size4 e - 1
       end
    /\ staInfoIt2 e' = staInfoIt2 e
    /\ e_size3 e' = e_size3 e
    /\ e_allocated52 e' = e_allocated52 e
    /\ e_allocated26 e' = e_allocated26 e - 1
    /\ Z.even (e_allocated26 e') = true.
Proof.
  intros Hs2 Hhttp Hisodd. unfold odd_26. rewrite rem2_odd, Hisodd.
  destruct (staInfoIt1 e) as [|c1 it1] eqn:Hit1.
  - rewrite Hs2. change (size_of (@nil Candidate) >? 0) with false. cbv iota.
    destruct (staInfoIt3 e) as [|c3 it3] eqn:Hit3; [exfalso; apply Hhttp; auto|].
    exists c3. eexists. cbn [take_next bind]. split; [reflexivity|].
    emission_fields. repeat split; auto. apply odd_pred_even, Hisodd.
  - rewrite Hs2, size_of_cons.
    destruct (Z.gtb_spec (size_of it1 + 1) 0) as [_|Hneg];
      [|pose proof (size_of_nonneg it1); lia].
    exists c1. eexists. cbn [take_next bind]. split; [reflexivity|].
    emission_fields. repeat split; auto. apply odd_pred_even, Hisodd.
Qed.

Lemma odd_needs_http (onoff http : list Candidate) (k26 : Z) (e : Emission) :
  0 <= k26 <= size_of http ->
  e_allocated26 e = size_of onoff + k26 ->
  (staInfoIt1 e = [] -> size_of onoff = 0) ->
  staInfoIt3 e = http ->
  Z.odd (e_allocated26 e) = true ->
  staInfoIt1 e = [] -> staInfoIt3 e <> [].
Proof.
  intros Hk Ha Hzero Hit3 Hodd Hit1 Hnil.
  rewrite Ha, (Hzero Hit1) in Hodd. rewrite <- Hit3, Hnil in Hk.
  change (size_of (@nil Candidate)) with 0 in Hk.
  assert (k26 = 0) as -> by lia. discriminate.
Qed.

(** ** The mixed branch returns *)

Lemma take_iter_firstn (n : nat) :
  forall it : list Candidate,
    (n <= length it)%nat -> take_iter n it = Ok (firstn n it, skipn n it).
Proof.
  induction n as [|n IH]; intros it Hn; cbn [take_iter].
  - reflexivity.
  - destruct it as [|c it]; [cbn in Hn; lia|].
    cbn [take_next bind]. rewrite IH by (cbn in Hn; lia). reflexivity.
Qed.

Lemma take_iter_all (it : list Candidate) (size : Z) :
  size = size_of it -> take_iter (Z.to_nat size) it = Ok (it, []).
Proof.
  intros ->. unfold size_of. rewrite Nat2Z.id.
  rewrite take_iter_firstn by lia. rewrite firstn_all, skipn_all. reflexivity.
Qed.

Lemma give_52_spec (t : RuType) (n : nat) :
  forall (fuel : nat) (size3 in1 : Z) (it2 dataInfo : list Candidate)
         (ruAssigned : list RuEntry),
    (n <= length it2)%nat -> (n <= fuel)%nat ->
    exists more : list RuEntry,
      give_52 fuel t (Z.of_nat n) size3 it2 in1 dataInfo ruAssigned
      = Ok (0, size3 - Z.of_nat n, skipn n it2, dataInfo ++ firstn n it2,
            ruAssigned ++ more)
      /\ length more = n.
Proof.
  induction n as [|n IH]; intros fuel size3 in1 it2 dataInfo ruAssigned Hit Hfuel.
  - exists []. split; [|reflexivity].
    destruct fuel; cbn [give_52 Z.of_nat Z.gtb Z.compare skipn firstn];
      rewrite !app_nil_r, Z.sub_0_r; reflexivity.
  - destruct fuel as [|fuel]; [lia|].
    destruct it2 as [|c it2]; [cbn in Hit; lia|].
    cbn [give_52]. destruct (Z.gtb_spec (Z.of_nat (S n)) 0); [|lia].
    cbn [take_next bind].
    replace (Z.of_nat (S n) - 1) with (Z.of_nat n) by lia.
    destruct (IH fuel (size3 - 1) (in1 + 1) it2 (dataInfo ++ [c])
                (ruAssigned ++ [(t, in1)])) as (more & Hrun & Hlen);
      [cbn in Hit; lia | lia |].
    exists ((t, in1) :: more). rewrite Hrun. split; [|cbn; lia].
    cbn [skipn firstn]. rewrite <- !app_assoc. cbn [app].
    replace (size3 - Z.of_nat (S n)) with (size3 - 1 - Z.of_nat n) by lia.
    reflexivity.
Qed.

Lemma give_26_spec (t : RuType) (fuel : nat) :
  forall (cnt size idx : Z) (it dataInfo : list Candidate) (ruAssigned : list RuEntry),
    size = size_of it -> (Z.to_nat cnt <= fuel)%nat ->
    exists (k : nat) (more : list RuEntry),
      (k <= length it)%nat
      /\ give_26 fuel t cnt size it idx dataInfo ruAssigned
         = Ok (cnt - Z.of_nat k, size - Z.of_nat k, skipn k it, idx + Z.of_nat k,
               dataInfo ++ firstn k it, ruAssigned ++ more)
      /\ length more = k.
Proof.
  assert (Hstop : forall fuel cnt size idx (it dataInfo : list Candidate)
                         (ruAssigned : list RuEntry),
             size <= 0 \/ cnt <= 0 ->
             exists (k : nat) (more : list RuEntry),
               (k <= length it)%nat
               /\ give_26 fuel t cnt size it idx dataInfo ruAssigned
                  = Ok (cnt - Z.of_nat k, size - Z.of_nat k, skipn k it,
                        idx + Z.of_nat k, dataInfo ++ firstn k it, ruAssigned ++ more)
               /\ length more = k).
  { intros f cnt size idx it dataInfo ruAssigned H. exists 0%nat, [].
    split; [lia|]. split; [|reflexivity].
    rewrite give_26_stop by exact H.
    cbn [Z.of_nat skipn firstn]. rewrite !app_nil_r, !Z.sub_0_r, Z.add_0_r.
    reflexivity. }
  induction fuel as [|fuel IH]; intros cnt size idx it dataInfo ruAssigned Hsize Hfuel.
  - apply Hstop. lia.
  - destruct (Z.le_gt_cases size 0) as [Hs|Hs]; [apply Hstop; lia|].
    destruct (Z.le_gt_cases cnt 0) as [Hc|Hc]; [apply Hstop; lia|].
    destruct it as [|c it]; [subst size; unfold size_of in Hs; cbn in Hs; lia|].
    rewrite give_26_step by lia.
    destruct (IH (cnt - 1) (size - 1) (idx + 1) it (dataInfo ++ [c])
                (ruAssigned ++ [(t, idx)])) as (k & more & Hk & Hrun & Hlen);
      [rewrite Hsize, size_of_cons; lia | lia |].
    exists (S k), ((t, idx) :: more). split; [cbn; lia|].
    rewrite Hrun. split; [|cbn; lia].
    cbn [skipn firstn]. rewrite <- !app_assoc. cbn [app].
    replace (cnt - Z.of_nat (S k)) with (cnt - 1 - Z.of_nat k) by lia.
    replace (size - Z.of_nat (S k)) with (size - 1 - Z.of_nat k) by lia.
    replace (idx + Z.of_nat (S k)) with (idx + 1 + Z.of_nat k) by lia.
    reflexivity.
Qed.

Lemma size_of_skipn {A : Type} (k : nat) (l : list A) :
  (k <= length l)%nat -> size_of (skipn k l) = size_of l - Z.of_nat k.
Proof. intros H. unfold size_of. rewrite length_skipn. lia. Qed.

Lemma remaining_units_spec (onoff bulksend http : list Candidate) (e : Emission) :
  mixed_inv onoff bulksend http e ->
  exists (ruAssigned : list RuEntry) (dataInfo : list Candidate),
    remaining_units RU_52_TONE RU_26_TONE e = Ok (ruAssigned, dataInfo)
    /\ length dataInfo = (length onoff + length bulksend + length http)%nat
    /\ (length ruAssigned <= length dataInfo)%nat.
Proof.
  intros (Hs2 & Hs3 & Hs4 & H52 & Hall & Hru).
  unfold remaining_units.
  set (n52 := Z.to_nat (e_allocated52 e)).
  assert (Hn52 : e_allocated52 e = Z.of_nat n52) by lia.
  assert (Hn52' : (n52 <= length (staInfoIt2 e))%nat)
    by (unfold size_of in Hs3; lia).
  destruct (give_52_spec RU_52_TONE n52 n52 (e_size3 e) 3 (staInfoIt2 e)
              (e_dataInfo e) (e_ruAssigned e) Hn52' (Nat.le_refl _))
    as (more52 & Hrun52 & Hlen52).
  rewrite <- Hn52 in Hrun52. rewrite Hrun52. cbn [bind].
  destruct (give_26_spec RU_26_TONE (Z.to_nat (e_allocated26 e))
              (e_allocated26 e) (e_size2 e) (if e_allocated52 e >? 0 then 8 else 6)
              (staInfoIt1 e) (e_dataInfo e ++ firstn n52 (staInfoIt2 e))
              (e_ruAssigned e ++ more52) Hs2 (Nat.le_refl _))
    as (k1 & more1 & Hk1 & Hrun1 & Hlen1).
  rewrite Hrun1. cbn [bind].
  destruct (give_26_spec RU_26_TONE (Z.to_nat (e_allocated26 e - Z.of_nat k1))
              (e_allocated26 e - Z.of_nat k1) (e_size4 e)
              ((if e_allocated52 e >? 0 then 8 else 6) + Z.of_nat k1)
              (staInfoIt3 e)
              ((e_dataInfo e ++ firstn n52 (staInfoIt2 e)) ++ firstn k1 (staInfoIt1 e))
              ((e_ruAssigned e ++ more52) ++ more1) Hs4 (Nat.le_refl _))
    as (k2 & more2 & Hk2 & Hrun2 & Hlen2).
  rewrite Hrun2. cbn [bind].
  rewrite (take_iter_all (skipn k1 (staInfoIt1 e)))
    by (rewrite size_of_skipn by exact Hk1; lia).
  cbn [bind].
  rewrite (take_iter_all (skipn n52 (staInfoIt2 e)))
    by (rewrite size_of_skipn by exact Hn52'; lia).
  cbn [bind].
  rewrite (take_iter_all (skipn k2 (staInfoIt3 e)))
    by (rewrite size_of_skipn by exact Hk2; lia).
  cbn [bind].
  eexists. eexists. split; [reflexivity|].
  rewrite !length_app, !length_firstn, !length_skipn. lia.
Qed.

Lemma mixed_branch_returns (onoff bulksend http : list Candidate) :
  size_of onoff <= 7 ->
  bulksend <> [] ->
  exists (ruAssigned : list RuEntry) (dataInfo : list Candidate),
    mixed_branch onoff bulksend http = Ok (ruAssigned, dataInfo)
    /\ length dataInfo = (length onoff + length bulksend + length http)%nat
    /\ (length ruAssigned <= length dataInfo)%nat.
Proof.
  intros H7 Hbulk.
  destruct (first_member_spec onoff bulksend http H7 Hbulk)
    as (a106 & a52 & k26 & e & Hres & Hk26 & Hfirst & Ha26 & Hinv & Hzero & Hit3).
  rewrite mixed_branch_unfold, Hres. cbn [bind]. rewrite Hfirst. cbn [bind].
  destruct (Z.odd (e_allocated26 e)) eqn:Hodd.
  - destruct (odd_26_odd e) as
      (c & e' & Hrun & Hru & Hdata & Hit & Hit2 & Hsz3 & H52 & H26 & Heven).
    + apply Hinv.
    + eapply odd_needs_http; eassumption.
    + exact Hodd.
    + rewrite Hrun. cbn [bind].
      apply (remaining_units_spec onoff bulksend http e').
      destruct Hinv as (Hs2 & Hs3 & Hs4 & Hb52 & Hall & Hlen).
      unfold mixed_inv. rewrite Hru, Hdata, Hit2, Hsz3, H52, !length_app.
      cbn [length].
      destruct (staInfoIt1 e) as [|c1 it1] eqn:Hit1.
      * destruct Hit as (Hit3' & Hit1' & Hsz2 & Hsz4).
        rewrite Hit1', Hsz2, Hsz4, Hs2, Hs4, Hit3'. rewrite Hit3' in Hall.
        rewrite size_of_cons. cbn [length] in *.
        repeat split; lia.
      * destruct Hit as (_ & Hit1' & Hit3' & Hsz2 & Hsz4).
        rewrite Hit1', Hit3', Hsz2, Hsz4, Hs2, Hs4.
        rewrite size_of_cons. cbn [length] in *.
        repeat split; lia.
  - rewrite (odd_26_even e Hodd). cbn [bind].
    apply (remaining_units_spec onoff bulksend http e Hinv).
Qed.

(** ** The three branches of the packer *)

Lemma stably_sorted_size (v v' : list Candidate) :
  stably_sorted v v' -> size_of v' = size_of v.
Proof.
  intros (_ & Hperm & _). unfold size_of. f_equal. symmetry.
  apply Permutation_length, Hperm.
Qed.

Lemma GetNumberAndTypeOfRus_branches (groups : RuTable)
  (o1 b1 h1 : list Mac48Address) (bandwidth nStations : Z)
  (data onoff bulksend http : list Candidate) :
  classify o1 b1 h1 data [] [] [] = (onoff, bulksend, http) ->
  exists onoff' bulksend' http',
    stably_sorted onoff onoff'
    /\ stably_sorted bulksend bulksend'
    /\ stably_sorted http http'
    /\ GetNumberAndTypeOfRus groups o1 b1 h1 bandwidth nStations data
       = if (size_of bulksend =? 0)
            || (size_of onoff + size_of bulksend + size_of http <=? 1)
         then degenerate_branch groups bandwidth nStations onoff' bulksend' http'
         else if size_of onoff >? 7
              then overflow_branch groups bandwidth onoff' bulksend' http'
              else mixed_branch onoff' bulksend' http'.
Proof.
  intros Hcl.
  destruct (merge_sort_class onoff) as (onoff' & Hr2 & Hs2).
  destruct (merge_sort_class bulksend) as (bulksend' & Hr3 & Hs3).
  destruct (merge_sort_class http) as (http' & Hr4 & Hs4).
  exists onoff', bulksend', http'.
  split; [exact Hs2|]. split; [exact Hs3|]. split; [exact Hs4|].
  unfold GetNumberAndTypeOfRus. rewrite Hcl. cbv zeta.
  rewrite Hr2. cbn [bind]. rewrite Hr3. cbn [bind]. rewrite Hr4. cbn [bind].
  reflexivity.
Qed.

Lemma classify_length (o1 b1 h1 : list Mac48Address) (data : list Candidate) :
  forall onoff bulksend http onoff' bulksend' http',
    classify o1 b1 h1 data onoff bulksend http = (onoff', bulksend', http') ->
    (length onoff' + length bulksend' + length http'
     <= length data + (length onoff + length bulksend + length http))%nat.
Proof.
  induction data as [|c data IH]; intros onoff bulksend http onoff' bulksend' http' H;
    cbn [classify] in H.
  - inversion H; subst. cbn. lia.
  - destruct (listed b1 c);
      [|destruct (listed o1 c); [|destruct (listed h1 c)]];
      apply IH in H; rewrite ?length_app in H; cbn [length] in *; lia.
Qed.

(** In the mixed branch the packer returns, places every classed
    candidate, and returns no more RU entries than candidates. *)
Lemma packer_mixed_returns (groups : RuTable) (o1 b1 h1 : list Mac48Address)
  (bandwidth nStations : Z) (data onoff bulksend http : list Candidate) :
  classify o1 b1 h1 data [] [] [] = (onoff, bulksend, http) ->
  bulksend <> [] ->
  (1 < length onoff + length bulksend + length http)%nat ->
  (length onoff <= 7)%nat ->
  exists (ruAssigned : list RuEntry) (dataInfo : list Candidate),
    GetNumberAndTypeOfRus groups o1 b1 h1 bandwidth nStations data
    = Ok (ruAssigned, dataInfo)
    /\ (length ruAssigned <= length dataInfo <= length data)%nat.
Proof.
  intros Hcl Hbulk Hmany H7.
  destruct (GetNumberAndTypeOfRus_branches groups o1 b1 h1 bandwidth nStations
              data onoff bulksend http Hcl)
    as (onoff' & bulksend' & http' & Hs2 & Hs3 & Hs4 & Heq).
  rewrite Heq. clear Heq.
  destruct (Z.eqb_spec (size_of bulksend) 0) as [H0|_].
  { destruct bulksend; [contradiction | unfold size_of in H0; cbn in H0; lia]. }
  destruct (Z.leb_spec (size_of onoff + size_of bulksend + size_of http) 1) as [H1|_];
    [unfold size_of in H1; lia|].
  destruct (Z.gtb_spec (size_of onoff) 7) as [H8|_]; [unfold size_of in H8; lia|].
  cbn [orb].
  pose proof (stably_sorted_size _ _ Hs2) as Hz2.
  pose proof (stably_sorted_size _ _ Hs3) as Hz3.
  pose proof (stably_sorted_size _ _ Hs4) as Hz4.
  unfold size_of in Hz2, Hz3, Hz4.
  destruct (mixed_branch_returns onoff' bulksend' http')
    as (ru & d & Hrun & Hd & Hru).
  - unfold size_of. lia.
  - intros ->. cbn in Hz3. destruct bulksend; [contradiction | cbn in Hz3; lia].
  - exists ru, d. split; [exact Hrun|].
    pose proof (classify_length o1 b1 h1 data [] [] [] onoff bulksend http Hcl) as Hc.
    cbn [length] in Hc. lia.
Qed.

(** ** The degenerate branch *)

Lemma first_fit_Some (bandwidth nStations : Z) (groups : RuTable) :
  forall (t : RuType) (k : Z),
    first_fit groups bandwidth nStations = Some (t, k) ->
    exists pre e post,
      groups = pre ++ e :: post
      /\ forallb (fun e' => negb (fits bandwidth nStations e')) pre = true
      /\ fits bandwidth nStations e = true
      /\ snd (fst e) = t
      /\ (k = Z.of_nat (snd e) mod 256 \/ k = (2 * Z.of_nat (snd e)) mod 256).
Proof.
  induction groups as [|[[bw t0] n0] groups IH]; intros t k H; cbn [first_fit] in H.
  - discriminate.
  - destruct ((bw =? bandwidth) && (Z.of_nat n0 <=? nStations)) eqn:HA.
    + inversion H; subst. exists [], ((bw, t), n0), groups.
      unfold fits. cbn [fst snd]. rewrite HA. cbn. auto 10.
    + destruct ((bandwidth =? 160) && (bw =? 80) && (2 * Z.of_nat n0 <=? nStations)) eqn:HB.
      * inversion H; subst. exists [], ((bw, t), n0), groups.
        unfold fits. cbn [fst snd]. rewrite HA, HB. cbn. auto 10.
      * destruct (IH t k H) as (pre & e & post & -> & Hpre & He & Ht & Hk).
        exists (((bw, t0), n0) :: pre), e, post.
        split; [reflexivity|]. split; [|auto].
        cbn [forallb]. unfold fits at 1. cbn [fst snd]. rewrite HA, HB. exact Hpre.
Qed.

Lemma first_fit_None (bandwidth nStations : Z) (groups : RuTable) :
  first_fit groups bandwidth nStations = None ->
  forallb (fun e' => negb (fits bandwidth nStations e')) groups = true.
Proof.
  induction groups as [|[[bw t0] n0] groups IH]; intros H; cbn [first_fit] in H.
  - reflexivity.
  - destruct ((bw =? bandwidth) && (Z.of_nat n0 <=? nStations)) eqn:HA; [discriminate|].
    destruct ((bandwidth =? 160) && (bw =? 80) && (2 * Z.of_nat n0 <=? nStations)) eqn:HB;
      [discriminate|].
    cbn [forallb]. unfold fits at 1. cbn [fst snd]. rewrite HA, HB. apply IH, H.
Qed.

Lemma table_ok_entry (groups pre post : RuTable) (e : (Z * RuType) * nat) :
  table_ok groups = true -> groups = pre ++ e :: post ->
  1 <= Z.of_nat (snd e) <= 127.
Proof.
  intros Hok ->. unfold table_ok in Hok.
  rewrite forallb_app in Hok. apply andb_true_iff in Hok as [_ Hok].
  cbn [forallb] in Hok. apply andb_true_iff in Hok as [Hok _].
  apply andb_true_iff in Hok as [H1 H2]. lia.
Qed.

Lemma uniform_type_spec (groups : RuTable) (bandwidth nStations : Z) (t : RuType) :
  table_ok groups = true ->
  uniform_type groups bandwidth nStations = Ok t ->
  (exists pre e post,
      groups = pre ++ e :: post
      /\ forallb (fun e' => negb (fits bandwidth nStations e')) pre = true
      /\ fits bandwidth nStations e = true
      /\ snd (fst e) = t)
  \/ (forallb (fun e' => negb (fits bandwidth nStations e')) groups = true
      /\ bandwidth = 160 /\ nStations = 1 /\ t = RU_2x996_TONE).
Proof.
  intros Hok. unfold uniform_type.
  destruct (first_fit groups bandwidth nStations) as [[t0 k]|] eqn:Hfit.
  - destruct (first_fit_Some _ _ _ _ _ Hfit) as (pre & e & post & Hg & Hpre & He & Ht & Hk).
    pose proof (table_ok_entry groups pre post e Hok Hg) as Hn.
    assert (Hk0 : k <> 0).
    { destruct Hk as [->| ->]; rewrite Z.mod_small; lia. }
    destruct (Z.eqb_spec k 0); [contradiction|].
    intros Hrun. inversion Hrun; subst. left. exists pre, e, post. auto.
  - change (0 =? 0) with true. cbv iota. intros H.
    apply bind_Ok in H as (u & Hassert & H). inversion H; subst.
    unfold ns_assert in Hassert.
    destruct (Z.eqb_spec bandwidth 160); [|discriminate].
    destruct (Z.eqb_spec nStations 1); [|discriminate].
    right. split; [apply first_fit_None, Hfit | auto].
Qed.

Lemma degenerate_single_11ax (o1 b1 h1 : list Mac48Address) (c : Candidate)
  (bandwidth : Z) :
  bandwidth = 20 \/ bandwidth = 40 \/ bandwidth = 80 ->
  exists dataInfo,
    GetNumberAndTypeOfRus heRuSubcarrierGroups_11ax o1 b1 h1 bandwidth 1 [c]
    = Ok ([(whole_band bandwidth, 1)], dataInfo).
Proof.
  intros Hbw. unfold GetNumberAndTypeOfRus. cbn [classify].
  destruct (listed b1 c); [|destruct (listed o1 c); [|destruct (listed h1 c)]];
    destruct Hbw as [->|[->| ->]]; eexists; vm_compute; reflexivity.
Qed.

(** C4 as stated fails: for four onoff candidates on 20 MHz the branch
    returns four 52-tone units, the first type of the table with four
    groups at most, while the 106-tone and 242-tone units, wider, have no
    more groups than stations either. *)
Lemma degenerate_branch_not_widest :
  exists dataInfo,
    GetNumberAndTypeOfRus heRuSubcarrierGroups_11ax (addresses 100 4) [] [] 20 4
      (batch 100 4 100)
    = Ok (uniform_entries RU_52_TONE 4, dataInfo)
    /\ ~ widest_fitting heRuSubcarrierGroups_11ax 20 4 RU_52_TONE.
Proof.
  eexists. split; [vm_compute; reflexivity|].
  intros H. specialize (H RU_242_TONE 1%nat).
  cbn in H. assert (242 <= 52) by (apply H; [auto 10 | lia]). lia.
Qed.

(** On 160 MHz the whole-channel fallback never yields its single entry:
    the entries are counted under the key of the current bandwidth, and a
    table for which no entry passed the test has no single-group entry
    there. *)
Lemma whole_channel_fallback_not_single (groups : RuTable)
  (o1 b1 h1 : list Mac48Address) (data onoff bulksend http : list Candidate)
  (ruAssigned : list RuEntry) (dataInfo : list Candidate) :
  classify o1 b1 h1 data [] [] [] = (onoff, bulksend, http) ->
  bulksend = [] \/ (length onoff + length bulksend + length http <= 1)%nat ->
  first_fit groups 160 1 = None ->
  GetNumberAndTypeOfRus groups o1 b1 h1 160 1 data = Ok (ruAssigned, dataInfo) ->
  length ruAssigned <> 1%nat.
Proof.
  intros Hcl Hdeg Hnone Hrun.
  destruct (GetNumberAndTypeOfRus_branches groups o1 b1 h1 160 1
              data onoff bulksend http Hcl)
    as (onoff' & bulksend' & http' & _ & _ & _ & Heq).
  rewrite Heq in Hrun. clear Heq.
  assert (Hcond : (size_of bulksend =? 0)
                  || (size_of onoff + size_of bulksend + size_of http <=? 1) = true).
  { unfold size_of. destruct Hdeg as [->|Hle].
    - reflexivity.
    - apply orb_true_iff. right. apply Z.leb_le. lia. }
  rewrite Hcond in Hrun. unfold degenerate_branch, uniform_type in Hrun.
  rewrite Hnone in Hrun. cbn in Hrun.
  apply bind_Ok in Hrun as (ru & Hone & Hrun). inversion Hrun; subst. clear Hrun.
  unfold one_per_group in Hone.
  apply bind_Ok in Hone as (slots & Hat & Hone). inversion Hone; subst.
  rewrite length_map, length_seq. intros ->.
  unfold groups_at in Hat.
  destruct (find _ groups) as [e|] eqn:Hfind; [|discriminate].
  inversion Hat as [Hslots]. apply find_some in Hfind as [Hin Hkey].
  apply first_fit_None in Hnone. rewrite forallb_forall in Hnone.
  specialize (Hnone e Hin). unfold fits in Hnone.
  apply andb_true_iff in Hkey as [Hbw _]. rewrite Hbw, Hslots in Hnone.
  discriminate.
Qed.

Lemma whole_channel_fallback_throws_11ax :
  GetNumberAndTypeOfRus heRuSubcarrierGroups_11ax [] [] [] 160 1 (batch 100 1 100)
  = Fault OutOfRange.
Proof. vm_compute. reflexivity. Qed.

(** ** The overflow branch *)

(** C5 as stated fails: on 20 MHz the overflow branch returns nine
    26-tone units, the type of the first entry of the table, which is the
    narrowest of the types the table lists for 20 MHz and not the
    widest. *)
Lemma overflow_branch_not_widest :
  exists dataInfo,
    GetNumberAndTypeOfRus heRuSubcarrierGroups_11ax (addresses 100 8)
      (addresses 200 8) [] 20 16 overflow_batch
    = Ok (uniform_entries RU_26_TONE 9, dataInfo)
    /\ ~ widest_available heRuSubcarrierGroups_11ax 20 RU_26_TONE.
Proof.
  eexists. split; [vm_compute; reflexivity|].
  intros H. specialize (H RU_242_TONE 1%nat).
  cbn in H. assert (242 <= 26) by (apply H; auto 10). lia.
Qed.

(** With fewer bulksend than onoff candidates the second copying loop of
    the overflow branch reads past the end of the bulksend class. *)
Lemma overflow_branch_reads_past_bulksend :
  GetNumberAndTypeOfRus heRuSubcarrierGroups_11ax (addresses 100 8)
    (addresses 200 8) [] 20 9 (batch 100 8 50 ++ batch 200 1 60)
  = Fault BadAccess.
Proof. vm_compute. reflexivity. Qed.

(** * Further properties of the scheduler *)

(** ** The selection of stations *)

Lemma scan_tids_sound (env : Env) (ruType : list RuEntry)
  (primaryAc txopLimit staId : Z) (address : Mac48Address) (c : Candidate) :
  forall (tids : list Z) (ruIt : nat),
    scan_tids env ruType primaryAc txopLimit staId address tids ruIt = Ok (Some c) ->
    get0 c = address
    /\ aid (get2 c) = staId
    /\ In (tid (get2 c)) tids
    /\ primaryAc <= QosUtilsMapTidToAc env (tid (get2 c))
    /\ GetBaAgreementEstablished env (QosUtilsMapTidToAc env (tid (get2 c)))
         address (tid (get2 c)) = true
    /\ PeekNextFrame env (QosUtilsMapTidToAc env (tid (get2 c))) (tid (get2 c)) address
       = Some (get1 c)
    /\ exists (t : RuType) (i : Z),
         In (t, i) ruType
         /\ IsWithinSizeAndTimeLimits env (get1 c) staId t txopLimit = true.
Proof.
  induction tids as [|t0 tids IH]; intros ruIt H; cbn [scan_tids] in H.
  - discriminate.
  - assert (Hlater : scan_tids env ruType primaryAc txopLimit staId address tids (S ruIt)
                     = Ok (Some c) ->
                     get0 c = address
                     /\ aid (get2 c) = staId
                     /\ In (tid (get2 c)) (t0 :: tids)
                     /\ primaryAc <= QosUtilsMapTidToAc env (tid (get2 c))
                     /\ GetBaAgreementEstablished env
                          (QosUtilsMapTidToAc env (tid (get2 c))) address (tid (get2 c))
                        = true
                     /\ PeekNextFrame env (QosUtilsMapTidToAc env (tid (get2 c)))
                          (tid (get2 c)) address = Some (get1 c)
                     /\ exists (t : RuType) (i : Z),
                          In (t, i) ruType
                          /\ IsWithinSizeAndTimeLimits env (get1 c) staId t txopLimit
                             = true).
    { intros H'. destruct (IH _ H') as (H1 & H2 & H3 & H4).
      split; [exact H1|]. split; [exact H2|]. split; [right; exact H3 | exact H4]. }
    destruct ((QosUtilsMapTidToAc env t0 >=? primaryAc)
              && GetBaAgreementEstablished env (QosUtilsMapTidToAc env t0) address t0)
      eqn:Hcond; [|apply Hlater, H].
    destruct (PeekNextFrame env (QosUtilsMapTidToAc env t0) t0 address) as [size|] eqn:Hpeek;
      [|apply Hlater, H].
    destruct (nth_error ruType ruIt) as [[ty i]|] eqn:Hnth; [|discriminate].
    destruct (IsWithinSizeAndTimeLimits env size staId ty txopLimit) eqn:Hfit;
      [|apply Hlater, H].
    inversion H; subst c. clear H.
    apply andb_true_iff in Hcond as [Hac Hba].
    unfold get0, get1, get2. cbn [fst snd aid tid].
    split; [reflexivity|]. split; [reflexivity|]. split; [left; reflexivity|].
    split; [lia|]. split; [exact Hba|]. split; [exact Hpeek|].
    exists ty, i. split; [eapply nth_error_In; exact Hnth | exact Hfit].
Qed.

Lemma select_loop_cons (env : Env) (ruType : list RuEntry)
  (currTid primaryAc txopLimit staId : Z) (address : Mac48Address)
  (rest : list (Z * Mac48Address)) (dataInfo : list Candidate)
  (staInfo : list (Mac48Address * DlPerStaInfo)) :
  select_loop env ruType currTid primaryAc txopLimit ((staId, address) :: rest)
    dataInfo staInfo
  = (found <- scan_tids env ruType primaryAc txopLimit staId address
                (tids_from currTid) 0 ;;
     let dataInfo1 := dataInfo ++ taken found in
     let staInfo1 := staInfo ++ map sta_entry (taken found) in
     match rest with
     | [] => Ok (dataInfo1, staInfo1, [])
     | _ :: _ =>
         if size_of staInfo1 <? m_nStations env mod 256
         then select_loop env ruType currTid primaryAc txopLimit rest dataInfo1 staInfo1
         else Ok (dataInfo1, staInfo1, rest)
     end).
Proof.
  cbn [select_loop].
  destruct (scan_tids env ruType primaryAc txopLimit staId address (tids_from currTid) 0)
    as [[c|]|f]; cbn [bind taken map]; rewrite ?app_nil_r; reflexivity.
Qed.

Lemma select_loop_added (env : Env) (ruType : list RuEntry)
  (primaryAc txopLimit : Z) (round : list (Z * Mac48Address)) :
  forall dataInfo staInfo dataInfo' staInfo' unvisited,
    select_loop env ruType (GetQosTid env) primaryAc txopLimit round dataInfo staInfo
    = Ok (dataInfo', staInfo', unvisited) ->
    exists (added : list Candidate) (visited : list (Z * Mac48Address)),
      dataInfo' = dataInfo ++ added
      /\ staInfo' = staInfo ++ map sta_entry added
      /\ round = visited ++ unvisited
      /\ Forall (fun c => exists sta, In sta visited
                          /\ eligible env ruType primaryAc txopLimit sta c) added.
Proof.
  induction round as [|[staId address] round IH];
    intros dataInfo staInfo dataInfo' staInfo' unvisited H.
  - cbn [select_loop] in H. inversion H; subst. exists [], []. cbn.
    rewrite !app_nil_r. auto.
  - rewrite select_loop_cons in H.
    apply bind_Ok in H as (found & Hscan & H). cbv zeta in H.
    assert (Hel : Forall (fun c => exists sta, In sta [(staId, address)]
                            /\ eligible env ruType primaryAc txopLimit sta c)
                    (taken found)).
    { destruct found as [c|]; cbn [taken]; [|constructor].
      constructor; [|constructor].
      exists (staId, address). split; [left; reflexivity|].
      apply scan_tids_sound in Hscan. unfold eligible. cbn [fst snd]. exact Hscan. }
    assert (Hstop : forall rest,
               exists (added : list Candidate) (visited : list (Z * Mac48Address)),
                 dataInfo ++ taken found = dataInfo ++ added
                 /\ staInfo ++ map sta_entry (taken found) = staInfo ++ map sta_entry added
                 /\ (staId, address) :: rest = visited ++ rest
                 /\ Forall (fun c => exists sta, In sta visited
                              /\ eligible env ruType primaryAc txopLimit sta c) added).
    { intros rest. exists (taken found), [(staId, address)]. auto. }
    destruct round as [|next others].
    + inversion H; subst. apply Hstop.
    + destruct (size_of (staInfo ++ map sta_entry (taken found))
                <? m_nStations env mod 256).
      * apply IH in H as (added & visited & -> & -> & Hround & Hall).
        exists (taken found ++ added), ((staId, address) :: visited).
        rewrite map_app, !app_assoc. split; [reflexivity|]. split; [reflexivity|].
        split; [cbn [app]; rewrite Hround; reflexivity|].
        apply Forall_app. split.
        -- eapply Forall_impl; [|exact Hel].
           intros c0 (sta & [<-|[]] & Hc0). exists (staId, address).
           split; [left; reflexivity | exact Hc0].
        -- eapply Forall_impl; [|exact Hall].
           intros c0 (sta & Hin & Hc0). exists sta. split; [right; exact Hin | exact Hc0].
      * inversion H; subst. apply Hstop.
Qed.

Lemma select_loop_bound (env : Env) (ruType : list RuEntry)
  (currTid primaryAc txopLimit : Z) (round : list (Z * Mac48Address)) :
  forall dataInfo staInfo dataInfo' staInfo' unvisited,
    select_loop env ruType currTid primaryAc txopLimit round dataInfo staInfo
    = Ok (dataInfo', staInfo', unvisited) ->
    size_of staInfo < m_nStations env mod 256 ->
    size_of staInfo' <= m_nStations env mod 256.
Proof.
  induction round as [|[staId address] round IH];
    intros dataInfo staInfo dataInfo' staInfo' unvisited H Hlt.
  - cbn [select_loop] in H. inversion H; subst. lia.
  - rewrite select_loop_cons in H.
    apply bind_Ok in H as (found & _ & H). cbv zeta in H.
    assert (Hone : size_of (staInfo ++ map sta_entry (taken found)) <= size_of staInfo + 1).
    { unfold size_of. rewrite length_app, length_map.
      destruct found; cbn [taken length]; lia. }
    destruct round as [|next others].
    + inversion H; subst. lia.
    + destruct (Z.ltb_spec (size_of (staInfo ++ map sta_entry (taken found)))
                  (m_nStations env mod 256)) as [Hmore|Hfull].
      * eapply IH; [exact H | exact Hmore].
      * inversion H; subst. lia.
Qed.

Lemma select_loop_NoDup (env : Env) (ruType : list RuEntry)
  (currTid primaryAc txopLimit : Z) (round : list (Z * Mac48Address)) :
  forall dataInfo staInfo dataInfo' staInfo' unvisited,
    select_loop env ruType currTid primaryAc txopLimit round dataInfo staInfo
    = Ok (dataInfo', staInfo', unvisited) ->
    NoDup (map fst staInfo ++ map snd round) ->
    NoDup (map fst staInfo').
Proof.
  induction round as [|[staId address] round IH];
    intros dataInfo staInfo dataInfo' staInfo' unvisited H Hnd.
  - cbn [select_loop] in H. inversion H; subst.
    cbn [map] in Hnd. rewrite app_nil_r in Hnd. exact Hnd.
  - rewrite select_loop_cons in H.
    apply bind_Ok in H as (found & Hscan & H). cbv zeta in H.
    assert (Hnext : NoDup (map fst (staInfo ++ map sta_entry (taken found))
                           ++ map snd round)).
    { destruct found as [c|]; cbn [taken map].
      - apply scan_tids_sound in Hscan as (Haddr & _).
        rewrite map_app. cbn [map sta_entry fst]. rewrite Haddr, <- app_assoc.
        exact Hnd.
      - rewrite app_nil_r. cbn [map snd] in Hnd.
        apply NoDup_remove_1 in Hnd. exact Hnd. }
    assert (Hhere : NoDup (map fst (staInfo ++ map sta_entry (taken found)))).
    { apply NoDup_app_remove_r in Hnext. exact Hnext. }
    destruct round as [|next others].
    + inversion H; subst. exact Hhere.
    + destruct (size_of (staInfo ++ map sta_entry (taken found))
                <? m_nStations env mod 256).
      * eapply IH; [exact H | exact Hnext].
      * inversion H; subst. exact Hhere.
Qed.

Lemma position_of_nth (aid : Z) (staList : list (Z * Mac48Address)) :
  forall i, position_of aid staList = Some i ->
            exists address, nth_error staList i = Some (aid, address).
Proof.
  induction staList as [|[k a] staList IH]; intros i H; cbn [position_of] in H.
  - discriminate.
  - destruct (Z.eqb_spec k aid) as [->|_].
    + inversion H; subst. exists a. reflexivity.
    + destruct (position_of aid staList) as [j|]; [|discriminate].
      inversion H; subst. destruct (IH j eq_refl) as (address & Hnth).
      exists address. exact Hnth.
Qed.

Lemma round_from_spec (env : Env) (start start' : Z) (round : list (Z * Mac48Address)) :
  round_from env start = Ok (round, start') ->
  Permutation (GetStaList env) round
  /\ exists address rest, round = (start', address) :: rest.
Proof.
  unfold round_from. intros H.
  destruct (position_of start (GetStaList env)) as [i|] eqn:Hpos.
  - inversion H; subst. clear H.
    destruct (position_of_nth _ _ _ Hpos) as (address & Hnth).
    split.
    + rewrite <- (firstn_skipn i (GetStaList env)) at 1. apply Permutation_app_comm.
    + apply nth_error_split in Hnth as (l1 & l2 & Hl & Hlen).
      rewrite Hl, <- Hlen.
      rewrite skipn_app, skipn_all, Nat.sub_diag. cbn [skipn app].
      exists address. eexists. reflexivity.
  - destruct (GetStaList env) as [|[first a] l]; [discriminate|].
    inversion H; subst. split; [apply Permutation_refl|].
    exists a, l. reflexivity.
Qed.

Lemma packer_empty_batch (groups : RuTable) (o1 b1 h1 : list Mac48Address)
  (bandwidth nStations : Z) (ruAssigned : list RuEntry) (dataInfo : list Candidate) :
  GetNumberAndTypeOfRus groups o1 b1 h1 bandwidth nStations [] = Ok (ruAssigned, dataInfo) ->
  dataInfo = [].
Proof.
  unfold GetNumberAndTypeOfRus. cbn [classify].
  change (merge_sort [] 0 (size_of (@nil Candidate) - 1)) with (Ok (@nil Candidate)).
  cbn [bind]. change (size_of (@nil Candidate) =? 0) with true. cbn [orb].
  unfold degenerate_branch. intros H.
  apply bind_Ok in H as (t & _ & H). apply bind_Ok in H as (ru & _ & H).
  inversion H. reflexivity.
Qed.

Lemma prepare_downlink_spec (env : Env) (m m1 : RrOfdmaManager)
  (round : list (Z * Mac48Address)) (ruType : list RuEntry) :
  prepare_downlink env m = Ok (round, ruType, m1) ->
  round_from env (m_startStation m) = Ok (round, m_startStation m1)
  /\ m_dataInfo m1 = []
  /\ m_staInfo m1 = []
  /\ 1 <= m_nStations env mod 256.
Proof.
  intros H. pose proof (prepare_downlink_count env m m1 _ _ H) as Hcount.
  unfold prepare_downlink in H.
  apply bind_Ok in H as ([round0 start] & Hround & H).
  apply bind_Ok in H as ([ru0 data0] & Hpack & H).
  apply bind_Ok in H as (u & _ & H).
  apply packer_empty_batch in Hpack. inversion H; subst.
  cbn [m_startStation m_dataInfo m_staInfo]. auto.
Qed.

Lemma downlink_path_outcome (env : Env) (m m1 m' : RrOfdmaManager)
  (round : list (Z * Mac48Address)) (ruType : list RuEntry) (fmt : OfdmaTxFormat) :
  prepare_downlink env m = Ok (round, ruType, m1) ->
  downlink_path env m = Ok (fmt, m') ->
  m' = m1
  \/ exists dataInfo staInfo unvisited,
       select_stations env ruType round m1 = Ok (dataInfo, staInfo, unvisited)
       /\ m_dataInfo m' = dataInfo
       /\ m_staInfo m' = staInfo
       /\ m_startStation m'
          = match staInfo, unvisited with
            | _ :: _, (staId, _) :: _ => staId
            | _, _ => m_startStation m1
            end.
Proof.
  intros Hprep H. unfold downlink_path in H. rewrite Hprep in H. cbn [bind] in H.
  destruct (txop_exhausted env m1).
  - inversion H. left. reflexivity.
  - apply bind_Ok in H as ([[dataInfo staInfo] unvisited] & Hsel & H).
    right. exists dataInfo, staInfo, unvisited. split; [exact Hsel|].
    destruct staInfo as [|s0 staInfo]; inversion H; subst;
      cbn [m_dataInfo m_staInfo m_startStation]; auto.
Qed.

Lemma downlink_batch_spec (env : Env) (m m1 m' : RrOfdmaManager)
  (round : list (Z * Mac48Address)) (ruType : list RuEntry) (fmt : OfdmaTxFormat) :
  prepare_downlink env m = Ok (round, ruType, m1) ->
  downlink_path env m = Ok (fmt, m') ->
  m_staInfo m' = map sta_entry (m_dataInfo m')
  /\ size_of (m_staInfo m') <= m_nStations env mod 256
  /\ Forall (fun c => exists sta,
                In sta (GetStaList env)
                /\ eligible env ruType (primary_ac env) (txop_limit env m1) sta c)
       (m_dataInfo m').
Proof.
  intros Hprep Hrun.
  destruct (prepare_downlink_spec env m m1 round ruType Hprep)
    as (Hround & Hdata & Hsta & Hcount).
  destruct (downlink_path_outcome env m m1 m' round ruType fmt Hprep Hrun)
    as [->|(dataInfo & staInfo & unvisited & Hsel & Hd & Hs & _)].
  - rewrite Hdata, Hsta. split; [reflexivity|]. split; [cbn; lia | constructor].
  - unfold select_stations in Hsel. rewrite Hdata, Hsta in Hsel.
    pose proof (select_loop_bound _ _ _ _ _ _ _ _ _ _ _ Hsel) as Hbound.
    apply select_loop_added in Hsel as (added & visited & Hda & Hsa & Hvis & Hall).
    cbn [app] in Hda, Hsa. rewrite Hd, Hs, Hda, Hsa.
    split; [reflexivity|]. split; [rewrite <- Hsa; apply Hbound; cbn; lia|].
    eapply Forall_impl; [|exact Hall].
    intros c (sta & Hin & Hel). exists sta. split; [|exact Hel].
    apply round_from_spec in Hround as [Hperm _].
    eapply Permutation_in; [apply Permutation_sym; exact Hperm|].
    rewrite Hvis. apply in_or_app. left. exact Hin.
Qed.

(** X1: every candidate of the batch that the downlink path leaves is an
    associated station for which a frame was found at the head of the
    queue of one of the TIDs scanned, under a block-ack agreement, with an
    access category not below the primary one, and fitting the limits; the
    two batch vectors hold the same stations in the same order, and no
    more of them than NStations. *)
Theorem selected_stations_are_eligible (env : Env) (m m1 m' : RrOfdmaManager)
  (round : list (Z * Mac48Address)) (ruType : list RuEntry) (fmt : OfdmaTxFormat) :
  prepare_downlink env m = Ok (round, ruType, m1) ->
  downlink_path env m = Ok (fmt, m') ->
  m_staInfo m' = map sta_entry (m_dataInfo m')
  /\ size_of (m_staInfo m') <= m_nStations env mod 256
  /\ Forall (fun c => exists sta,
                In sta (GetStaList env)
                /\ eligible env ruType (primary_ac env) (txop_limit env m1) sta c)
       (m_dataInfo m').
Proof.
  exact (downlink_batch_spec env m m1 m' round ruType fmt).
Qed.

Lemma selected_stations_witness :
  exists m',
    downlink_path three_station_env fresh_manager = Ok (DL_OFDMA, m')
    /\ m_staInfo m' = map sta_entry (m_dataInfo m')
    /\ size_of (m_staInfo m') <= 2.
Proof.
  eexists. split; [vm_compute; reflexivity|].
  destruct (selected_stations_are_eligible three_station_env fresh_manager
              (mkRrOfdmaManager 1 [] []
                 (mkWifiTxVector [(1, mkRuSpec false RU_106_TONE 1);
                                  (2, mkRuSpec false RU_106_TONE 1)] 0))
              (mkRrOfdmaManager 3
                 [(101, 100, mkDlPerStaInfo 1 0); (102, 100, mkDlPerStaInfo 2 0)]
                 [(101, mkDlPerStaInfo 1 0); (102, mkDlPerStaInfo 2 0)]
                 (mkWifiTxVector [(1, mkRuSpec false RU_106_TONE 1);
                                  (2, mkRuSpec false RU_106_TONE 1)] 0))
              [(1, 101); (2, 102); (3, 103)]
              [(RU_106_TONE, 1); (RU_106_TONE, 2)] DL_OFDMA)
    as (H1 & H2 & _).
  - vm_compute. reflexivity.
  - vm_compute. reflexivity.
  - split; [exact H1 | exact H2].
Defined.

(** X2: when the associated stations have pairwise different addresses, no
    station is put twice into the batch of one decision. *)
Theorem no_station_selected_twice (env : Env) (m m' : RrOfdmaManager)
  (fmt : OfdmaTxFormat) :
  NoDup (map snd (GetStaList env)) ->
  downlink_path env m = Ok (fmt, m') ->
  NoDup (map fst (m_staInfo m')) /\ NoDup (map get0 (m_dataInfo m')).
Proof.
  intros Hnd Hrun.
  assert (Hprep : exists round ruType m1,
             prepare_downlink env m = Ok (round, ruType, m1)).
  { unfold downlink_path in Hrun.
    destruct (prepare_downlink env m) as [[[round ruType] m1]|f]; [|discriminate].
    eauto. }
  destruct Hprep as (round & ruType & m1 & Hprep).
  destruct (prepare_downlink_spec env m m1 round ruType Hprep)
    as (Hround & Hdata & Hsta & Hcount).
  assert (Hboth : NoDup (map fst (m_staInfo m'))
                  /\ m_staInfo m' = map sta_entry (m_dataInfo m')).
  { split; [|eapply downlink_batch_spec; eassumption].
    destruct (downlink_path_outcome env m m1 m' round ruType fmt Hprep Hrun)
      as [->|(dataInfo & staInfo & unvisited & Hsel & Hd & Hs & _)].
    - rewrite Hsta. constructor.
    - unfold select_stations in Hsel. rewrite Hdata, Hsta in Hsel.
      rewrite Hs. eapply select_loop_NoDup; [exact Hsel|].
      cbn [map app]. apply round_from_spec in Hround as [Hperm _].
      eapply Permutation_NoDup; [|exact Hnd].
      apply Permutation_map. exact Hperm. }
  destruct Hboth as [Hn Heq]. split; [exact Hn|].
  rewrite Heq, map_map in Hn. exact Hn.
Qed.

Lemma no_station_twice_witness :
  exists m',
    downlink_path three_station_env fresh_manager = Ok (DL_OFDMA, m')
    /\ NoDup (map fst (m_staInfo m')) /\ NoDup (map get0 (m_dataInfo m')).
Proof.
  eexists. split; [vm_compute; reflexivity|].
  apply (no_station_selected_twice three_station_env fresh_manager _ DL_OFDMA).
  - vm_compute. repeat constructor; cbn; intuition discriminate.
  - vm_compute. reflexivity.
Defined.

Lemma downlink_cursor_spec (env : Env) (m m' : RrOfdmaManager) (fmt : OfdmaTxFormat) :
  downlink_path env m = Ok (fmt, m') ->
  In (m_startStation m') (map fst (GetStaList env)).
Proof.
  intros Hrun.
  assert (Hprep : exists round ruType m1,
             prepare_downlink env m = Ok (round, ruType, m1)).
  { unfold downlink_path in Hrun.
    destruct (prepare_downlink env m) as [[[round ruType] m1]|f]; [|discriminate].
    eauto. }
  destruct Hprep as (round & ruType & m1 & Hprep).
  destruct (prepare_downlink_spec env m m1 round ruType Hprep)
    as (Hround & Hdata & Hsta & Hcount).
  apply round_from_spec in Hround as (Hperm & address & rest & Hhead).
  assert (Hstart : In (m_startStation m1) (map fst (GetStaList env))).
  { eapply Permutation_in; [apply Permutation_map, Permutation_sym; exact Hperm|].
    rewrite Hhead. left. reflexivity. }
  destruct (downlink_path_outcome env m m1 m' round ruType fmt Hprep Hrun)
    as [->|(dataInfo & staInfo & unvisited & Hsel & Hd & Hs & Hcur)];
    [exact Hstart|].
  rewrite Hcur. destruct staInfo as [|s0 staInfo]; [exact Hstart|].
  destruct unvisited as [|[staId a] unvisited]; [exact Hstart|].
  unfold select_stations in Hsel.
  apply select_loop_added in Hsel as (added & visited & _ & _ & Hvis & _).
  eapply Permutation_in; [apply Permutation_map, Permutation_sym; exact Hperm|].
  rewrite Hvis, map_app. apply in_or_app. right. left. reflexivity.
Qed.

(** X3: whatever AID the cursor held on entry (zero at construction, or the
    AID of a station that has left), the downlink path leaves in it the
    AID of a station that is associated. *)
Theorem cursor_names_an_associated_station (env : Env) (m m' : RrOfdmaManager)
  (fmt : OfdmaTxFormat) :
  downlink_path env m = Ok (fmt, m') ->
  In (m_startStation m') (map fst (GetStaList env)).
Proof.
  exact (downlink_cursor_spec env m m' fmt).
Qed.

Lemma cursor_associated_witness :
  In 3 (map fst (GetStaList three_station_env)).
Proof.
  apply (cursor_names_an_associated_station three_station_env fresh_manager
           (mkRrOfdmaManager 3
              [(101, 100, mkDlPerStaInfo 1 0); (102, 100, mkDlPerStaInfo 2 0)]
              [(101, mkDlPerStaInfo 1 0); (102, mkDlPerStaInfo 2 0)]
              (mkWifiTxVector [(1, mkRuSpec false RU_106_TONE 1);
                               (2, mkRuSpec false RU_106_TONE 1)] 0))
           DL_OFDMA).
  vm_compute. reflexivity.
Defined.

Lemma no_users_no_estimate (env : Env) (users : list (Z * RuSpec)) :
  GetStaList env = [] ->
  forall acc, max_buffer_size env users acc = acc.
Proof.
  intros Hnone. induction users as [|[staId ru] users IH]; intros acc.
  - reflexivity.
  - cbn [max_buffer_size]. rewrite Hnone. cbn [map_find]. apply IH.
Qed.

(** X4: with no station associated, SelectTxFormat returns no format: the
    uplink path finds no report and falls through, and the downlink path
    dereferences the end of the station list. *)
Theorem no_station_no_decision (env : Env) (m : RrOfdmaManager) :
  GetStaList env = [] ->
  SelectTxFormat env m = Fault BadAccess
  \/ SelectTxFormat env m = Fault FatalError.
Proof.
  intros Hnone.
  assert (Hdown : downlink_path env m = Fault BadAccess).
  { unfold downlink_path, prepare_downlink, round_from. rewrite Hnone.
    destruct (m_startStation m); reflexivity. }
  unfold SelectTxFormat. destruct (uplink_reuse env); [|left; exact Hdown].
  destruct (ulPsduSize env =? 0); [right; reflexivity|].
  destruct (GetAckSequenceForUlMu env _); [|right; reflexivity].
  unfold buffer_estimate. rewrite (no_users_no_estimate env _ Hnone).
  cbn. left. exact Hdown.
Qed.

Lemma no_station_witness :
  SelectTxFormat deserted_env fresh_manager = Fault BadAccess
  \/ SelectTxFormat deserted_env fresh_manager = Fault FatalError.
Proof.
  apply (no_station_no_decision deserted_env fresh_manager). reflexivity.
Defined.








(** * The uplink grant *)

Lemma fold_max_zero (l : list Z) :
  Forall (fun x => 0 <= x) l ->
  (fold_right Z.max 0 l = 0 <-> Forall (fun x => x = 0) l).
Proof.
  induction 1 as [|x l Hx Hl IH]; cbn [fold_right].
  - split; [constructor | reflexivity].
  - pose proof (fold_max_nonneg l) as Hm. split.
    + intros H. constructor; [lia|]. apply IH. lia.
    + intros H. inversion H; subst. apply IH in H3. lia.
Qed.

Lemma existsb_unbounded (env : Env) (l : list Mac48Address) :
  existsb (unbounded env) l = true ->
  ~ Forall (fun address => queueSize_of env address = 0) l.
Proof.
  intros H Hall. apply existsb_exists in H as (a & Hin & Ha).
  rewrite Forall_forall in Hall. specialize (Hall a Hin).
  unfold unbounded in Ha. rewrite Hall in Ha. discriminate.
Qed.

(** X6: once UlPsduSize is not zero, the estimate on which the uplink path
    decides is zero exactly when every user of the previous DL MU PPDU that
    is still associated reported the buffer status 0: one report of
    anything else, 255 for unknown included, makes it positive. *)
Theorem estimate_zero_iff_all_report_zero (env : Env) (m : RrOfdmaManager) :
  ulPsduSize env <> 0 ->
  (buffer_estimate env m = 0
   <-> Forall (fun address => queueSize_of env address = 0)
         (still_associated env (GetHeMuUserInfoMap (m_txVector m)))).
Proof.
  intros Hsize. unfold buffer_estimate. rewrite max_buffer_size_from by lia.
  set (l := still_associated env (GetHeMuUserInfoMap (m_txVector m))).
  destruct (existsb (unbounded env) l) eqn:Hunb.
  - split; [discriminate|]. intros H. exfalso. exact (existsb_unbounded env l Hunb H).
  - pose proof (fold_max_nonneg (map (pending_bytes env) l)) as Hm.
    rewrite Z.max_r by exact Hm.
    rewrite fold_max_zero.
    + rewrite Forall_map.
      split; intros H; (eapply Forall_impl; [|exact H]); intros address;
        cbv beta; unfold pending_bytes;
        pose proof (queueSize_of_range env address) as Hq;
        destruct (Z.eqb_spec (queueSize_of env address) 255); lia.
    + rewrite Forall_map. apply Forall_forall. intros address _.
      unfold pending_bytes. pose proof (queueSize_of_range env address) as Hq.
      pose proof (ulPsduSize_range env) as Hu.
      destruct (Z.eqb_spec (queueSize_of env address) 255); lia.
Qed.

Lemma estimate_zero_witness :
  buffer_estimate idle_env idle_manager = 0
  <-> Forall (fun address => queueSize_of idle_env address = 0)
        (still_associated idle_env (GetHeMuUserInfoMap (m_txVector idle_manager))).
Proof.
  apply (estimate_zero_iff_all_report_zero idle_env idle_manager).
  vm_compute. discriminate.
Defined.

Lemma SelectTxFormat_uplink (env : Env) (m m' : RrOfdmaManager) :
  SelectTxFormat env m = Ok (UL_OFDMA, m') ->
  uplink_reuse env = true
  /\ 0 < buffer_estimate env m
  /\ grant_uplink env m (primary_ac env) (buffer_estimate env m) = (UL_OFDMA, m').
Proof.
  unfold SelectTxFormat. intros H.
  destruct (uplink_reuse env).
  - destruct (ulPsduSize env =? 0); [discriminate|].
    destruct (GetAckSequenceForUlMu env _); [|discriminate].
    destruct (Z.gtb_spec (buffer_estimate env m) 0) as [Hpos|Hzero].
    + inversion H. split; [reflexivity|]. split; [lia | reflexivity].
    + apply downlink_path_format in H as [H|[H _]]; discriminate.
  - apply downlink_path_format in H as [H|[H _]]; discriminate.
Qed.

(** X7: UL_OFDMA is returned only after a DL MU PPDU with uplink enabled and
    a positive estimate.  Then the batch, the cursor and the users of the TX
    vector are those of before; the length stored is that of a duration
    which is at most the maximum PPDU duration, at most the time the
    estimated bytes take, within a TXOP at most what remains of it after the
    response, and which either is the time the estimated bytes take or
    suffices for UlPsduSize bytes. *)
Theorem uplink_grant_is_bounded (env : Env) (m m' : RrOfdmaManager) :
  SelectTxFormat env m = Ok (UL_OFDMA, m') ->
  m_enableUlOfdma env = true
  /\ GetTxFormat env = DL_OFDMA
  /\ 0 < buffer_estimate env m
  /\ m_startStation m' = m_startStation m
  /\ m_dataInfo m' = m_dataInfo m
  /\ m_staInfo m' = m_staInfo m
  /\ GetHeMuUserInfoMap (m_txVector m') = GetHeMuUserInfoMap (m_txVector m)
  /\ exists duration : Z,
       GetLength (m_txVector m') = ConvertHeTbPpduDurationToLSigLength env duration
       /\ duration <= GetPpduMaxTime env
       /\ duration <= CalculateTxDuration env (buffer_estimate env m) (m_txVector m)
       /\ (IsStrictlyPositive env (GetTxopLimit env (primary_ac env)) = true ->
           duration <= GetTxopRemaining env (primary_ac env)
                       - UlResponseDuration env (m_txVector m))
       /\ (duration = CalculateTxDuration env (buffer_estimate env m) (m_txVector m)
           \/ CalculateTxDuration env (ulPsduSize env) (m_txVector m) <= duration).
Proof.
  intros H. apply SelectTxFormat_uplink in H as (Hreuse & Hpos & Hgrant).
  unfold uplink_reuse in Hreuse. apply andb_prop in Hreuse as [Hen Hfmt].
  split; [exact Hen|].
  split; [destruct (GetTxFormat env); (reflexivity || discriminate)|].
  split; [exact Hpos|].
  unfold grant_uplink in Hgrant.
  set (inTxop := IsStrictlyPositive env (GetTxopLimit env (primary_ac env))) in *.
  set (remaining := GetTxopRemaining env (primary_ac env)) in *.
  set (response := UlResponseDuration env (m_txVector m)) in *.
  set (bufferTxTime := CalculateTxDuration env (buffer_estimate env m) (m_txVector m)) in *.
  set (minDuration := CalculateTxDuration env (ulPsduSize env) (m_txVector m)) in *.
  destruct (inTxop && (response >? remaining)) eqn:Hshort; [discriminate|].
  set (maxDuration := if inTxop then Z.min (GetPpduMaxTime env) (remaining - response)
                      else GetPpduMaxTime env) in *.
  destruct (negb (bufferTxTime <? maxDuration) && (maxDuration <? minDuration))
    eqn:Hgive; [discriminate|].
  inversion Hgrant; subst m'. cbn [m_startStation m_dataInfo m_staInfo m_txVector
                                     GetHeMuUserInfoMap GetLength].
  repeat (split; [reflexivity|]).
  exists (if bufferTxTime <? maxDuration then bufferTxTime else maxDuration).
  split; [reflexivity|].
  assert (Hmax : maxDuration <= GetPpduMaxTime env
                 /\ (inTxop = true -> maxDuration <= remaining - response)).
  { unfold maxDuration. destruct inTxop; split; intros; try discriminate; lia. }
  destruct Hmax as [Hppdu Htxop].
  destruct (Z.ltb_spec bufferTxTime maxDuration) as [Hlt|Hge]; cbn [negb andb] in Hgive.
  - split; [lia|]. split; [lia|]. split; [intros Hin; specialize (Htxop Hin); lia|].
    left. reflexivity.
  - apply Z.ltb_ge in Hgive.
    split; [exact Hppdu|]. split; [exact Hge|]. split; [exact Htxop|].
    right. exact Hgive.
Qed.

Lemma uplink_grant_witness :
  exists duration : Z,
    ConvertHeTbPpduDurationToLSigLength (reporting_env 2 3000000) 512000
    = ConvertHeTbPpduDurationToLSigLength (reporting_env 2 3000000) duration
    /\ duration <= GetPpduMaxTime (reporting_env 2 3000000).
Proof.
  destruct (uplink_grant_is_bounded (reporting_env 2 3000000) idle_manager
              (mkRrOfdmaManager 1 [] []
                 (mkWifiTxVector [(1, mkRuSpec false RU_242_TONE 1)] 512)))
    as (_ & _ & _ & _ & _ & _ & _ & duration & Hlen & Hmax & _).
  - vm_compute. reflexivity.
  - exists duration. split; [exact Hlen | exact Hmax].
Defined.

Lemma SelectTxFormat_abandoned (env : Env) (m m' : RrOfdmaManager) (fmt : OfdmaTxFormat) :
  uplink_reuse env = true ->
  0 < buffer_estimate env m ->
  SelectTxFormat env m = Ok (fmt, m') ->
  grant_uplink env m (primary_ac env) (buffer_estimate env m) = (fmt, m').
Proof.
  unfold SelectTxFormat. intros -> Hpos H.
  destruct (ulPsduSize env =? 0); [discriminate|].
  destruct (GetAckSequenceForUlMu env _); [|discriminate].
  destruct (Z.gtb_spec (buffer_estimate env m) 0) as [_|Hzero]; [|lia].
  inversion H. reflexivity.
Qed.

(** X8: when the uplink path has a positive estimate but gives the uplink
    transmission up, for want of time, it answers DL_OFDMA with both batch
    vectors emptied, the cursor and the TX vector as they were, and
    ComputeDlOfdmaInfo then returns an allocation with no receiver: nothing
    is sent on that opportunity, and no station is examined for downlink. *)
Theorem abandoned_uplink_sends_nothing (env : Env) (m m' : RrOfdmaManager) :
  uplink_reuse env = true ->
  0 < buffer_estimate env m ->
  SelectTxFormat env m = Ok (DL_OFDMA, m') ->
  m' = clear_candidates m
  /\ ComputeDlOfdmaInfo env m' = Ok (mkDlOfdmaInfo [] (mkWifiTxVector [] 0), m').
Proof.
  intros Hreuse Hpos H.
  apply (SelectTxFormat_abandoned env m m' DL_OFDMA Hreuse Hpos) in H.
  unfold grant_uplink in H.
  assert (Hm : m' = clear_candidates m).
  { destruct (_ && _) in H; [inversion H; reflexivity|].
    destruct (_ && _) in H; [inversion H; reflexivity | discriminate]. }
  subst m'. split; reflexivity.
Qed.

Lemma abandoned_uplink_witness :
  SelectTxFormat (reporting_env 2 50000) idle_manager
  = Ok (DL_OFDMA, clear_candidates idle_manager)
  /\ ComputeDlOfdmaInfo (reporting_env 2 50000) (clear_candidates idle_manager)
     = Ok (mkDlOfdmaInfo [] (mkWifiTxVector [] 0), clear_candidates idle_manager).
Proof.
  split; [vm_compute; reflexivity|].
  apply (abandoned_uplink_sends_nothing (reporting_env 2 50000) idle_manager
           (clear_candidates idle_manager)).
  - vm_compute. reflexivity.
  - vm_compute. reflexivity.
  - vm_compute. reflexivity.
Defined.

(** * Further properties of the RU packer *)

Lemma classify_from (o1 b1 h1 : list Mac48Address) (data : list Candidate) :
  forall onoff bulksend http,
    classify o1 b1 h1 data onoff bulksend http
    = (onoff ++ filter (onoff_member o1 b1) data,
       bulksend ++ filter (bulksend_member b1) data,
       http ++ filter (http_member o1 b1 h1) data).
Proof.
  induction data as [|c data IH]; intros onoff bulksend http.
  - cbn. rewrite !app_nil_r. reflexivity.
  - cbn [classify filter]. unfold onoff_member, bulksend_member, http_member.
    destruct (listed b1 c); cbn [negb andb].
    + rewrite IH, <- app_assoc. reflexivity.
    + destruct (listed o1 c); cbn [negb andb].
      * rewrite IH, <- app_assoc. reflexivity.
      * destruct (listed h1 c).
        -- rewrite IH, <- app_assoc. reflexivity.
        -- apply IH.
Qed.

(** X9: the three classes are three order-preserving selections from the
    batch: a candidate named by bulksend1 is of the bulksend class whatever
    other list names it, one named by onoff1 and not by bulksend1 is of the
    onoff class, one named by http1 only is of the http class, and a
    candidate that no list names is in no class. *)
Theorem classes_are_selections (o1 b1 h1 : list Mac48Address) (data : list Candidate) :
  classify o1 b1 h1 data [] [] []
  = (filter (onoff_member o1 b1) data,
     filter (bulksend_member b1) data,
     filter (http_member o1 b1 h1) data).
Proof.
  apply (classify_from o1 b1 h1 data [] [] []).
Qed.

Lemma classes_partition (o1 b1 h1 : list Mac48Address) (data : list Candidate) :
  Permutation
    (filter (onoff_member o1 b1) data ++ filter (bulksend_member b1) data
     ++ filter (http_member o1 b1 h1) data)
    (filter (classed o1 b1 h1) data).
Proof.
  induction data as [|c data IH]; [constructor|].
  cbn [filter]. unfold onoff_member, bulksend_member, http_member, classed.
  destruct (listed b1 c); cbn [negb andb orb].
  - apply Permutation_sym, Permutation_cons_app, Permutation_sym. exact IH.
  - destruct (listed o1 c); cbn [negb andb orb].
    + constructor. exact IH.
    + destruct (listed h1 c).
      * apply Permutation_sym. rewrite app_assoc.
        apply Permutation_cons_app. rewrite <- app_assoc.
        apply Permutation_sym. exact IH.
      * exact IH.
Qed.

(** ** The mixed branch *)

Lemma give_26_shape (t : RuType) (fuel : nat) :
  forall cnt size it idx dataInfo ruAssigned cnt' size' it' idx' dataInfo' ruAssigned',
    give_26 fuel t cnt size it idx dataInfo ruAssigned
    = Ok (cnt', size', it', idx', dataInfo', ruAssigned') ->
    exists taken more,
      it = taken ++ it'
      /\ dataInfo' = dataInfo ++ taken
      /\ ruAssigned' = ruAssigned ++ more.
Proof.
  induction fuel as [|fuel IH]; intros cnt size it idx dataInfo ruAssigned
    cnt' size' it' idx' dataInfo' ruAssigned' H.
  - cbn [give_26] in H. destruct ((size >? 0) && (cnt >? 0)); [discriminate|].
    inversion H; subst. exists [], []. rewrite !app_nil_r. auto.
  - cbn [give_26] in H. destruct ((size >? 0) && (cnt >? 0)).
    + destruct it as [|c it]; [discriminate|]. cbn [take_next bind] in H.
      apply IH in H as (taken & more & Hit & Hd & Hr).
      exists (c :: taken), ((t, idx) :: more).
      rewrite Hit, Hd, Hr, <- !app_assoc. auto.
    + inversion H; subst. exists [], []. rewrite !app_nil_r. auto.
Qed.

Lemma first_member_shape (alloc : Reserved) (onoff bulk http : list Candidate)
  (b : Candidate) (e : Emission) :
  first_member RU_106_TONE RU_52_TONE RU_26_TONE alloc onoff (b :: bulk) http = Ok e ->
  exists taken1 taken3 entries,
    e_dataInfo e = b :: taken1 ++ taken3
    /\ onoff = taken1 ++ staInfoIt1 e
    /\ http = taken3 ++ staInfoIt3 e
    /\ staInfoIt2 e = bulk
    /\ e_ruAssigned e
       = ((if allocated106 alloc >? 0 then RU_106_TONE else RU_52_TONE), 1) :: entries.
Proof.
  unfold first_member. destruct (allocated106 alloc >? 0); cbn [take_next bind]; intros H.
  - inversion H; subst. emission_fields. exists [], [], []. auto.
  - apply bind_Ok in H as ([[[[[u size2] it1] in_] dataInfo] ruAssigned] & H1 & H).
    apply bind_Ok in H as ([[[[[u' size4] it3] in_'] dataInfo'] ruAssigned'] & H3 & H).
    apply give_26_shape in H1 as (taken1 & more1 & Hit1 & Hd1 & Hr1).
    apply give_26_shape in H3 as (taken3 & more3 & Hit3 & Hd3 & Hr3).
    inversion H; subst. emission_fields.
    exists taken1, taken3, (more1 ++ more3). auto.
Qed.

Lemma perm_interleave {A : Type} (A1 B1 A2 B2 A3 B3 : list A) :
  Permutation (A1 ++ B1 ++ A2 ++ B2 ++ A3 ++ B3) (A2 ++ A1 ++ A3 ++ B1 ++ B2 ++ B3).
Proof.
  transitivity (A1 ++ A2 ++ B1 ++ B2 ++ A3 ++ B3).
  { apply Permutation_app_head, Permutation_app_swap_app. }
  transitivity (A2 ++ A1 ++ B1 ++ B2 ++ A3 ++ B3).
  { apply Permutation_app_swap_app. }
  apply Permutation_app_head, Permutation_app_head.
  transitivity (B1 ++ A3 ++ B2 ++ B3).
  { apply Permutation_app_head, Permutation_app_swap_app. }
  apply Permutation_app_swap_app.
Qed.

Lemma remaining_units_perm (onoff bulksend http : list Candidate) (e : Emission) :
  mixed_inv onoff bulksend http e ->
  exists (more : list RuEntry) (rest : list Candidate),
    remaining_units RU_52_TONE RU_26_TONE e
    = Ok (e_ruAssigned e ++ more, e_dataInfo e ++ rest)
    /\ Permutation (staInfoIt1 e ++ staInfoIt2 e ++ staInfoIt3 e) rest.
Proof.
  intros (Hs2 & Hs3 & Hs4 & H52 & Hall & Hru).
  unfold remaining_units.
  set (n52 := Z.to_nat (e_allocated52 e)).
  assert (Hn52 : e_allocated52 e = Z.of_nat n52) by lia.
  assert (Hn52' : (n52 <= length (staInfoIt2 e))%nat)
    by (unfold size_of in Hs3; lia).
  destruct (give_52_spec RU_52_TONE n52 n52 (e_size3 e) 3 (staInfoIt2 e)
              (e_dataInfo e) (e_ruAssigned e) Hn52' (Nat.le_refl _))
    as (more52 & Hrun52 & Hlen52).
  rewrite <- Hn52 in Hrun52. rewrite Hrun52. cbn [bind].
  destruct (give_26_spec RU_26_TONE (Z.to_nat (e_allocated26 e))
              (e_allocated26 e) (e_size2 e) (if e_allocated52 e >? 0 then 8 else 6)
              (staInfoIt1 e) (e_dataInfo e ++ firstn n52 (staInfoIt2 e))
              (e_ruAssigned e ++ more52) Hs2 (Nat.le_refl _))
    as (k1 & more1 & Hk1 & Hrun1 & Hlen1).
  rewrite Hrun1. cbn [bind].
  destruct (give_26_spec RU_26_TONE (Z.to_nat (e_allocated26 e - Z.of_nat k1))
              (e_allocated26 e - Z.of_nat k1) (e_size4 e)
              ((if e_allocated52 e >? 0 then 8 else 6) + Z.of_nat k1)
              (staInfoIt3 e)
              ((e_dataInfo e ++ firstn n52 (staInfoIt2 e)) ++ firstn k1 (staInfoIt1 e))
              ((e_ruAssigned e ++ more52) ++ more1) Hs4 (Nat.le_refl _))
    as (k2 & more2 & Hk2 & Hrun2 & Hlen2).
  rewrite Hrun2. cbn [bind].
  rewrite (take_iter_all (skipn k1 (staInfoIt1 e)))
    by (rewrite size_of_skipn by exact Hk1; lia).
  cbn [bind].
  rewrite (take_iter_all (skipn n52 (staInfoIt2 e)))
    by (rewrite size_of_skipn by exact Hn52'; lia).
  cbn [bind].
  rewrite (take_iter_all (skipn k2 (staInfoIt3 e)))
    by (rewrite size_of_skipn by exact Hk2; lia).
  cbn [bind].
  exists (more52 ++ more1 ++ more2).
  exists (firstn n52 (staInfoIt2 e) ++ firstn k1 (staInfoIt1 e)
          ++ firstn k2 (staInfoIt3 e) ++ skipn k1 (staInfoIt1 e)
          ++ skipn n52 (staInfoIt2 e) ++ skipn k2 (staInfoIt3 e)).
  split; [rewrite <- !app_assoc; reflexivity|].
  set (A1 := firstn k1 (staInfoIt1 e)). set (B1 := skipn k1 (staInfoIt1 e)).
  set (A2 := firstn n52 (staInfoIt2 e)). set (B2 := skipn n52 (staInfoIt2 e)).
  set (A3 := firstn k2 (staInfoIt3 e)). set (B3 := skipn k2 (staInfoIt3 e)).
  rewrite <- (firstn_skipn k1 (staInfoIt1 e)), <- (firstn_skipn n52 (staInfoIt2 e)),
    <- (firstn_skipn k2 (staInfoIt3 e)).
  fold A1 B1 A2 B2 A3 B3.
  rewrite <- !app_assoc. apply perm_interleave.
Qed.

Lemma perm_first_member {A : Type} (b : A) (t1 it1 bulk t3 it3 : list A) :
  Permutation ((t1 ++ it1) ++ (b :: bulk) ++ t3 ++ it3)
              ((b :: t1 ++ t3) ++ it1 ++ bulk ++ it3).
Proof.
  cbn [app]. apply Permutation_sym, Permutation_cons_app.
  rewrite <- !app_assoc. apply Permutation_app_head.
  rewrite (app_assoc it1 bulk (t3 ++ it3)), (app_assoc it1 bulk it3).
  apply Permutation_app_swap_app.
Qed.

Lemma odd_26_inv (onoff bulksend http : list Candidate) (k26 : Z) (e : Emission) :
  0 <= k26 <= size_of http ->
  e_allocated26 e = size_of onoff + k26 ->
  (staInfoIt1 e = [] -> size_of onoff = 0) ->
  staInfoIt3 e = http ->
  mixed_inv onoff bulksend http e ->
  exists (e' : Emission) (extra : list Candidate) (more : list RuEntry),
    odd_26 RU_26_TONE e = Ok e'
    /\ mixed_inv onoff bulksend http e'
    /\ e_dataInfo e' = e_dataInfo e ++ extra
    /\ e_ruAssigned e' = e_ruAssigned e ++ more
    /\ Permutation (staInfoIt1 e ++ staInfoIt2 e ++ staInfoIt3 e)
         (extra ++ staInfoIt1 e' ++ staInfoIt2 e' ++ staInfoIt3 e').
Proof.
  intros Hk26 Ha26 Hzero Hit3 Hinv.
  destruct (Z.odd (e_allocated26 e)) eqn:Hodd.
  - destruct (odd_26_odd e) as
      (c & e' & Hrun & Hru & Hdata & Hit & Hit2 & Hsz3 & H52 & H26 & Heven).
    + apply Hinv.
    + eapply odd_needs_http; eassumption.
    + exact Hodd.
    + exists e', [c], [(RU_26_TONE, 5)].
      split; [exact Hrun|]. split; [|split; [exact Hdata|split; [exact Hru|]]].
      * destruct Hinv as (Hs2 & Hs3 & Hs4 & Hb52 & Hall & Hlen).
        unfold mixed_inv. rewrite Hru, Hdata, Hit2, Hsz3, H52, !length_app.
        cbn [length].
        destruct (staInfoIt1 e) as [|c1 it1] eqn:Hit1.
        -- destruct Hit as (Hit3' & Hit1' & Hsz2 & Hsz4).
           rewrite Hit1', Hsz2, Hsz4, Hs2, Hs4, Hit3'. rewrite Hit3' in Hall.
           rewrite size_of_cons. cbn [length] in *.
           repeat split; lia.
        -- destruct Hit as (_ & Hit1' & Hit3' & Hsz2 & Hsz4).
           rewrite Hit1', Hit3', Hsz2, Hsz4, Hs2, Hs4.
           rewrite size_of_cons. cbn [length] in *.
           repeat split; lia.
      * rewrite Hit2. destruct (staInfoIt1 e) as [|c1 it1] eqn:Hit1.
        -- destruct Hit as (Hit3' & Hit1' & _). rewrite Hit1', Hit3'.
           cbn [app]. apply Permutation_sym, Permutation_middle.
        -- destruct Hit as (Hc & Hit1' & Hit3' & _). rewrite Hit1', Hit3', Hc.
           apply Permutation_refl.
  - exists e, [], []. rewrite !app_nil_r.
    split; [exact (odd_26_even e Hodd)|]. split; [exact Hinv|].
    split; [reflexivity|]. split; [reflexivity|]. apply Permutation_refl.
Qed.

Lemma mixed_branch_full (onoff bulk http : list Candidate) (b : Candidate) :
  size_of onoff <= 7 ->
  exists (others : list Candidate) (entries : list RuEntry),
    mixed_branch onoff (b :: bulk) http
    = Ok (((if size_of onoff <=? 5 then RU_106_TONE else RU_52_TONE), 1) :: entries,
          b :: others)
    /\ Permutation (onoff ++ (b :: bulk) ++ http) (b :: others)
    /\ (length entries <= length others)%nat.
Proof.
  intros H7.
  assert (Hbulk : b :: bulk <> []) by discriminate.
  destruct (first_member_spec onoff (b :: bulk) http H7 Hbulk)
    as (a106 & a52 & k26 & e & Hres & Hk26 & Hfirst & Ha26 & Hinv & Hzero & Hit3).
  assert (Htype : (a106 >? 0) = (size_of onoff <=? 5)).
  { pose proof (size_of_nonneg onoff) as Hon.
    pose proof (size_of_nonneg bulk) as Hbk.
    pose proof (size_of_nonneg http) as Hht.
    destruct (reserve_spec (size_of onoff) (size_of (b :: bulk)) (size_of http))
      as (a106' & a52' & k26' & Hres' & _ & Hcase);
      [lia | rewrite size_of_cons; lia | lia |].
    rewrite Hres in Hres'. inversion Hres'; subst a106'.
    destruct Hcase as [(H5 & -> & _)|(H6 & -> & _)].
    - symmetry. apply Z.leb_le in H5. rewrite H5. reflexivity.
    - symmetry. apply Z.leb_gt. lia. }
  destruct (first_member_shape _ _ _ _ _ _ Hfirst)
    as (taken1 & taken3 & entries0 & Hd0 & Hon & Hht & Hit2 & Hru0).
  cbn [allocated106] in Hru0. rewrite Htype in Hru0.
  destruct (odd_26_inv onoff (b :: bulk) http k26 e Hk26 Ha26 Hzero Hit3 Hinv)
    as (e' & extra & more1 & Hodd & Hinv' & Hd1 & Hru1 & Hperm1).
  destruct (remaining_units_perm onoff (b :: bulk) http e' Hinv')
    as (more2 & rest & Hrem & Hperm2).
  destruct (mixed_branch_returns onoff (b :: bulk) http H7 Hbulk)
    as (ru & d & Hrun & Hlen & Hle).
  assert (Hrun' : mixed_branch onoff (b :: bulk) http
                  = Ok (e_ruAssigned e' ++ more2, e_dataInfo e' ++ rest)).
  { rewrite mixed_branch_unfold, Hres. cbn [bind]. rewrite Hfirst. cbn [bind].
    rewrite Hodd. cbn [bind]. exact Hrem. }
  rewrite Hrun' in Hrun. inversion Hrun; subst ru d. clear Hrun.
  rewrite Hru1, Hru0, Hd1, Hd0 in Hrun', Hle.
  cbn [app] in Hrun', Hle.
  eexists. eexists. split; [exact Hrun'|]. split.
  - rewrite Hon at 1. rewrite Hht at 1.
    etransitivity; [apply perm_first_member|].
    cbn [app]. constructor. rewrite <- !app_assoc.
    apply Permutation_app_head, Permutation_app_head.
    rewrite <- Hit2.
    etransitivity; [exact Hperm1|].
    apply Permutation_app_head. exact Hperm2.
  - cbn [length] in Hle. lia.
Qed.

(** X10: at least two class members, one of them of the bulksend class, and at
    most seven of the onoff class: the packer always returns, every class
    member is in the rewritten batch exactly once and the candidates that
    no list names are left out of it, the batch starts with a bulksend
    member whose pending frame is the largest of its class, the first RU is
    the 106-tone one when there are at most five onoff members and a
    52-tone one else, both of index 1, and there are no more RU entries than
    candidates in the batch. *)
Theorem mixed_branch_serves_every_class_member (groups : RuTable)
  (o1 b1 h1 : list Mac48Address) (bandwidth nStations : Z) (data : list Candidate) :
  filter (bulksend_member b1) data <> [] ->
  (1 < length (filter (classed o1 b1 h1) data))%nat ->
  (length (filter (onoff_member o1 b1) data) <= 7)%nat ->
  exists (b : Candidate) (others : list Candidate) (entries : list RuEntry),
    GetNumberAndTypeOfRus groups o1 b1 h1 bandwidth nStations data
    = Ok (((if (length (filter (onoff_member o1 b1) data) <=? 5)%nat
            then RU_106_TONE else RU_52_TONE), 1) :: entries,
          b :: others)
    /\ Permutation (filter (classed o1 b1 h1) data) (b :: others)
    /\ bulksend_member b1 b = true
    /\ (forall c, In c data -> bulksend_member b1 c = true -> get1 c <= get1 b)
    /\ (length entries <= length others)%nat.
Proof.
  intros Hbulk Htotal Hseven.
  pose proof (classify_from o1 b1 h1 data [] [] []) as Hcl. cbn [app] in Hcl.
  set (onoff := filter (onoff_member o1 b1) data) in *.
  set (bulksend := filter (bulksend_member b1) data) in *.
  set (http := filter (http_member o1 b1 h1) data) in *.
  destruct (GetNumberAndTypeOfRus_branches groups o1 b1 h1 bandwidth nStations
              data onoff bulksend http Hcl)
    as (onoff' & bulksend' & http' & Hso & Hsb & Hsh & Heq).
  rewrite Heq. clear Heq.
  pose proof (classes_partition o1 b1 h1 data) as Hpart.
  fold onoff bulksend http in Hpart.
  assert (Hlen : length (filter (classed o1 b1 h1) data)
                 = (length onoff + length bulksend + length http)%nat).
  { rewrite <- (Permutation_length Hpart), !length_app. lia. }
  assert (Hcond : (size_of bulksend =? 0)
                  || (size_of onoff + size_of bulksend + size_of http <=? 1) = false).
  { unfold size_of. apply orb_false_iff. split.
    - apply Z.eqb_neq. destruct bulksend; [contradiction | cbn [length]; lia].
    - apply Z.leb_gt. lia. }
  rewrite Hcond.
  assert (Hsize : (size_of onoff >? 7) = false).
  { unfold size_of. rewrite Z.gtb_ltb. apply Z.ltb_ge. lia. }
  rewrite Hsize.
  destruct Hsb as (Hsorted & Hperm & _).
  destruct bulksend' as [|b bulk].
  { apply Permutation_length in Hperm. destruct bulksend; [contradiction|discriminate]. }
  destruct (mixed_branch_full onoff' bulk http' b) as (others & entries & Hrun & Hall & Hle).
  { rewrite (stably_sorted_size onoff onoff' Hso). unfold size_of. lia. }
  exists b, others, entries.
  rewrite (stably_sorted_size onoff onoff' Hso) in Hrun.
  assert (Hif : (size_of onoff <=? 5) = (length onoff <=? 5)%nat).
  { unfold size_of. destruct (Nat.leb_spec (length onoff) 5).
    - apply Z.leb_le. lia.
    - apply Z.leb_gt. lia. }
  rewrite Hif in Hrun. split; [exact Hrun|].
  assert (Hin : forall c, In c bulksend <-> In c (b :: bulk)).
  { intros c. split; apply Permutation_in; [|apply Permutation_sym]; exact Hperm. }
  split; [|split; [|split; [|exact Hle]]].
  - etransitivity; [apply Permutation_sym; exact Hpart|].
    etransitivity; [|exact Hall].
    destruct Hso as (_ & Hpo & _). destruct Hsh as (_ & Hph & _).
    apply Permutation_app; [exact Hpo|]. apply Permutation_app; assumption.
  - assert (Hb : In b bulksend) by (apply Hin; left; reflexivity).
    apply filter_In in Hb. apply Hb.
  - intros c Hc Hmember.
    assert (Hcb : In c (b :: bulk)) by (apply Hin, filter_In; auto).
    destruct Hcb as [->|Hcb]; [lia|].
    apply StronglySorted_inv in Hsorted as [_ Hfor].
    rewrite Forall_forall in Hfor. exact (Hfor c Hcb).
Qed.

Lemma mixed_branch_witness :
  exists (b : Candidate) (others : list Candidate) (entries : list RuEntry),
    GetNumberAndTypeOfRus heRuSubcarrierGroups_11ax (addresses 100 7)
      (addresses 200 1) (addresses 300 2) 20 10 crowded_batch
    = Ok ((RU_52_TONE, 1) :: entries, b :: others)
    /\ Permutation (filter (classed (addresses 100 7) (addresses 200 1) (addresses 300 2))
                      crowded_batch) (b :: others).
Proof.
  destruct (mixed_branch_serves_every_class_member heRuSubcarrierGroups_11ax
              (addresses 100 7) (addresses 200 1) (addresses 300 2) 20 10 crowded_batch)
    as (b & others & entries & Hrun & Hperm & _).
  - vm_compute. discriminate.
  - vm_compute. lia.
  - vm_compute. lia.
  - exists b, others, entries. split; [exact Hrun | exact Hperm].
Defined.

(** ** The uniform branch *)

Lemma RuType_eqb_eq (t1 t2 : RuType) : RuType_eqb t1 t2 = true <-> t1 = t2.
Proof.
  destruct t1, t2; cbn; split; intros H; try reflexivity; discriminate.
Qed.

Lemma groups_at_unique (groups pre post : RuTable) (e : (Z * RuType) * nat) :
  NoDup (map fst groups) ->
  groups = pre ++ e :: post ->
  groups_at groups (fst (fst e)) (snd (fst e)) = Ok (snd e).
Proof.
  intros Hnd ->. unfold groups_at.
  induction pre as [|e' pre IH]; cbn [app find map] in *.
  - rewrite Z.eqb_refl. cbn [andb].
    rewrite (proj2 (RuType_eqb_eq _ _) eq_refl). reflexivity.
  - inversion Hnd as [|k ks Hnot Hnd']; subst.
    destruct ((fst (fst e') =? fst (fst e))
              && RuType_eqb (snd (fst e')) (snd (fst e))) eqn:Hsame.
    + exfalso. apply Hnot.
      apply andb_prop in Hsame as [Hbw Ht].
      apply Z.eqb_eq in Hbw. apply RuType_eqb_eq in Ht.
      rewrite map_app. apply in_or_app. right. left.
      destruct e' as [[bw' t'] n'], e as [[bw t] n]. cbn in *. congruence.
    + apply IH. exact Hnd'.
Qed.

(** X11: no bulksend member in the batch, or one class member at most, on a
    channel that is not 160 MHz wide and a table with one entry per
    bandwidth and RU type: when the packer returns, the RU entries are
    those of one RU type that the table lists for the bandwidth, one per
    group and at least one, they are no more than the stations asked for,
    and the rewritten batch holds every class member once and no other
    candidate. *)
Theorem uniform_entries_within_request (groups : RuTable)
  (o1 b1 h1 : list Mac48Address) (bandwidth nStations : Z) (data : list Candidate)
  (ruAssigned : list RuEntry) (dataInfo : list Candidate) :
  table_ok groups = true ->
  NoDup (map fst groups) ->
  bandwidth <> 160 ->
  filter (bulksend_member b1) data = []
  \/ (length (filter (classed o1 b1 h1) data) <= 1)%nat ->
  GetNumberAndTypeOfRus groups o1 b1 h1 bandwidth nStations data
    = Ok (ruAssigned, dataInfo) ->
  (exists t : RuType,
      In ((bandwidth, t), length ruAssigned) groups
      /\ ruAssigned = uniform_entries t (length ruAssigned))
  /\ 1 <= Z.of_nat (length ruAssigned) <= nStations
  /\ Permutation (filter (classed o1 b1 h1) data) dataInfo.
Proof.
  intros Hok Hnd Hbw Hdeg Hrun.
  pose proof (classify_from o1 b1 h1 data [] [] []) as Hcl. cbn [app] in Hcl.
  set (onoff := filter (onoff_member o1 b1) data) in *.
  set (bulksend := filter (bulksend_member b1) data) in *.
  set (http := filter (http_member o1 b1 h1) data) in *.
  destruct (GetNumberAndTypeOfRus_branches groups o1 b1 h1 bandwidth nStations
              data onoff bulksend http Hcl)
    as (onoff' & bulksend' & http' & Hso & Hsb & Hsh & Heq).
  rewrite Heq in Hrun. clear Heq.
  pose proof (classes_partition o1 b1 h1 data) as Hpart.
  fold onoff bulksend http in Hpart.
  assert (Hcond : (size_of bulksend =? 0)
                  || (size_of onoff + size_of bulksend + size_of http <=? 1) = true).
  { unfold size_of. destruct Hdeg as [->|Hle].
    - reflexivity.
    - apply orb_true_iff. right. apply Z.leb_le.
      rewrite <- (Permutation_length Hpart), !length_app in Hle. lia. }
  rewrite Hcond in Hrun. unfold degenerate_branch in Hrun.
  apply bind_Ok in Hrun as (t & Htype & Hrun).
  apply bind_Ok in Hrun as (ru & Hone & Hrun).
  inversion Hrun; subst. clear Hrun.
  unfold one_per_group in Hone.
  apply bind_Ok in Hone as (slots & Hat & Hone). inversion Hone; subst. clear Hone.
  fold (uniform_entries t slots).
  assert (Hlen : length (uniform_entries t slots) = slots).
  { unfold uniform_entries. rewrite length_map, length_seq. reflexivity. }
  rewrite Hlen.
  destruct (uniform_type_spec groups bandwidth nStations t Hok Htype)
    as [(pre & e & post & Hgroups & _ & Hfits & Ht)|(_ & H160 & _)];
    [|contradiction].
  unfold fits in Hfits.
  destruct (Z.eqb_spec bandwidth 160) as [|_]; [contradiction|].
  cbn [andb] in Hfits. rewrite orb_false_r in Hfits.
  apply andb_prop in Hfits as [Hkey Hle].
  apply Z.eqb_eq in Hkey. apply Z.leb_le in Hle.
  pose proof (groups_at_unique groups pre post e Hnd Hgroups) as Hat'.
  rewrite Hkey, Ht, Hat in Hat'. inversion Hat' as [Hslots].
  pose proof (table_ok_entry groups pre post e Hok Hgroups) as Hrange.
  split; [|split].
  - exists t. split; [|reflexivity].
    rewrite Hgroups. apply in_or_app. right. left.
    destruct e as [[bw t'] n]. cbn in *. subst. reflexivity.
  - lia.
  - etransitivity; [apply Permutation_sym; exact Hpart|].
    destruct Hso as (_ & Hpo & _). destruct Hsb as (_ & Hpb & _).
    destruct Hsh as (_ & Hph & _).
    apply Permutation_app; [exact Hpo|]. apply Permutation_app; assumption.
Qed.

Lemma uniform_entries_witness :
  GetNumberAndTypeOfRus heRuSubcarrierGroups_11ax (addresses 100 4) [] [] 20 4
    (batch 100 4 100)
  = Ok (uniform_entries RU_52_TONE 4, batch 100 4 100)
  /\ 1 <= Z.of_nat (length (uniform_entries RU_52_TONE 4)) <= 4.
Proof.
  split; [vm_compute; reflexivity|].
  apply (uniform_entries_within_request heRuSubcarrierGroups_11ax (addresses 100 4)
           [] [] 20 4 (batch 100 4 100) (uniform_entries RU_52_TONE 4)
           (batch 100 4 100)).
  - vm_compute. reflexivity.
  - vm_compute. repeat (constructor; [cbn; intuition congruence|]). constructor.
  - lia.
  - left. vm_compute. reflexivity.
  - vm_compute. reflexivity.
Defined.

(** * The reservation and the odd 26-tone unit *)

Lemma reserve_accounts (size2 size3 size4 : Z) :
  0 <= size2 <= 7 -> 1 <= size3 -> 0 <= size4 ->
  exists k106 k52 k26,
    reserve size2 size3 size4 = Ok (mkReserved k106 k52 (size2 + k26))
    /\ ((k106 = 1 /\ 106 <= 242 - 26 * size2) \/ (k106 = 0 /\ 242 - 26 * size2 < 106))
    /\ 0 <= k52 <= size3 - k106
    /\ 0 <= k26 <= size4
    /\ 106 * k106 + 52 * k52 + 26 * k26 <= 242 - 26 * size2
    /\ (k52 = size3 - k106 \/ 242 - 26 * size2 - 106 * k106 - 52 * k52 < 52)
    /\ (k26 = size4 \/ 242 - 26 * size2 - 106 * k106 - 52 * k52 - 26 * k26 < 26).
Proof.
  intros H2 H3 H4. unfold reserve, initial_budget.
  destruct (Z.geb_spec (242 - 26 * size2) 106) as [Ha|Ha];
    (destruct (Z.gtb_spec size3 0) as [Hs|Hs]; [|lia]); cbn [andb].
  - destruct (reserve_units_spec (Z.to_nat (242 - 26 * size2 - 106)) 52 ltac:(lia)
                (242 - 26 * size2 - 106) (size3 - 1) 0 ltac:(lia))
      as (k52 & Hk52 & Hrun52 & Hle52 & Hstop52).
    rewrite Hrun52. cbn [bind].
    destruct (reserve_units_spec (Z.to_nat (242 - 26 * size2 - 106 - k52 * 52)) 26
                ltac:(lia) (242 - 26 * size2 - 106 - k52 * 52) size4 size2 ltac:(lia))
      as (k26 & Hk26 & Hrun26 & Hle26 & Hstop26).
    rewrite Hrun26. cbn [bind].
    exists 1, k52, k26.
    split; [f_equal; f_equal; lia|]. repeat split; lia.
  - destruct (reserve_units_spec (Z.to_nat (242 - 26 * size2)) 52 ltac:(lia)
                (242 - 26 * size2) size3 0 ltac:(lia))
      as (k52 & Hk52 & Hrun52 & Hle52 & Hstop52).
    rewrite Hrun52. cbn [bind].
    destruct (reserve_units_spec (Z.to_nat (242 - 26 * size2 - k52 * 52)) 26
                ltac:(lia) (242 - 26 * size2 - k52 * 52) size4 size2 ltac:(lia))
      as (k26 & Hk26 & Hrun26 & Hle26 & Hstop26).
    rewrite Hrun26. cbn [bind].
    exists 0, k52, k26.
    split; [f_equal; f_equal; lia|]. repeat split; lia.
Qed.

Lemma give_26_entries (t : RuType) (fuel : nat) :
  forall cnt size it idx dataInfo ruAssigned cnt' size' it' idx' dataInfo' ruAssigned',
    give_26 fuel t cnt size it idx dataInfo ruAssigned
    = Ok (cnt', size', it', idx', dataInfo', ruAssigned') ->
    exists more,
      ruAssigned' = ruAssigned ++ more
      /\ Forall (fun entry => fst entry = t /\ idx <= snd entry < idx') more
      /\ idx <= idx'
      /\ cnt' = cnt - (idx' - idx)
      /\ (0 <= cnt -> 0 <= cnt').
Proof.
  induction fuel as [|fuel IH]; intros cnt size it idx dataInfo ruAssigned
    cnt' size' it' idx' dataInfo' ruAssigned' H.
  - cbn [give_26] in H. destruct ((size >? 0) && (cnt >? 0)); [discriminate|].
    inversion H; subst. exists []. rewrite app_nil_r.
    split; [reflexivity|]. split; [constructor|]. lia.
  - cbn [give_26] in H. destruct ((size >? 0) && (cnt >? 0)) eqn:Hcond.
    + destruct it as [|c it]; [discriminate|]. cbn [take_next bind] in H.
      apply andb_prop in Hcond as [_ Hcnt]. apply Z.gtb_lt in Hcnt.
      apply IH in H as (more & Hr & Hall & Hidx & Hc & Hpos).
      exists ((t, idx) :: more). rewrite Hr, <- app_assoc.
      split; [reflexivity|]. split.
      * constructor; [cbn; split; [reflexivity | lia]|].
        eapply Forall_impl; [|exact Hall]. cbn. intros entry [Ht Hi]. split; [exact Ht | lia].
      * lia.
    + inversion H; subst. exists []. rewrite app_nil_r.
      split; [reflexivity|]. split; [constructor|]. lia.
Qed.

Lemma give_52_entries (t : RuType) (fuel : nat) :
  forall allocated52 size3 it2 in1 dataInfo ruAssigned
         allocated52' size3' it2' dataInfo' ruAssigned',
    give_52 fuel t allocated52 size3 it2 in1 dataInfo ruAssigned
    = Ok (allocated52', size3', it2', dataInfo', ruAssigned') ->
    exists more,
      ruAssigned' = ruAssigned ++ more /\ Forall (fun entry => fst entry = t) more.
Proof.
  induction fuel as [|fuel IH]; intros allocated52 size3 it2 in1 dataInfo ruAssigned
    allocated52' size3' it2' dataInfo' ruAssigned' H.
  - cbn [give_52] in H. destruct (allocated52 >? 0); [discriminate|].
    inversion H; subst. exists []. rewrite app_nil_r. split; [reflexivity | constructor].
  - cbn [give_52] in H. destruct (allocated52 >? 0).
    + destruct it2 as [|c it2]; [discriminate|]. cbn [take_next bind] in H.
      apply IH in H as (more & Hr & Hall).
      exists ((t, in1) :: more). rewrite Hr, <- app_assoc.
      split; [reflexivity|]. constructor; [reflexivity | exact Hall].
    + inversion H; subst. exists []. rewrite app_nil_r. split; [reflexivity | constructor].
Qed.

Lemma first_member_without_5 (alloc : Reserved) (onoff bulksend http : list Candidate)
  (e : Emission) :
  first_member RU_106_TONE RU_52_TONE RU_26_TONE alloc onoff bulksend http = Ok e ->
  ~ In (RU_26_TONE, 5) (e_ruAssigned e).
Proof.
  unfold first_member. destruct (allocated106 alloc >? 0); intros H.
  - apply bind_Ok in H as ([c it2] & _ & H). inversion H; subst. emission_fields.
    cbn. intros [Heq|[]]. discriminate.
  - apply bind_Ok in H as ([c it2] & _ & H).
    apply bind_Ok in H as ([[[[[u size2] it1] in_] dataInfo] ruAssigned] & H1 & H).
    apply bind_Ok in H as ([[[[[u' size4] it3] in_'] dataInfo'] ruAssigned'] & H3 & H).
    apply give_26_entries in H1 as (more1 & Hr1 & Hall1 & Hidx1 & Hu & Hpos).
    apply give_26_entries in H3 as (more3 & Hr3 & Hall3 & Hidx3 & Hu' & Hpos').
    inversion H; subst. emission_fields.
    intros [Heq|Hin]; [discriminate|]. apply in_app_or in Hin as [Hin|Hin].
    + rewrite Forall_forall in Hall1. apply Hall1 in Hin. cbn in Hin. lia.
    + rewrite Forall_forall in Hall3. apply Hall3 in Hin. cbn in Hin. lia.
Qed.

Lemma remaining_units_without_5 (e : Emission) (ruAssigned : list RuEntry)
  (dataInfo : list Candidate) :
  remaining_units RU_52_TONE RU_26_TONE e = Ok (ruAssigned, dataInfo) ->
  exists more, ruAssigned = e_ruAssigned e ++ more /\ ~ In (RU_26_TONE, 5) more.
Proof.
  unfold remaining_units. intros H.
  apply bind_Ok in H as ([[[[a52 size3] it2] d1] ru1] & H52 & H).
  apply bind_Ok in H as ([[[[[a26 size2] it1] in2] d2] ru2] & H26 & H).
  apply bind_Ok in H as ([[[[[a26' size4] it3] in2'] d3] ru3] & H26' & H).
  apply bind_Ok in H as ([rest1 x1] & _ & H).
  apply bind_Ok in H as ([rest2 x2] & _ & H).
  apply bind_Ok in H as ([rest3 x3] & _ & H).
  inversion H; subst. clear H.
  apply give_52_entries in H52 as (more52 & -> & Hall52).
  apply give_26_entries in H26 as (more26 & -> & Hall26 & Hidx & _ & _).
  apply give_26_entries in H26' as (more26' & -> & Hall26' & _ & _ & _).
  exists (more52 ++ more26 ++ more26'). rewrite <- !app_assoc.
  split; [reflexivity|].
  assert (Hsix : 6 <= (if e_allocated52 e >? 0 then 8 else 6))
    by (destruct (e_allocated52 e >? 0); lia).
  intros Hin. apply in_app_or in Hin as [Hin|Hin].
  - rewrite Forall_forall in Hall52. apply Hall52 in Hin. discriminate.
  - apply in_app_or in Hin as [Hin|Hin].
    + rewrite Forall_forall in Hall26. apply Hall26 in Hin. cbn in Hin. lia.
    + rewrite Forall_forall in Hall26'. apply Hall26' in Hin. cbn in Hin. lia.
Qed.

(** C8: in the mixed branch the reservation works on the tone budget
    242 - 26 * size2 that is left once every member of the class the claim
    calls class 2, the onoff class that the code counts in [size2], has its
    26 tones: one 106-tone unit exactly when the budget has 106 tones, then
    52-tone units for bulksend members and 26-tone units for http members,
    as many as the rest of the budget and the class allow, so that
    [allocated26] is [size2] plus the latter.  The assignment to the first
    member returns, leaves [allocated26] as reserved and hands out no
    26-tone unit of index 5.  When that count is odd, exactly one more
    candidate, the next of the onoff class if one remains and else the next
    of the http class (class 3 of the claim), is given the 26-tone unit of
    index 5, which makes the count even, and the sequence returned has that
    entry, at the position of that candidate in the batch returned, and no
    other entry like it.  With an even count the sequence returned has no
    26-tone unit of index 5. *)
Theorem odd_allocated26_takes_index_5 (onoff bulksend http : list Candidate) :
  size_of onoff <= 7 ->
  bulksend <> [] ->
  exists (k106 k52 k26 : Z) (e : Emission)
         (ruAssigned : list RuEntry) (dataInfo : list Candidate),
    reserve (size_of onoff) (size_of bulksend) (size_of http)
    = Ok (mkReserved k106 k52 (size_of onoff + k26))
    /\ ((k106 = 1 /\ 106 <= 242 - 26 * size_of onoff)
        \/ (k106 = 0 /\ 242 - 26 * size_of onoff < 106))
    /\ 0 <= k52 <= size_of bulksend - k106
    /\ 0 <= k26 <= size_of http
    /\ 106 * k106 + 52 * k52 + 26 * k26 <= 242 - 26 * size_of onoff
    /\ (k52 = size_of bulksend - k106
        \/ 242 - 26 * size_of onoff - 106 * k106 - 52 * k52 < 52)
    /\ (k26 = size_of http
        \/ 242 - 26 * size_of onoff - 106 * k106 - 52 * k52 - 26 * k26 < 26)
    /\ first_member RU_106_TONE RU_52_TONE RU_26_TONE
         (mkReserved k106 k52 (size_of onoff + k26)) onoff bulksend http = Ok e
    /\ e_allocated26 e = size_of onoff + k26
    /\ ~ In (RU_26_TONE, 5) (e_ruAssigned e)
    /\ length (e_ruAssigned e) = length (e_dataInfo e)
    /\ mixed_branch onoff bulksend http = Ok (ruAssigned, dataInfo)
    /\ (Z.odd (e_allocated26 e) = true ->
        exists (c : Candidate) (e' : Emission) (more : list RuEntry)
               (rest : list Candidate),
          odd_26 RU_26_TONE e = Ok e'
          /\ e_ruAssigned e' = e_ruAssigned e ++ [(RU_26_TONE, 5)]
          /\ e_dataInfo e' = e_dataInfo e ++ [c]
          /\ match staInfoIt1 e with
             | c1 :: it1 =>
                 c = c1 /\ staInfoIt1 e' = it1 /\ staInfoIt3 e' = staInfoIt3 e
             | [] =>
                 staInfoIt3 e = c :: staInfoIt3 e' /\ staInfoIt1 e' = []
             end
          /\ staInfoIt2 e' = staInfoIt2 e
          /\ e_allocated52 e' = e_allocated52 e
          /\ e_allocated26 e' = e_allocated26 e - 1
          /\ Z.even (e_allocated26 e') = true
          /\ ruAssigned = e_ruAssigned e ++ (RU_26_TONE, 5) :: more
          /\ dataInfo = e_dataInfo e ++ c :: rest
          /\ ~ In (RU_26_TONE, 5) more)
    /\ (Z.odd (e_allocated26 e) = false ->
        odd_26 RU_26_TONE e = Ok e /\ ~ In (RU_26_TONE, 5) ruAssigned).
Proof.
  intros H7 Hbulk.
  destruct (first_member_spec onoff bulksend http H7 Hbulk)
    as (a106 & a52 & k26 & e & Hres & Hk26 & Hfirst & Ha26 & Hinv & Hzero & Hit3).
  pose proof (size_of_nonneg onoff) as Hon.
  assert (Hb : 1 <= size_of bulksend).
  { destruct bulksend; [contradiction | rewrite size_of_cons].
    pose proof (size_of_nonneg bulksend). lia. }
  destruct (reserve_accounts (size_of onoff) (size_of bulksend) (size_of http))
    as (k106 & k52 & k26' & Hres' & Hc106 & Hc52 & Hc26 & Hsum & Hmax52 & Hmax26);
    [lia | exact Hb | apply size_of_nonneg |].
  rewrite Hres in Hres'. inversion Hres' as [[H106 H52 H26]].
  assert (k26' = k26) by lia. subst a106 a52 k26'. clear Hres'.
  destruct (odd_26_inv onoff bulksend http k26 e Hk26 Ha26 Hzero Hit3 Hinv)
    as (e1 & extra & more1 & Hodd1 & Hinv1 & Hd1 & Hru1 & _).
  destruct (remaining_units_perm onoff bulksend http e1 Hinv1)
    as (more2 & rest & Hrem & _).
  pose proof (remaining_units_without_5 _ _ _ Hrem) as (more & Hmore & Hno5).
  apply app_inv_head in Hmore. subst more2.
  pose proof (first_member_without_5 _ _ _ _ _ Hfirst) as Hfirst5.
  assert (Hrun : mixed_branch onoff bulksend http
                 = Ok (e_ruAssigned e1 ++ more, e_dataInfo e1 ++ rest)).
  { rewrite mixed_branch_unfold, Hres. cbn [bind]. rewrite Hfirst. cbn [bind].
    rewrite Hodd1. cbn [bind]. exact Hrem. }
  exists k106, k52, k26, e, (e_ruAssigned e1 ++ more), (e_dataInfo e1 ++ rest).
  split; [exact Hres|]. split; [exact Hc106|]. split; [exact Hc52|].
  split; [exact Hc26|]. split; [exact Hsum|]. split; [exact Hmax52|].
  split; [exact Hmax26|]. split; [exact Hfirst|]. split; [exact Ha26|].
  split; [exact Hfirst5|].
  split; [destruct Hinv as (_ & _ & _ & _ & _ & Hlen); exact Hlen|].
  split; [exact Hrun|]. split.
  - intros Hodd.
    destruct (odd_26_odd e)
      as (c & e' & Hrun' & Hru & Hdata & Hit & Hit2 & _ & H52' & H26' & Heven).
    + apply Hinv.
    + eapply odd_needs_http; eassumption.
    + exact Hodd.
    + rewrite Hodd1 in Hrun'. inversion Hrun'; subst e'.
      exists c, e1, more, rest.
      split; [exact Hodd1|]. split; [exact Hru|]. split; [exact Hdata|].
      split; [destruct (staInfoIt1 e); intuition|].
      split; [exact Hit2|]. split; [exact H52'|]. split; [exact H26'|].
      split; [exact Heven|].
      rewrite Hru, Hdata, <- !app_assoc. cbn [app]. auto.
  - intros Heven. pose proof (odd_26_even e Heven) as Hsame.
    split; [exact Hsame|].
    rewrite Hodd1 in Hsame. inversion Hsame; subst e1.
    intros Hin. apply in_app_or in Hin as [Hin|Hin]; contradiction.
Qed.

Lemma odd_allocated26_witness :
  exists (ruAssigned : list RuEntry) (dataInfo : list Candidate),
    mixed_branch (batch 100 7 50) (batch 200 1 60) (batch 300 2 70)
    = Ok (ruAssigned, dataInfo)
    /\ In (RU_26_TONE, 5) ruAssigned.
Proof.
  destruct (odd_allocated26_takes_index_5 (batch 100 7 50) (batch 200 1 60)
              (batch 300 2 70))
    as (k106 & k52 & k26 & e & ruAssigned & dataInfo & _ & Hc106 & Hc52 & Hc26 & Hsum
        & Hmax52 & _ & _ & Ha26 & _ & _ & Hrun & Hodd & _).
  - vm_compute. discriminate.
  - discriminate.
  - change (size_of (batch 100 7 50)) with 7 in *.
    change (size_of (batch 200 1 60)) with 1 in *.
    change (size_of (batch 300 2 70)) with 2 in *.
    assert (Hk26 : k26 = 0) by lia. rewrite Hk26 in Ha26.
    exists ruAssigned, dataInfo. split; [exact Hrun|].
    destruct Hodd as (c & e' & more & rest & _ & _ & _ & _ & _ & _ & _ & _ & Hru & _).
    + rewrite Ha26. reflexivity.
    + rewrite Hru. apply in_or_app. right. left. reflexivity.
Defined.

(** * The uniform branch on 20, 40 and 80 MHz *)

Lemma first_fit_at (bandwidth nStations : Z) (e : (Z * RuType) * nat) (post : RuTable) :
  bandwidth <> 160 ->
  fits bandwidth nStations e = true ->
  forall pre : RuTable,
    forallb (fun e' => negb (fits bandwidth nStations e')) pre = true ->
    first_fit (pre ++ e :: post) bandwidth nStations
    = Some (snd (fst e), Z.of_nat (snd e) mod 256).
Proof.
  intros Hbw Hfits.
  assert (Hwide : (bandwidth =? 160) = false) by (apply Z.eqb_neq; exact Hbw).
  induction pre as [|[[bw t] n] pre IH]; intros Hpre; cbn [app first_fit].
  - destruct e as [[bw t] n]. unfold fits in Hfits. cbn [fst snd] in *.
    rewrite Hwide in *. cbn [andb] in *. rewrite orb_false_r in Hfits.
    rewrite Hfits. reflexivity.
  - cbn [forallb] in Hpre. apply andb_prop in Hpre as [Hnot Hpre].
    unfold fits in Hnot. cbn [fst snd] in Hnot. rewrite Hwide in *.
    cbn [andb] in *. rewrite orb_false_r in Hnot.
    apply negb_true_iff in Hnot. rewrite Hnot. exact (IH Hpre).
Qed.

Lemma first_fit_nowhere (bandwidth nStations : Z) :
  forall groups : RuTable,
    forallb (fun e' => negb (fits bandwidth nStations e')) groups = true ->
    first_fit groups bandwidth nStations = None.
Proof.
  induction groups as [|[[bw t] n] groups IH]; intros Hall; cbn [first_fit].
  - reflexivity.
  - cbn [forallb] in Hall. apply andb_prop in Hall as [Hnot Hall].
    unfold fits in Hnot. cbn [fst snd] in Hnot.
    apply negb_true_iff, orb_false_iff in Hnot as [H1 H2].
    rewrite H1, H2. exact (IH Hall).
Qed.

Lemma degenerate_condition (onoff bulksend http : list Candidate) :
  bulksend = [] \/ (length onoff + length bulksend + length http <= 1)%nat ->
  (size_of bulksend =? 0)
  || (size_of onoff + size_of bulksend + size_of http <=? 1) = true.
Proof.
  unfold size_of. intros [->|Hle].
  - reflexivity.
  - apply orb_true_iff. right. apply Z.leb_le. lia.
Qed.

(** C4, as the code has it, on a bandwidth other than 160 MHz.  When
    the bulksend class is empty or the three classes have one member at
    most, the packer takes the first entry of the table, in its order, that
    is for the current bandwidth and has no more groups than stations were
    asked for: it returns one RU entry of the type of that entry per group
    of that entry, with the indices 1, 2, ..., and the batch reordered as
    the sorted onoff, bulksend and http classes.  When no entry of the
    table is for the bandwidth with so few groups, the assertion of the
    branch fails.  A single candidate on 20, 40 or 80 MHz gets, from the
    802.11ax table, exactly one entry, the RU of the whole band. *)
Theorem degenerate_branch_takes_first_fit :
  (forall (groups pre post : RuTable) (e : (Z * RuType) * nat)
          (o1 b1 h1 : list Mac48Address)
          (bandwidth nStations : Z) (data onoff bulksend http : list Candidate),
      table_ok groups = true ->
      NoDup (map fst groups) ->
      bandwidth <> 160 ->
      classify o1 b1 h1 data [] [] [] = (onoff, bulksend, http) ->
      bulksend = [] \/ (length onoff + length bulksend + length http <= 1)%nat ->
      groups = pre ++ e :: post ->
      forallb (fun e' => negb (fits bandwidth nStations e')) pre = true ->
      fits bandwidth nStations e = true ->
      fst (fst e) = bandwidth
      /\ 1 <= Z.of_nat (snd e) <= nStations
      /\ exists onoff' bulksend' http',
           stably_sorted onoff onoff'
           /\ stably_sorted bulksend bulksend'
           /\ stably_sorted http http'
           /\ GetNumberAndTypeOfRus groups o1 b1 h1 bandwidth nStations data
              = Ok (uniform_entries (snd (fst e)) (snd e),
                    onoff' ++ bulksend' ++ http'))
  /\ (forall (groups : RuTable) (o1 b1 h1 : list Mac48Address)
             (bandwidth nStations : Z) (data onoff bulksend http : list Candidate),
        bandwidth <> 160 ->
        classify o1 b1 h1 data [] [] [] = (onoff, bulksend, http) ->
        bulksend = [] \/ (length onoff + length bulksend + length http <= 1)%nat ->
        forallb (fun e' => negb (fits bandwidth nStations e')) groups = true ->
        GetNumberAndTypeOfRus groups o1 b1 h1 bandwidth nStations data
        = Fault AssertFailed)
  /\ (forall (o1 b1 h1 : list Mac48Address) (c : Candidate) (bandwidth : Z),
        bandwidth = 20 \/ bandwidth = 40 \/ bandwidth = 80 ->
        exists dataInfo,
          GetNumberAndTypeOfRus heRuSubcarrierGroups_11ax o1 b1 h1 bandwidth 1 [c]
          = Ok ([(whole_band bandwidth, 1)], dataInfo)).
Proof.
  split; [|split; [|apply degenerate_single_11ax]].
  - intros groups pre post e o1 b1 h1 bandwidth nStations data onoff bulksend http
           Hok Hnd Hbw Hcl Hdeg Hgroups Hpre Hfits.
    pose proof (table_ok_entry groups pre post e Hok Hgroups) as Hrange.
    assert (Hkey : fst (fst e) = bandwidth /\ Z.of_nat (snd e) <= nStations).
    { unfold fits in Hfits. destruct (Z.eqb_spec bandwidth 160); [contradiction|].
      cbn [andb] in Hfits. rewrite orb_false_r in Hfits.
      apply andb_prop in Hfits as [H1 H2].
      apply Z.eqb_eq in H1. apply Z.leb_le in H2. auto. }
    destruct Hkey as [Hkey Hle]. split; [exact Hkey|]. split; [lia|].
    destruct (GetNumberAndTypeOfRus_branches groups o1 b1 h1 bandwidth nStations
                data onoff bulksend http Hcl)
      as (onoff' & bulksend' & http' & Hso & Hsb & Hsh & Heq).
    exists onoff', bulksend', http'.
    split; [exact Hso|]. split; [exact Hsb|]. split; [exact Hsh|].
    rewrite Heq, (degenerate_condition _ _ _ Hdeg). clear Heq.
    pose proof (groups_at_unique groups pre post e Hnd Hgroups) as Hat.
    rewrite Hkey in Hat.
    assert (Hff : first_fit groups bandwidth nStations
                  = Some (snd (fst e), Z.of_nat (snd e))).
    { rewrite Hgroups, (first_fit_at bandwidth nStations e post Hbw Hfits pre Hpre).
      rewrite Z.mod_small by lia. reflexivity. }
    unfold degenerate_branch, uniform_type. rewrite Hff.
    destruct (Z.eqb_spec (Z.of_nat (snd e)) 0) as [Hzero|_]; [lia|].
    cbn [bind]. unfold one_per_group. rewrite Hat. reflexivity.
  - intros groups o1 b1 h1 bandwidth nStations data onoff bulksend http
           Hbw Hcl Hdeg Hnone.
    destruct (GetNumberAndTypeOfRus_branches groups o1 b1 h1 bandwidth nStations
                data onoff bulksend http Hcl)
      as (onoff' & bulksend' & http' & _ & _ & _ & Heq).
    rewrite Heq, (degenerate_condition _ _ _ Hdeg). clear Heq.
    unfold degenerate_branch, uniform_type.
    rewrite (first_fit_nowhere bandwidth nStations groups Hnone).
    cbn [Z.eqb]. destruct (Z.eqb_spec bandwidth 160); [contradiction|].
    reflexivity.
Qed.

Lemma degenerate_first_fit_witness :
  (exists onoff' bulksend' http',
      GetNumberAndTypeOfRus heRuSubcarrierGroups_11ax (addresses 100 4) [] [] 20 4
        (batch 100 4 100)
      = Ok (uniform_entries RU_52_TONE 4, onoff' ++ bulksend' ++ http'))
  /\ GetNumberAndTypeOfRus heRuSubcarrierGroups_11ax (addresses 100 4) [] [] 20 0
       (batch 100 4 100)
     = Fault AssertFailed
  /\ (exists dataInfo,
        GetNumberAndTypeOfRus heRuSubcarrierGroups_11ax [] [] [] 40 1 (batch 100 1 100)
        = Ok ([(RU_484_TONE, 1)], dataInfo)).
Proof.
  destruct degenerate_branch_takes_first_fit as (Hfirst & Hnone & Hsingle).
  split; [|split].
  - destruct (Hfirst heRuSubcarrierGroups_11ax [((20, RU_26_TONE), 9%nat)]
                (skipn 2 heRuSubcarrierGroups_11ax) ((20, RU_52_TONE), 4%nat)
                (addresses 100 4) [] [] 20 4 (batch 100 4 100)
                (batch 100 4 100) [] [])
      as (_ & _ & onoff' & bulksend' & http' & _ & _ & _ & Hrun).
    + vm_compute. reflexivity.
    + vm_compute. repeat (constructor; [cbn; intuition congruence|]). constructor.
    + lia.
    + vm_compute. reflexivity.
    + left. reflexivity.
    + reflexivity.
    + vm_compute. reflexivity.
    + vm_compute. reflexivity.
    + exists onoff', bulksend', http'. exact Hrun.
  - apply (Hnone heRuSubcarrierGroups_11ax (addresses 100 4) [] [] 20 0
             (batch 100 4 100) (batch 100 4 100) [] []).
    + lia.
    + vm_compute. reflexivity.
    + left. reflexivity.
    + vm_compute. reflexivity.
  - apply (Hsingle [] [] [] (100 + 1, 100, mkDlPerStaInfo (100 + 1) 0) 40).
    right. left. reflexivity.
Defined.

(** * The overflow branch *)

Lemma take_iter_short (n : nat) :
  forall it : list Candidate,
    (length it < n)%nat -> take_iter n it = Fault BadAccess.
Proof.
  induction n as [|n IH]; intros it Hlen; [lia|].
  destruct it as [|c it]; [reflexivity|].
  cbn [take_iter take_next bind]. rewrite IH by (cbn in Hlen; lia). reflexivity.
Qed.

Lemma overflow_condition (onoff bulksend http : list Candidate) :
  (7 < length onoff)%nat -> bulksend <> [] ->
  (size_of bulksend =? 0)
  || (size_of onoff + size_of bulksend + size_of http <=? 1) = false
  /\ (size_of onoff >? 7) = true.
Proof.
  intros H7 Hbulk. unfold size_of. split.
  - apply orb_false_iff. split; [apply Z.eqb_neq | apply Z.leb_gt]; [|lia].
    destruct bulksend; [contradiction | cbn [length]; lia].
  - rewrite Z.gtb_ltb. apply Z.ltb_lt. lia.
Qed.

(** With more than seven onoff candidates and fewer bulksend candidates
    than that, none of them missing, the second copying loop of the
    overflow branch, which runs as many turns as there are onoff
    candidates, reads past the end of the bulksend class. *)
Lemma overflow_branch_short_bulksend (groups : RuTable)
  (o1 b1 h1 : list Mac48Address) (bandwidth nStations : Z)
  (data onoff bulksend http : list Candidate) :
  classify o1 b1 h1 data [] [] [] = (onoff, bulksend, http) ->
  (7 < length onoff)%nat ->
  bulksend <> [] ->
  (length bulksend < length onoff)%nat ->
  GetNumberAndTypeOfRus groups o1 b1 h1 bandwidth nStations data = Fault BadAccess.
Proof.
  intros Hcl H7 Hbulk Hshort.
  destruct (GetNumberAndTypeOfRus_branches groups o1 b1 h1 bandwidth nStations
              data onoff bulksend http Hcl)
    as (onoff' & bulksend' & http' & Hs2 & Hs3 & Hs4 & Heq).
  destruct (overflow_condition onoff bulksend http H7 Hbulk) as [Hc1 Hc2].
  rewrite Heq, Hc1, Hc2. unfold overflow_branch.
  rewrite (stably_sorted_size _ _ Hs2). unfold size_of at 1. rewrite Nat2Z.id.
  rewrite take_iter_short; [reflexivity|].
  pose proof (stably_sorted_size _ _ Hs3) as Hsz. unfold size_of in Hsz. lia.
Qed.

(** C5, as the code has it.  When the onoff class has more than seven
    members and the bulksend class at least as many, whatever the http
    class holds, the packer takes the overflow branch: the RU type is
    that of the first entry of the whole table, and when the table lists
    that type for the current bandwidth the packer returns one entry of it
    per group listed there, with the indices 1, 2, ..., and the batch
    reordered as the sorted onoff class, as many members of the sorted
    bulksend class as there are onoff members, and the sorted http class.
    On the 802.11ax table the type is the 26-tone unit, and 20, 40 and
    80 MHz get 9, 18 and 37 entries. *)
Theorem overflow_branch_takes_first_entry :
  (forall (groups rest : RuTable) (o1 b1 h1 : list Mac48Address)
          (bandwidth nStations bw0 : Z) (t0 : RuType) (n0 slots : nat)
          (data onoff bulksend http : list Candidate),
      NoDup (map fst groups) ->
      classify o1 b1 h1 data [] [] [] = (onoff, bulksend, http) ->
      (7 < length onoff)%nat ->
      (length onoff <= length bulksend)%nat ->
      groups = ((bw0, t0), n0) :: rest ->
      In ((bandwidth, t0), slots) groups ->
      exists onoff' bulksend' http',
        stably_sorted onoff onoff'
        /\ stably_sorted bulksend bulksend'
        /\ stably_sorted http http'
        /\ GetNumberAndTypeOfRus groups o1 b1 h1 bandwidth nStations data
           = Ok (uniform_entries t0 slots,
                 onoff' ++ firstn (length onoff) bulksend' ++ http'))
  /\ (forall (o1 b1 h1 : list Mac48Address) (bandwidth nStations : Z)
             (data onoff bulksend http : list Candidate),
        classify o1 b1 h1 data [] [] [] = (onoff, bulksend, http) ->
        (7 < length onoff)%nat ->
        (length onoff <= length bulksend)%nat ->
        bandwidth = 20 \/ bandwidth = 40 \/ bandwidth = 80 ->
        exists onoff' bulksend' http',
          stably_sorted onoff onoff'
          /\ stably_sorted bulksend bulksend'
          /\ stably_sorted http http'
          /\ GetNumberAndTypeOfRus heRuSubcarrierGroups_11ax o1 b1 h1 bandwidth
               nStations data
             = Ok (uniform_entries RU_26_TONE
                     (if bandwidth =? 20 then 9 else if bandwidth =? 40 then 18 else 37),
                   onoff' ++ firstn (length onoff) bulksend' ++ http')).
Proof.
  assert (Hgeneral :
            forall (groups rest : RuTable) (o1 b1 h1 : list Mac48Address)
                   (bandwidth nStations bw0 : Z) (t0 : RuType) (n0 slots : nat)
                   (data onoff bulksend http : list Candidate),
              NoDup (map fst groups) ->
              classify o1 b1 h1 data [] [] [] = (onoff, bulksend, http) ->
              (7 < length onoff)%nat ->
              (length onoff <= length bulksend)%nat ->
              groups = ((bw0, t0), n0) :: rest ->
              In ((bandwidth, t0), slots) groups ->
              exists onoff' bulksend' http',
                stably_sorted onoff onoff'
                /\ stably_sorted bulksend bulksend'
                /\ stably_sorted http http'
                /\ GetNumberAndTypeOfRus groups o1 b1 h1 bandwidth nStations data
                   = Ok (uniform_entries t0 slots,
                         onoff' ++ firstn (length onoff) bulksend' ++ http')).
  { intros groups rest o1 b1 h1 bandwidth nStations bw0 t0 n0 slots
           data onoff bulksend http Hnd Hcl H7 Hlen Hg Hin.
    destruct (GetNumberAndTypeOfRus_branches groups o1 b1 h1 bandwidth nStations
                data onoff bulksend http Hcl)
      as (onoff' & bulksend' & http' & Hs2 & Hs3 & Hs4 & Heq).
    exists onoff', bulksend', http'.
    split; [exact Hs2|]. split; [exact Hs3|]. split; [exact Hs4|].
    assert (Hbulk : bulksend <> []) by (destruct bulksend; [cbn in Hlen; lia | discriminate]).
    destruct (overflow_condition onoff bulksend http H7 Hbulk) as [Hc1 Hc2].
    rewrite Heq, Hc1, Hc2. clear Heq. unfold overflow_branch.
    rewrite (stably_sorted_size _ _ Hs2). unfold size_of at 1. rewrite Nat2Z.id.
    rewrite take_iter_firstn.
    2:{ pose proof (stably_sorted_size _ _ Hs3) as Hsz. unfold size_of in Hsz. lia. }
    cbn [bind].
    assert (Hat : groups_at groups bandwidth t0 = Ok slots).
    { destruct (in_split _ _ Hin) as (pre & post & Hsplit).
      exact (groups_at_unique groups pre post ((bandwidth, t0), slots) Hnd Hsplit). }
    rewrite Hg. rewrite <- Hg. unfold one_per_group. rewrite Hat. reflexivity. }
  split; [exact Hgeneral|].
  intros o1 b1 h1 bandwidth nStations data onoff bulksend http Hcl H7 Hlen Hbw.
  apply (Hgeneral heRuSubcarrierGroups_11ax (tl heRuSubcarrierGroups_11ax)
           o1 b1 h1 bandwidth nStations 20 RU_26_TONE 9%nat _ data onoff bulksend http);
    try assumption; try reflexivity.
  - unfold heRuSubcarrierGroups_11ax. cbn [map fst].
    repeat (constructor; [cbn; intuition congruence|]). constructor.
  - destruct Hbw as [ -> | [ -> | -> ] ]; cbn; auto 20.
Qed.

Lemma overflow_first_entry_witness :
  exists onoff' bulksend' http',
    GetNumberAndTypeOfRus heRuSubcarrierGroups_11ax (addresses 100 8)
      (addresses 200 8) [] 40 16 overflow_batch
    = Ok (uniform_entries RU_26_TONE 18,
          onoff' ++ firstn 8 bulksend' ++ http').
Proof.
  destruct overflow_branch_takes_first_entry as [_ Hreal].
  destruct (Hreal (addresses 100 8) (addresses 200 8) [] 40 16 overflow_batch
              (batch 100 8 50) (batch 200 8 60) [])
    as (onoff' & bulksend' & http' & _ & _ & _ & Hrun).
  - reflexivity.
  - cbn. lia.
  - cbn. lia.
  - right. left. reflexivity.
  - exists onoff', bulksend', http'. exact Hrun.
Defined.

(** * Further properties of ComputeDlOfdmaInfo *)

Lemma map_find_assign_same {V : Type} (k : Z) (v : V) (m : list (Z * V)) :
  map_find k (map_assign k v m) = Some v.
Proof.
  induction m as [|[k' v'] m IH]; cbn [map_assign map_find].
  - rewrite Z.eqb_refl. reflexivity.
  - destruct (Z.ltb_spec k k'); cbn [map_find].
    + rewrite Z.eqb_refl. reflexivity.
    + destruct (Z.eqb_spec k k'); cbn [map_find].
      * rewrite Z.eqb_refl. reflexivity.
      * destruct (Z.eqb_spec k' k); [congruence | exact IH].
Qed.

Lemma map_find_assign_other {V : Type} (k k2 : Z) (v : V) (m : list (Z * V)) :
  k2 <> k -> map_find k2 (map_assign k v m) = map_find k2 m.
Proof.
  intros Hneq. induction m as [|[k' v'] m IH]; cbn [map_assign map_find].
  - destruct (Z.eqb_spec k k2); [congruence | reflexivity].
  - destruct (Z.ltb_spec k k'); cbn [map_find].
    + destruct (Z.eqb_spec k k2); [congruence | reflexivity].
    + destruct (Z.eqb_spec k k'); cbn [map_find].
      * subst k'. destruct (Z.eqb_spec k k2); [congruence | reflexivity].
      * destruct (Z.eqb_spec k' k2); [reflexivity | exact IH].
Qed.

Lemma map_insert_In {V : Type} (k : Z) (v : V) (m : list (Z * V)) :
  ~ In k (map fst m) ->
  forall x, In x (map_insert k v m) <-> x = (k, v) \/ In x m.
Proof.
  intros Hnot x. induction m as [|[k' v'] m IH]; cbn [map_insert].
  - cbn. intuition.
  - cbn [map In fst] in Hnot.
    destruct (Z.ltb_spec k k'); [cbn; intuition|].
    destruct (Z.eqb_spec k k'); [exfalso; apply Hnot; left; congruence|].
    cbn [In]. rewrite IH by tauto. tauto.
Qed.

Lemma map_insert_fresh_length {V : Type} (k : Z) (v : V) (m : list (Z * V)) :
  ~ In k (map fst m) -> length (map_insert k v m) = S (length m).
Proof.
  intros Hnot. induction m as [|[k' v'] m IH]; cbn [map_insert]; [reflexivity|].
  cbn [map In fst] in Hnot.
  destruct (Z.ltb_spec k k'); [reflexivity|].
  destruct (Z.eqb_spec k k'); [exfalso; apply Hnot; left; congruence|].
  cbn [length]. rewrite IH by tauto. reflexivity.
Qed.

Lemma map_insert_sorted {V : Type} (k : Z) (v : V) (m : list (Z * V)) :
  StronglySorted (fun x y => fst x < fst y) m ->
  StronglySorted (fun x y => fst x < fst y) (map_insert k v m).
Proof.
  induction 1 as [|[k' v'] m Hsorted IH Hall]; cbn [map_insert].
  - repeat constructor.
  - destruct (Z.ltb_spec k k').
    + constructor; [constructor; assumption|].
      constructor; [exact H|].
      eapply Forall_impl; [|exact Hall]. cbn. intros; lia.
    + destruct (Z.eqb_spec k k'); [constructor; assumption|].
      constructor; [exact IH|].
      apply Forall_forall. intros x Hx.
      assert (Hcases : x = (k, v) \/ In x m).
      { clear - Hx. induction m as [|[k2 v2] m IHm]; cbn [map_insert] in Hx.
        - destruct Hx as [<-|[]]. left. reflexivity.
        - destruct (k <? k2); [destruct Hx; auto|].
          destruct (k =? k2); [right; exact Hx|].
          destruct Hx as [<-|Hx]; [right; left; reflexivity|].
          destruct (IHm Hx); [left | right; right]; assumption. }
      destruct Hcases as [->|Hin]; [cbn; lia|].
      rewrite Forall_forall in Hall. exact (Hall x Hin).
Qed.

Lemma collect_receivers_ok (n : nat) :
  forall (staInfoIt : list Candidate) (receivers : list (Mac48Address * DlPerStaInfo)),
    (n <= length staInfoIt)%nat ->
    NoDup (map get0 (firstn n staInfoIt)) ->
    (forall c, In c (firstn n staInfoIt) -> ~ In (get0 c) (map fst receivers)) ->
    StronglySorted (fun x y => fst x < fst y) receivers ->
    exists receivers',
      collect_receivers n staInfoIt receivers = Ok (receivers', skipn n staInfoIt)
      /\ StronglySorted (fun x y => fst x < fst y) receivers'
      /\ length receivers' = (length receivers + n)%nat
      /\ forall r, In r receivers'
                   <-> In r receivers \/ In r (map sta_entry (firstn n staInfoIt)).
Proof.
  induction n as [|n IH]; intros staInfoIt receivers Hlen Hnd Hfresh Hsorted.
  - exists receivers. cbn. split; [reflexivity|]. split; [exact Hsorted|].
    split; [lia | tauto].
  - destruct staInfoIt as [|c staInfoIt]; [cbn in Hlen; lia|].
    cbn [firstn map] in Hnd, Hfresh. inversion Hnd as [|a l Hc Hnd']; subst.
    assert (Hcfresh : ~ In (get0 c) (map fst receivers))
      by (apply Hfresh; left; reflexivity).
    destruct (IH staInfoIt (map_insert (get0 c) (get2 c) receivers))
      as (receivers' & Hrun & Hsorted' & Hlen' & Hin').
    + cbn in Hlen. lia.
    + exact Hnd'.
    + intros c' Hc' Hin. apply in_map_iff in Hin as ([k v] & Hk & Hin).
      cbn in Hk. subst k.
      apply (map_insert_In _ _ _ Hcfresh) in Hin as [Heq|Hin].
      * inversion Heq as [[Hkey Hval]]. apply Hc. rewrite <- Hkey.
        apply in_map. exact Hc'.
      * apply (Hfresh c'); [right; exact Hc'|].
        apply in_map_iff. exists (get0 c', v). auto.
    + apply map_insert_sorted. exact Hsorted.
    + exists receivers'. cbn [collect_receivers skipn].
      split; [exact Hrun|]. split; [exact Hsorted'|].
      split; [rewrite Hlen', (map_insert_fresh_length _ _ _ Hcfresh);
              unfold Mac48Address; lia|].
      intros r. rewrite Hin'. rewrite (map_insert_In _ _ _ Hcfresh).
      cbn [firstn map In]. unfold sta_entry at 2. intuition.
Qed.

Lemma collect_receivers_short (n : nat) :
  forall (staInfoIt : list Candidate) (receivers : list (Mac48Address * DlPerStaInfo)),
    (length staInfoIt < n)%nat ->
    collect_receivers n staInfoIt receivers = Fault AssertFailed.
Proof.
  induction n as [|n IH]; intros staInfoIt receivers Hlen; [lia|].
  destruct staInfoIt as [|c staInfoIt]; [reflexivity|].
  cbn [collect_receivers]. apply IH. cbn in Hlen. lia.
Qed.

Lemma assign_rus_ok (primary : bool) (n : nat) :
  forall (mapIt : list (Mac48Address * DlPerStaInfo)) (ruIt : list RuEntry)
         (users : list (Z * RuSpec)),
    length mapIt = n ->
    (n <= length ruIt)%nat ->
    exists users',
      assign_rus primary n mapIt ruIt users = Ok ([], skipn n ruIt, users')
      /\ (forall k, ~ In k (map (fun r => aid (snd r)) mapIt) ->
                    map_find k users' = map_find k users)
      /\ (NoDup (map (fun r => aid (snd r)) mapIt) ->
          Forall (fun p => map_find (aid (snd (fst p))) users'
                           = Some (mkRuSpec primary (fst (snd p)) (snd (snd p))))
                 (combine mapIt ruIt)).
Proof.
  induction n as [|n IH]; intros mapIt ruIt users Hlen Hru.
  - destruct mapIt; [|discriminate]. exists users. cbn.
    split; [reflexivity|]. split; [reflexivity | constructor].
  - destruct mapIt as [|[address info] mapIt]; [discriminate|].
    destruct ruIt as [|[t i] ruIt]; [cbn in Hru; lia|].
    cbn [assign_rus skipn].
    destruct (IH mapIt ruIt (map_assign (aid info) (mkRuSpec primary t i) users))
      as (users' & Hrun & Hother & Hsame);
      [cbn in Hlen; lia | cbn in Hru; lia |].
    exists users'. split; [exact Hrun|]. split.
    + intros k Hk. cbn [map In snd] in Hk.
      rewrite Hother by tauto. apply map_find_assign_other.
      intros ->. apply Hk. left. reflexivity.
    + intros Hnd. cbn [map snd] in Hnd. inversion Hnd as [|a l Hfresh Hnd']; subst.
      cbn [combine]. constructor; [|exact (Hsame Hnd')].
      cbn [fst snd]. rewrite Hother by exact Hfresh.
      apply map_find_assign_same.
Qed.

Lemma init_user_infos_keys (staList : list (Mac48Address * DlPerStaInfo)) :
  forall (ruIt : list RuEntry) (users : list (Z * RuSpec)) (k : Z),
    ~ In k (map (fun r => aid (snd r)) staList) ->
    map_find k (init_user_infos staList ruIt users) = map_find k users.
Proof.
  induction staList as [|[address info] staList IH]; intros ruIt users k Hk.
  - reflexivity.
  - cbn [init_user_infos]. destruct ruIt as [|[t i] ruIt]; [reflexivity|].
    cbn [map In snd] in Hk. rewrite IH by tauto.
    apply map_find_assign_other. intros ->. apply Hk. left. reflexivity.
Qed.

Lemma ComputeDlOfdmaInfo_unfold (env : Env) (m : RrOfdmaManager)
  (ruAssigned : list RuEntry) (dataInfo : list Candidate) :
  m_staInfo m <> [] ->
  GetNumberAndTypeOfRus (heRuSubcarrierGroups env) (onoff1 env) (bulksend1 env)
    (http1 env) (GetChannelWidth env) (size_of (m_dataInfo m)) (m_dataInfo m)
    = Ok (ruAssigned, dataInfo) ->
  ComputeDlOfdmaInfo env m
  = ('(receivers, staInfoIt) <- collect_receivers (length ruAssigned) dataInfo [] ;;
     startStation <-
       (if Z.of_nat (length ruAssigned) <? size_of dataInfo then
          match staInfoIt with
          | [] => Fault AssertFailed
          | c :: _ => Ok (aid (get2 c))
          end
        else Ok (m_startStation m)) ;;
     users <- assign_halves (if GetChannelWidth env =? 160 then [true; false] else [true])
                (length ruAssigned) receivers ruAssigned
                (GetHeMuUserInfoMap (InitTxVectorAndParams receivers ruAssigned)) ;;
     Ok (mkDlOfdmaInfo receivers
           (mkWifiTxVector users (GetLength (InitTxVectorAndParams receivers ruAssigned))),
         mkRrOfdmaManager startStation dataInfo (m_staInfo m)
           (mkWifiTxVector users
              (GetLength (InitTxVectorAndParams receivers ruAssigned))))).
Proof.
  intros Hsta Hpack. unfold ComputeDlOfdmaInfo.
  destruct (m_staInfo m) as [|s0 rest]; [contradiction|].
  rewrite Hpack. reflexivity.
Qed.

(** X12: on a channel that is not 160 MHz wide, when the packer returns no
    more RU entries than the batch has candidates and the candidates served
    have pairwise different addresses, ComputeDlOfdmaInfo returns.  Its
    receivers are the first candidates of the rewritten batch, one per RU
    entry, held by increasing address; the TX vector has no user that is
    not a receiver, and, the AIDs being different, the RU entry of each
    position goes to the receiver at that position in the order of the
    addresses, marked primary.  The batch member is the rewritten batch,
    and the cursor moves to the first candidate left without an RU, if
    any. *)
Theorem finalizer_serves_by_address (env : Env) (m : RrOfdmaManager)
  (ruAssigned : list RuEntry) (dataInfo : list Candidate) :
  m_staInfo m <> [] ->
  GetChannelWidth env <> 160 ->
  GetNumberAndTypeOfRus (heRuSubcarrierGroups env) (onoff1 env) (bulksend1 env)
    (http1 env) (GetChannelWidth env) (size_of (m_dataInfo m)) (m_dataInfo m)
    = Ok (ruAssigned, dataInfo) ->
  (length ruAssigned <= length dataInfo)%nat ->
  NoDup (map get0 (firstn (length ruAssigned) dataInfo)) ->
  exists (info : DlOfdmaInfo) (m' : RrOfdmaManager),
    ComputeDlOfdmaInfo env m = Ok (info, m')
    /\ (forall r, In r (staInfo info)
                  <-> In r (map sta_entry (firstn (length ruAssigned) dataInfo)))
    /\ StronglySorted (fun x y => fst x < fst y) (staInfo info)
    /\ length (staInfo info) = length ruAssigned
    /\ (forall k, ~ In k (map (fun r => aid (snd r)) (staInfo info)) ->
                  map_find k (GetHeMuUserInfoMap (txVector info)) = None)
    /\ (NoDup (map (fun r => aid (snd r)) (staInfo info)) ->
        Forall (fun p => map_find (aid (snd (fst p))) (GetHeMuUserInfoMap (txVector info))
                         = Some (mkRuSpec true (fst (snd p)) (snd (snd p))))
               (combine (staInfo info) ruAssigned))
    /\ m_dataInfo m' = dataInfo
    /\ m_staInfo m' = m_staInfo m
    /\ m_txVector m' = txVector info
    /\ m_startStation m'
       = match nth_error dataInfo (length ruAssigned) with
         | Some c => aid (get2 c)
         | None => m_startStation m
         end.
Proof.
  intros Hsta Hbw Hpack Hle Hnd.
  rewrite (ComputeDlOfdmaInfo_unfold env m ruAssigned dataInfo Hsta Hpack).
  destruct (collect_receivers_ok (length ruAssigned) dataInfo [] Hle Hnd)
    as (receivers & Hrun & Hsorted & Hlen & Hin).
  { intros c _ []. }
  { constructor. }
  rewrite Hrun. cbn [bind]. cbn [length Nat.add] in Hlen.
  assert (Hstart : exists startStation,
             (if Z.of_nat (length ruAssigned) <? size_of dataInfo then
                match skipn (length ruAssigned) dataInfo with
                | [] => Fault AssertFailed
                | c :: _ => Ok (aid (get2 c))
                end
              else Ok (m_startStation m)) = Ok startStation
             /\ startStation = match nth_error dataInfo (length ruAssigned) with
                               | Some c => aid (get2 c)
                               | None => m_startStation m
                               end).
  { pose proof (nth_error_skipn (length ruAssigned) dataInfo 0) as Hnth.
    rewrite Nat.add_0_r in Hnth. rewrite <- Hnth.
    unfold size_of. destruct (Z.ltb_spec (Z.of_nat (length ruAssigned))
                                (Z.of_nat (length dataInfo))) as [Hlt|Hge].
    - destruct (skipn (length ruAssigned) dataInfo) as [|c rest] eqn:Hskip.
      + exfalso. apply (f_equal (@length _)) in Hskip.
        rewrite length_skipn in Hskip. cbn in Hskip. lia.
      + eexists. split; reflexivity.
    - assert (Hnil : skipn (length ruAssigned) dataInfo = [])
        by (apply skipn_all2; lia).
      rewrite Hnil. eexists. split; reflexivity. }
  destruct Hstart as (startStation & -> & Hcursor). cbn [bind].
  destruct (Z.eqb_spec (GetChannelWidth env) 160) as [|_]; [contradiction|].
  cbn [assign_halves].
  destruct (assign_rus_ok true (length ruAssigned) receivers ruAssigned
              (GetHeMuUserInfoMap (InitTxVectorAndParams receivers ruAssigned))
              Hlen (Nat.le_refl _))
    as (users & Hassign & Hother & Hsame).
  rewrite Hassign. cbn [bind].
  eexists. eexists. split; [reflexivity|].
  cbn [staInfo txVector GetHeMuUserInfoMap m_dataInfo m_staInfo m_txVector m_startStation].
  split; [intros r; rewrite Hin; cbn [In]; tauto|].
  split; [exact Hsorted|]. split; [exact Hlen|].
  split.
  { intros k Hk. rewrite (Hother k Hk). cbn [InitTxVectorAndParams GetHeMuUserInfoMap].
    rewrite init_user_infos_keys by exact Hk. reflexivity. }
  split; [exact Hsame|].
  repeat (split; [reflexivity|]). exact Hcursor.
Qed.

Lemma finalizer_witness :
  exists (info : DlOfdmaInfo) (m' : RrOfdmaManager),
    ComputeDlOfdmaInfo two_class_env
      (mkRrOfdmaManager 1
         [(101, 100, mkDlPerStaInfo 1 0); (201, 100, mkDlPerStaInfo 2 0)]
         [(101, mkDlPerStaInfo 1 0); (201, mkDlPerStaInfo 2 0)]
         (mkWifiTxVector [] 0))
    = Ok (info, m')
    /\ length (staInfo info) = 2%nat.
Proof.
  destruct (finalizer_serves_by_address two_class_env
              (mkRrOfdmaManager 1
                 [(101, 100, mkDlPerStaInfo 1 0); (201, 100, mkDlPerStaInfo 2 0)]
                 [(101, mkDlPerStaInfo 1 0); (201, mkDlPerStaInfo 2 0)]
                 (mkWifiTxVector [] 0))
              [(RU_106_TONE, 1); (RU_26_TONE, 5)]
              [(201, 100, mkDlPerStaInfo 2 0); (101, 100, mkDlPerStaInfo 1 0)])
    as (info & m' & Hrun & _ & _ & Hlen & _).
  - discriminate.
  - vm_compute. discriminate.
  - vm_compute. reflexivity.
  - cbn. lia.
  - cbn. repeat constructor; cbn; intuition discriminate.
  - exists info, m'. split; [exact Hrun | exact Hlen].
Defined.

(** X13: when the packer returns more RU entries than it leaves candidates in
    the batch, ComputeDlOfdmaInfo fails its first assertion. *)
Theorem more_entries_than_candidates_abort (env : Env) (m : RrOfdmaManager)
  (ruAssigned : list RuEntry) (dataInfo : list Candidate) :
  m_staInfo m <> [] ->
  GetNumberAndTypeOfRus (heRuSubcarrierGroups env) (onoff1 env) (bulksend1 env)
    (http1 env) (GetChannelWidth env) (size_of (m_dataInfo m)) (m_dataInfo m)
    = Ok (ruAssigned, dataInfo) ->
  (length dataInfo < length ruAssigned)%nat ->
  ComputeDlOfdmaInfo env m = Fault AssertFailed.
Proof.
  intros Hsta Hpack Hlt.
  rewrite (ComputeDlOfdmaInfo_unfold env m ruAssigned dataInfo Hsta Hpack).
  rewrite collect_receivers_short by exact Hlt. reflexivity.
Qed.

Lemma more_entries_witness :
  ComputeDlOfdmaInfo late_tid_env unlisted_manager = Fault AssertFailed.
Proof.
  apply (more_entries_than_candidates_abort late_tid_env unlisted_manager
           [(RU_242_TONE, 1)] []).
  - discriminate.
  - vm_compute. reflexivity.
  - cbn. lia.
Defined.

Lemma groups_at_listed (groups : RuTable) (bandwidth : Z) (t : RuType) (slots : nat) :
  table_ok groups = true ->
  groups_at groups bandwidth t = Ok slots ->
  (1 <= slots)%nat.
Proof.
  intros Hok. unfold groups_at.
  destruct (find _ groups) as [e|] eqn:Hfind; [|discriminate].
  intros H. inversion H; subst. apply find_some in Hfind as [Hin _].
  unfold table_ok in Hok. rewrite forallb_forall in Hok.
  specialize (Hok e Hin). apply andb_prop in Hok as [Hone _].
  apply Z.leb_le in Hone. lia.
Qed.

Lemma unclassed_packer (groups : RuTable) (o1 b1 h1 : list Mac48Address)
  (bandwidth nStations : Z) (data : list Candidate) :
  table_ok groups = true ->
  filter (classed o1 b1 h1) data = [] ->
  (exists ruAssigned,
      GetNumberAndTypeOfRus groups o1 b1 h1 bandwidth nStations data
      = Ok (ruAssigned, []) /\ ruAssigned <> [])
  \/ GetNumberAndTypeOfRus groups o1 b1 h1 bandwidth nStations data = Fault AssertFailed
  \/ GetNumberAndTypeOfRus groups o1 b1 h1 bandwidth nStations data = Fault OutOfRange.
Proof.
  intros Hok Hnone.
  pose proof (classes_partition o1 b1 h1 data) as Hpart. rewrite Hnone in Hpart.
  apply Permutation_sym, Permutation_nil in Hpart.
  apply app_eq_nil in Hpart as [Hon Hpart]. apply app_eq_nil in Hpart as [Hbu Hht].
  pose proof (classify_from o1 b1 h1 data [] [] []) as Hcl.
  rewrite Hon, Hbu, Hht in Hcl. cbn [app] in Hcl.
  destruct (GetNumberAndTypeOfRus_branches groups o1 b1 h1 bandwidth nStations
              data [] [] [] Hcl)
    as (onoff' & bulksend' & http' & (_ & Hpo & _) & (_ & Hpb & _) & (_ & Hph & _) & Heq).
  apply Permutation_nil in Hpo, Hpb, Hph. subst onoff' bulksend' http'.
  rewrite Heq. clear Heq. change (size_of (@nil Candidate) =? 0) with true. cbn [orb].
  unfold degenerate_branch.
  destruct (uniform_type groups bandwidth nStations) as [t|f] eqn:Htype.
  - cbn [bind]. unfold one_per_group.
    destruct (groups_at groups bandwidth t) as [slots|f] eqn:Hat.
    + cbn [bind app]. left. eexists. split; [reflexivity|].
      pose proof (groups_at_listed groups bandwidth t slots Hok Hat) as Hone.
      destruct slots; [lia | discriminate].
    + right. right. cbn [bind]. unfold groups_at in Hat.
      destruct (find _ groups); [discriminate|]. inversion Hat. reflexivity.
  - right. left. cbn [bind]. unfold uniform_type in Htype.
    destruct (_ =? 0) in Htype.
    + unfold ns_assert in Htype. destruct (_ && _) in Htype; [discriminate|].
      cbn [bind] in Htype. inversion Htype. reflexivity.
    + destruct (first_fit groups bandwidth nStations) as [[t n]|]; discriminate.
Qed.

(** X14: a batch of which no membership list names any candidate cannot be
    finalized: the packer drops every candidate and still returns the RU
    entries of a uniform allocation, so ComputeDlOfdmaInfo fails its
    assertion on the first of them, unless the packer itself has failed an
    assertion or found no table entry.  With the three lists empty this
    is every non-empty batch. *)
Theorem unclassed_batch_cannot_be_finalized (env : Env) (m : RrOfdmaManager) :
  m_staInfo m <> [] ->
  table_ok (heRuSubcarrierGroups env) = true ->
  filter (classed (onoff1 env) (bulksend1 env) (http1 env)) (m_dataInfo m) = [] ->
  ComputeDlOfdmaInfo env m = Fault AssertFailed
  \/ ComputeDlOfdmaInfo env m = Fault OutOfRange.
Proof.
  intros Hsta Hok Hnone.
  destruct (unclassed_packer (heRuSubcarrierGroups env) (onoff1 env) (bulksend1 env)
              (http1 env) (GetChannelWidth env) (size_of (m_dataInfo m))
              (m_dataInfo m) Hok Hnone)
    as [(ruAssigned & Hpack & Hsome)|[Hpack|Hpack]].
  - left. rewrite (ComputeDlOfdmaInfo_unfold env m ruAssigned [] Hsta Hpack).
    rewrite collect_receivers_short; [reflexivity|].
    destruct ruAssigned; [contradiction | cbn; lia].
  - left. unfold ComputeDlOfdmaInfo. destruct (m_staInfo m); [contradiction|].
    rewrite Hpack. reflexivity.
  - right. unfold ComputeDlOfdmaInfo. destruct (m_staInfo m); [contradiction|].
    rewrite Hpack. reflexivity.
Qed.

Lemma unclassed_batch_witness :
  ComputeDlOfdmaInfo late_tid_env unlisted_manager = Fault AssertFailed
  \/ ComputeDlOfdmaInfo late_tid_env unlisted_manager = Fault OutOfRange.
Proof.
  apply (unclassed_batch_cannot_be_finalized late_tid_env unlisted_manager).
  - discriminate.
  - vm_compute. reflexivity.
  - vm_compute. reflexivity.
Defined.

(** * The tentative TX vector *)

Lemma map_assign_Forall {V : Type} (P : Z * V -> Prop) (k : Z) (v : V)
  (m : list (Z * V)) :
  P (k, v) -> Forall P m -> Forall P (map_assign k v m).
Proof.
  intros Hkv. induction 1 as [|[k' v'] m Hx Hm IH]; cbn [map_assign].
  - constructor; [exact Hkv | constructor].
  - destruct (k <? k'); [constructor; [exact Hkv | constructor; assumption]|].
    destruct (k =? k'); constructor; assumption.
Qed.

Lemma map_assign_length {V : Type} (k : Z) (v : V) (m : list (Z * V)) :
  (length (map_assign k v m) <= S (length m))%nat.
Proof.
  induction m as [|[k' v'] m IH]; cbn [map_assign]; [cbn; lia|].
  destruct (k <? k'); [cbn; lia|].
  destruct (k =? k'); cbn [length]; lia.
Qed.

Lemma guess_loop_spec (currTid count : Z) (round : list (Z * Mac48Address)) :
  forall (all : list (Z * Mac48Address)) (guess : list (Mac48Address * DlPerStaInfo)),
    (forall sta, In sta round -> In sta all) ->
    Forall (fun g => In (aid (snd g), fst g) all /\ tid (snd g) = currTid) guess ->
    size_of guess < count ->
    Forall (fun g => In (aid (snd g), fst g) all /\ tid (snd g) = currTid)
      (guess_loop currTid count round guess)
    /\ size_of (guess_loop currTid count round guess) <= count.
Proof.
  induction round as [|[staId address] rest IH]; intros all guess Hsub Hall Hsize.
  - cbn [guess_loop]. split; [exact Hall | lia].
  - cbn [guess_loop].
    set (guess' := map_assign address (mkDlPerStaInfo staId currTid) guess).
    assert (Hall' : Forall (fun g => In (aid (snd g), fst g) all /\ tid (snd g) = currTid)
                      guess').
    { apply map_assign_Forall; [|exact Hall]. cbn. split; [|reflexivity].
      apply Hsub. left. reflexivity. }
    assert (Hsize' : size_of guess' <= count).
    { pose proof (map_assign_length address (mkDlPerStaInfo staId currTid) guess).
      unfold size_of in *. fold guess' in H. unfold Mac48Address in *. lia. }
    destruct rest as [|next rest']; [split; assumption|].
    destruct (Z.ltb_spec (size_of guess') count) as [Hlt|_]; [|split; assumption].
    apply IH; [|exact Hall'|exact Hlt].
    intros sta Hin. apply Hsub. right. exact Hin.
Qed.

Lemma init_user_infos_spec (ruAssigned : list RuEntry)
  (receivers : list (Mac48Address * DlPerStaInfo)) :
  forall (staList : list (Mac48Address * DlPerStaInfo)) (ruIt : list RuEntry)
         (users : list (Z * RuSpec)),
    (forall g, In g staList -> In g receivers) ->
    (forall e, In e ruIt -> In e ruAssigned) ->
    Forall (fun u => primary80MHz (snd u) = false /\ index (snd u) = 1
                     /\ (exists g, In g receivers /\ aid (snd g) = fst u)
                     /\ exists i, In (ruType (snd u), i) ruAssigned) users ->
    Forall (fun u => primary80MHz (snd u) = false /\ index (snd u) = 1
                     /\ (exists g, In g receivers /\ aid (snd g) = fst u)
                     /\ exists i, In (ruType (snd u), i) ruAssigned)
      (init_user_infos staList ruIt users)
    /\ (length (init_user_infos staList ruIt users)
        <= length users + Nat.min (length staList) (length ruIt))%nat.
Proof.
  induction staList as [|[address info] staList IH]; intros ruIt users Hsta Hru Hall.
  - cbn [init_user_infos]. split; [exact Hall | lia].
  - cbn [init_user_infos]. destruct ruIt as [|[t i] ruIt]; [split; [exact Hall | lia]|].
    destruct (IH ruIt (map_assign (aid info) (mkRuSpec false t 1) users))
      as [Hall' Hlen'].
    + intros g Hg. apply Hsta. right. exact Hg.
    + intros e He. apply Hru. right. exact He.
    + apply map_assign_Forall; [|exact Hall]. cbn.
      split; [reflexivity|]. split; [reflexivity|]. split.
      * exists (address, info). split; [apply Hsta; left; reflexivity | reflexivity].
      * exists i. apply Hru. left. reflexivity.
    + split; [exact Hall'|].
      pose proof (map_assign_length (aid info) (mkRuSpec false t 1) users).
      cbn [length]. lia.
Qed.

(** X15: the TX vector from which the time left for the data frames is
    computed, before any queue is looked at: its users are associated
    stations, no more of them than NStations nor than the tentative RU
    entries, each with the type of one of these entries, the index 1 and
    the secondary flag; its length is zero. *)
Theorem tentative_vector_users (env : Env) (m m1 : RrOfdmaManager)
  (round : list (Z * Mac48Address)) (tentative : list RuEntry) :
  prepare_downlink env m = Ok (round, tentative, m1) ->
  Z.of_nat (length (GetHeMuUserInfoMap (m_txVector m1))) <= m_nStations env mod 256
  /\ (length (GetHeMuUserInfoMap (m_txVector m1)) <= length tentative)%nat
  /\ Forall (fun u => In (fst u) (map fst (GetStaList env))
                      /\ primary80MHz (snd u) = false
                      /\ index (snd u) = 1
                      /\ exists i, In (ruType (snd u), i) tentative)
       (GetHeMuUserInfoMap (m_txVector m1))
  /\ GetLength (m_txVector m1) = 0.
Proof.
  intros Hprep.
  destruct (prepare_downlink_spec env m m1 round tentative Hprep)
    as (Hround & _ & _ & Hcount).
  apply round_from_spec in Hround as [Hperm _].
  unfold prepare_downlink in Hprep.
  apply bind_Ok in Hprep as ([round0 start] & _ & Hprep).
  apply bind_Ok in Hprep as ([ru0 data0] & _ & Hprep).
  apply bind_Ok in Hprep as (u & _ & Hprep).
  inversion Hprep; subst. clear Hprep.
  cbn [m_txVector InitTxVectorAndParams GetHeMuUserInfoMap GetLength].
  set (guess := guess_loop (GetQosTid env) (m_nStations env mod 256) round []).
  destruct (guess_loop_spec (GetQosTid env) (m_nStations env mod 256) round round [])
    as [Hguess Hsize]; [auto | constructor | cbn; lia |].
  fold guess in Hguess, Hsize.
  destruct (init_user_infos_spec tentative guess guess tentative [])
    as [Husers Hlen]; [auto | auto | constructor |].
  cbn [length Nat.add] in Hlen. unfold size_of in Hsize.
  split; [unfold Mac48Address in *; lia|]. split; [lia|]. split; [|reflexivity].
  eapply Forall_impl; [|exact Husers].
  intros [k spec] (Hp & Hi & (g & Hg & Hk) & Ht). cbn [fst snd] in *.
  split; [|auto].
  rewrite Forall_forall in Hguess. destruct (Hguess g Hg) as [Hin _].
  rewrite <- Hk.
  eapply Permutation_in; [apply Permutation_map, Permutation_sym; exact Hperm|].
  apply in_map_iff. exists (aid (snd g), fst g). auto.
Qed.

Lemma tentative_vector_witness :
  Z.of_nat (length (GetHeMuUserInfoMap
                      (mkWifiTxVector [(1, mkRuSpec false RU_106_TONE 1);
                                       (2, mkRuSpec false RU_106_TONE 1)] 0))) <= 2.
Proof.
  apply (tentative_vector_users three_station_env fresh_manager
           (mkRrOfdmaManager 1 [] []
              (mkWifiTxVector [(1, mkRuSpec false RU_106_TONE 1);
                               (2, mkRuSpec false RU_106_TONE 1)] 0))
           [(1, 101); (2, 102); (3, 103)]
           [(RU_106_TONE, 1); (RU_106_TONE, 2)]).
  vm_compute. reflexivity.
Defined.

(** * decToHexa *)

Lemma hex_value_char (temp : Z) :
  0 <= temp < 16 -> hex_value (hex_char temp) = Some temp.
Proof.
  intros H. unfold hex_value, hex_char.
  destruct (Z.ltb_spec temp 10).
  - replace ((48 <=? temp + 48) && (temp + 48 <=? 57)) with true
      by (symmetry; apply andb_true_iff; split; apply Z.leb_le; lia).
    f_equal. lia.
  - replace ((48 <=? temp + 55) && (temp + 55 <=? 57)) with false
      by (symmetry; apply andb_false_iff; right; apply Z.leb_gt; lia).
    replace ((65 <=? temp + 55) && (temp + 55 <=? 70)) with true
      by (symmetry; apply andb_true_iff; split; apply Z.leb_le; lia).
    f_equal. lia.
Qed.

Lemma hex_value_below (c : Z) : c < 48 -> hex_value c = None.
Proof.
  intros H. unfold hex_value.
  replace (48 <=? c) with false by (symmetry; apply Z.leb_gt; lia).
  replace (65 <=? c) with false by (symmetry; apply Z.leb_gt; lia).
  reflexivity.
Qed.

Lemma parse_hex_last (s : list Z) (c : Z) :
  forall acc v d,
    parse_hex acc s = Some v -> hex_value c = Some d ->
    parse_hex acc (s ++ [c]) = Some (16 * v + d).
Proof.
  induction s as [|x s IH]; intros acc v d Hs Hc; cbn [parse_hex app] in *.
  - inversion Hs; subst. rewrite Hc. reflexivity.
  - destruct (hex_value x); [|discriminate]. eapply IH; eassumption.
Qed.

Lemma hex_digits_step (fuel : nat) (n : Z) (hexaDeciNum : list Z) :
  n <> 0 ->
  size_of hexaDeciNum < 100 ->
  hex_digits (S fuel) n hexaDeciNum
  = hex_digits fuel (Z.quot n 16) (hexaDeciNum ++ [hex_char (Z.rem n 16)]).
Proof.
  intros Hn Hsize. cbn [hex_digits].
  destruct (Z.eqb_spec n 0); [contradiction|].
  destruct (Z.ltb_spec (size_of hexaDeciNum) 100); [reflexivity | lia].
Qed.

Lemma hex_digits_zero (fuel : nat) (hexaDeciNum : list Z) :
  hex_digits fuel 0 hexaDeciNum = Ok hexaDeciNum.
Proof. destruct fuel; reflexivity. Qed.

Lemma hex_digits_positive (fuel : nat) :
  forall (n : Z) (hexaDeciNum : list Z),
    0 < n < 16 ^ Z.of_nat fuel ->
    size_of hexaDeciNum + Z.of_nat fuel <= 100 ->
    exists digits,
      hex_digits fuel n hexaDeciNum = Ok (hexaDeciNum ++ digits)
      /\ parse_hex 0 (rev digits) = Some n
      /\ (1 <= length digits <= fuel)%nat
      /\ hd 0 (rev digits) <> 48
      /\ ~ In 0 digits.
Proof.
  induction fuel as [|fuel IH]; intros n hexaDeciNum Hn Hsize.
  - cbn in Hn. lia.
  - rewrite hex_digits_step by lia.
    assert (Hpow : 16 ^ Z.of_nat (S fuel) = 16 * 16 ^ Z.of_nat fuel).
    { rewrite Nat2Z.inj_succ, Z.pow_succ_r by lia. reflexivity. }
    rewrite Z.rem_mod_nonneg, Z.quot_div_nonneg by lia.
    pose proof (Z.mod_pos_bound n 16 ltac:(lia)) as Hmod.
    pose proof (Z.div_mod n 16 ltac:(lia)) as Hdiv.
    assert (Hchar : hex_char (n mod 16) <> 0).
    { unfold hex_char. destruct (n mod 16 <? 10); lia. }
    destruct (Z.eq_dec (n / 16) 0) as [Hzero|Hmore].
    + rewrite Hzero, hex_digits_zero. exists [hex_char (n mod 16)].
      split; [reflexivity|]. cbn [rev app parse_hex hd length In].
      rewrite hex_value_char by lia.
      split; [f_equal; lia|]. split; [lia|].
      split; [|intros [H|[]]; congruence].
      unfold hex_char. destruct (n mod 16 <? 10); lia.
    + destruct (IH (n / 16) (hexaDeciNum ++ [hex_char (n mod 16)]))
        as (digits & Hrun & Hparse & Hlen & Hhead & Hnul).
      * split; [pose proof (Z.div_pos n 16); lia|].
        apply Z.div_lt_upper_bound; lia.
      * unfold size_of in *. rewrite length_app. cbn [length]. lia.
      * exists (hex_char (n mod 16) :: digits).
        rewrite <- app_assoc in Hrun. split; [exact Hrun|].
        cbn [rev length In]. split; [|split; [lia|split]].
        -- rewrite (parse_hex_last _ _ 0 (n / 16) (n mod 16) Hparse)
             by (apply hex_value_char; lia).
           f_equal. lia.
        -- destruct (rev digits) as [|c rest] eqn:Hrev; [|exact Hhead].
           apply (f_equal (@length _)) in Hrev. rewrite length_rev in Hrev.
           cbn in Hrev. lia.
        -- intros [H|H]; [congruence | contradiction].
Qed.

Lemma hex_digits_negative (fuel : nat) :
  forall (n : Z) (hexaDeciNum : list Z),
    - 16 ^ Z.of_nat fuel < n < 0 ->
    size_of hexaDeciNum + Z.of_nat fuel <= 100 ->
    exists digits c,
      hex_digits fuel n hexaDeciNum = Ok (hexaDeciNum ++ digits ++ [c])
      /\ hex_value c = None.
Proof.
  induction fuel as [|fuel IH]; intros n hexaDeciNum Hn Hsize.
  - cbn in Hn. lia.
  - rewrite hex_digits_step by lia.
    assert (Hpow : 16 ^ Z.of_nat (S fuel) = 16 * 16 ^ Z.of_nat fuel).
    { rewrite Nat2Z.inj_succ, Z.pow_succ_r by lia. reflexivity. }
    pose proof (Z.quot_rem' n 16) as Hqr.
    assert (Hrem : - 16 < Z.rem n 16 <= 0).
    { pose proof (Z.rem_opp_l (- n) 16 ltac:(lia)) as Hopp.
      rewrite Z.opp_involutive in Hopp.
      pose proof (Z.rem_bound_pos (- n) 16 ltac:(lia) ltac:(lia)). lia. }
    destruct (Z.eq_dec (Z.quot n 16) 0) as [Hzero|Hmore].
    + rewrite Hzero, hex_digits_zero. exists [], (hex_char (Z.rem n 16)).
      split; [reflexivity|]. apply hex_value_below.
      unfold hex_char. destruct (Z.ltb_spec (Z.rem n 16) 10); lia.
    + destruct (IH (Z.quot n 16) (hexaDeciNum ++ [hex_char (Z.rem n 16)]))
        as (digits & c & Hrun & Hc).
      * lia.
      * unfold size_of in *. rewrite length_app. cbn [length]. lia.
      * exists (hex_char (Z.rem n 16) :: digits), c.
        rewrite <- app_assoc in Hrun. split; [exact Hrun | exact Hc].
Qed.

Lemma hex_fuel (n : Z) :
  0 < n < 2 ^ 32 ->
  1 <= Z.log2 n / 4 + 1 <= 8 /\ n < 16 ^ (Z.log2 n / 4 + 1).
Proof.
  intros Hn.
  pose proof (Z.log2_spec n ltac:(lia)) as [_ Hup].
  pose proof (Z.log2_nonneg n) as Hnn.
  assert (Hlt : Z.log2 n < 32) by (apply Z.log2_lt_pow2; lia).
  pose proof (Z.div_mod (Z.log2 n) 4 ltac:(lia)) as Hdm.
  pose proof (Z.mod_pos_bound (Z.log2 n) 4 ltac:(lia)) as Hmod.
  split; [lia|].
  change 16 with (2 ^ 4). rewrite <- Z.pow_mul_r by lia.
  eapply Z.lt_le_trans; [exact Hup|].
  apply Z.pow_le_mono_r; lia.
Qed.

(** X16: for a positive [int] the array returned holds the ten characters
    0:0:0:0:0: and then the hexadecimal digits of the number, capital
    letters for ten to fifteen, most significant first and without a leading
    zero: reading them back gives the number.  There are at most eight
    digits, and no zero byte ends the array. *)
Theorem decToHexa_round_trip (n : Z) :
  0 < n < 2 ^ 31 ->
  exists hex,
    decToHexa n = Ok (array ++ hex)
    /\ parse_hex 0 hex = Some n
    /\ (1 <= length hex <= 8)%nat
    /\ hd 0 hex <> 48
    /\ ~ In 0 (array ++ hex).
Proof.
  intros Hn. unfold decToHexa. rewrite Z.abs_eq by lia.
  destruct (hex_fuel n ltac:(lia)) as [Hfuel Hpow].
  destruct (hex_digits_positive (Z.to_nat (Z.log2 n / 4 + 1)) n [])
    as (digits & Hrun & Hparse & Hlen & Hhead & Hnul).
  - rewrite Z2Nat.id by lia. lia.
  - rewrite Z2Nat.id by lia. cbn. lia.
  - cbn [app] in Hrun. rewrite Hrun. cbn [bind].
    destruct (Z.ltb_spec (10 + size_of digits) (size_of array + 1)) as [Hshort|_].
    { unfold size_of, array in Hshort. cbn [length] in Hshort. lia. }
    cbn [bind]. exists (rev digits). split; [reflexivity|].
    split; [exact Hparse|]. rewrite length_rev. split; [lia|].
    split; [exact Hhead|].
    intros Hin. apply in_app_or in Hin as [Hin|Hin].
    + cbn in Hin. intuition discriminate.
    + apply Hnul. apply in_rev. exact Hin.
Qed.

Lemma decToHexa_witness :
  exists hex,
    decToHexa 2748 = Ok (array ++ hex) /\ parse_hex 0 hex = Some 2748.
Proof.
  destruct (decToHexa_round_trip 2748) as (hex & Hrun & Hparse & _).
  - lia.
  - exists hex. split; [exact Hrun | exact Hparse].
Defined.

(** X17: for zero the copy of the ten characters and their zero byte runs
    past the ten characters allocated; for a negative [int] the first
    character after the ten is none of 0-9 and A-F.  So no [int] that is
    not positive is turned into a hexadecimal numeral. *)
Theorem decToHexa_needs_a_positive_number (n : Z) :
  - 2 ^ 31 <= n <= 0 ->
  decToHexa n = Fault BadAccess
  \/ exists c rest, decToHexa n = Ok (array ++ c :: rest) /\ hex_value c = None.
Proof.
  intros Hn. destruct (Z.eq_dec n 0) as [->|Hneg].
  - left. reflexivity.
  - right. unfold decToHexa. rewrite Z.abs_neq by lia.
    destruct (hex_fuel (- n) ltac:(lia)) as [Hfuel Hpow].
    destruct (hex_digits_negative (Z.to_nat (Z.log2 (- n) / 4 + 1)) n [])
      as (digits & c & Hrun & Hc).
    + rewrite Z2Nat.id by lia. lia.
    + rewrite Z2Nat.id by lia. cbn. lia.
    + cbn [app] in Hrun. rewrite Hrun. cbn [bind].
      destruct (Z.ltb_spec (10 + size_of (digits ++ [c])) (size_of array + 1))
        as [Hshort|_].
      { unfold size_of, array in Hshort. rewrite length_app in Hshort.
        cbn [length] in Hshort. lia. }
      cbn [bind]. exists c, (rev digits). rewrite rev_app_distr. cbn [rev app].
      split; [reflexivity | exact Hc].
Qed.

Lemma decToHexa_negative_witness :
  decToHexa (-1) = Fault BadAccess
  \/ exists c rest, decToHexa (-1) = Ok (array ++ c :: rest) /\ hex_value c = None.
Proof.
  apply (decToHexa_needs_a_positive_number (-1)). lia.
Defined.

(** * GetTriggerFrameHeader *)

Lemma map_assign_at {V : Type} (k : Z) (v u : V) (rest : list (Z * V)) :
  forall pre : list (Z * V),
    Forall (fun x => fst x < k) pre ->
    map_assign k v (pre ++ (k, u) :: rest) = pre ++ (k, v) :: rest.
Proof.
  induction pre as [|[k' v'] pre IH]; intros Hpre; cbn [app map_assign].
  - rewrite Z.ltb_irrefl, Z.eqb_refl. reflexivity.
  - inversion Hpre as [|x l Hlt Hpre']; subst. cbn [fst] in Hlt.
    destruct (Z.ltb_spec k k'); [lia|].
    destruct (Z.eqb_spec k k'); [lia|].
    rewrite IH by exact Hpre'. reflexivity.
Qed.

Lemma sorted_before {V : Type} (k : Z) (u : V) (rest : list (Z * V)) :
  forall pre : list (Z * V),
    StronglySorted (fun x y => fst x < fst y) (pre ++ (k, u) :: rest) ->
    Forall (fun x => fst x < k) pre.
Proof.
  induction pre as [|x pre IH]; intros Hsorted; [constructor|].
  cbn [app] in Hsorted. apply StronglySorted_inv in Hsorted as [Hsorted Hall].
  constructor; [|exact (IH Hsorted)].
  rewrite Forall_forall in Hall. apply (Hall (k, u)). apply in_or_app. right. left.
  reflexivity.
Qed.

Lemma cap_every_user (WifiMode : Type) (GetMcsValue : WifiMode -> Z)
  (GetHeMcs : Z -> WifiMode) (maxMcs : Z) :
  forall todo done : list (Z * HeMuUserInfo WifiMode),
    StronglySorted (fun x y => fst x < fst y) (done ++ todo) ->
    fold_left
      (fun txVector userInfo =>
         map_assign (fst userInfo)
           (mkHeMuUserInfo WifiMode (ru WifiMode (snd userInfo))
              (GetHeMcs (Z.min (GetMcsValue (mcs WifiMode (snd userInfo))) maxMcs))
              (nss WifiMode (snd userInfo)))
           txVector)
      todo (map (capped WifiMode GetMcsValue GetHeMcs maxMcs) done ++ todo)
    = map (capped WifiMode GetMcsValue GetHeMcs maxMcs) (done ++ todo).
Proof.
  induction todo as [|[k u] todo IH]; intros done Hsorted.
  - cbn [fold_left]. rewrite !app_nil_r. reflexivity.
  - cbn [fold_left fst snd].
    rewrite map_assign_at.
    + replace (done ++ (k, u) :: todo) with ((done ++ [(k, u)]) ++ todo)
        by (rewrite <- app_assoc; reflexivity).
      rewrite <- IH by (rewrite <- app_assoc; exact Hsorted).
      rewrite map_app, <- app_assoc. reflexivity.
    + apply sorted_before in Hsorted.
      apply Forall_forall. intros x Hx. apply in_map_iff in Hx as (y & <- & Hy).
      rewrite Forall_forall in Hsorted. exact (Hsorted y Hy).
Qed.

(** X18: the header is of the MU-BAR type and has the users of the TX vector,
    under the same station ids and in the same order, each with its RU and
    its number of streams unchanged and with the HE mode of its MCS value
    or of [maxMcs], whichever is less. *)
Theorem trigger_caps_every_mcs (WifiMode : Type) (GetMcsValue : WifiMode -> Z)
  (GetHeMcs : Z -> WifiMode) (dlMuTxVector : list (Z * HeMuUserInfo WifiMode))
  (maxMcs : Z) :
  StronglySorted (fun x y => fst x < fst y) dlMuTxVector ->
  GetTriggerFrameHeader WifiMode GetMcsValue GetHeMcs dlMuTxVector maxMcs
  = mkCtrlTriggerHeader WifiMode MU_BAR_TRIGGER
      (map (capped WifiMode GetMcsValue GetHeMcs maxMcs) dlMuTxVector).
Proof.
  intros Hsorted. unfold GetTriggerFrameHeader. f_equal.
  exact (cap_every_user WifiMode GetMcsValue GetHeMcs maxMcs dlMuTxVector [] Hsorted).
Qed.

Lemma trigger_caps_witness :
  GetUserInfos Z
    (GetTriggerFrameHeader Z (fun mode => mode) (fun value => value)
       [(1, mkHeMuUserInfo Z (mkRuSpec true RU_106_TONE 1) 7 1);
        (2, mkHeMuUserInfo Z (mkRuSpec true RU_26_TONE 5) 3 2)] 5)
  = [(1, mkHeMuUserInfo Z (mkRuSpec true RU_106_TONE 1) 5 1);
     (2, mkHeMuUserInfo Z (mkRuSpec true RU_26_TONE 5) 3 2)].
Proof.
  rewrite (trigger_caps_every_mcs Z (fun mode => mode) (fun value => value)
             [(1, mkHeMuUserInfo Z (mkRuSpec true RU_106_TONE 1) 7 1);
              (2, mkHeMuUserInfo Z (mkRuSpec true RU_26_TONE 5) 3 2)] 5).
  - reflexivity.
  - repeat constructor.
Defined.

(** * merge_sort on a part of the vector *)

(** X19: called on the positions [p] to [r] of a vector, merge_sort returns,
    leaves what is before [p] and after [r] as it was, and sorts what is
    between by decreasing size, candidates of equal size keeping their
    order. *)
Theorem merge_sort_sorts_the_range (pre mid post : list Candidate) (p r : Z) :
  p = size_of pre ->
  r = p + size_of mid - 1 ->
  exists mid',
    merge_sort (pre ++ mid ++ post) p r = Ok (pre ++ mid' ++ post)
    /\ stably_sorted mid mid'.
Proof.
  intros Hp Hr. unfold merge_sort.
  apply merge_sort_fuel_spec; [exact Hp | exact Hr | lia].
Qed.

Lemma merge_sort_range_witness :
  exists mid',
    merge_sort ([(1, 10, mkDlPerStaInfo 1 0)]
                ++ [(2, 20, mkDlPerStaInfo 2 0); (3, 30, mkDlPerStaInfo 3 0)]
                ++ [(4, 40, mkDlPerStaInfo 4 0)]) 1 2
    = Ok ([(1, 10, mkDlPerStaInfo 1 0)] ++ mid' ++ [(4, 40, mkDlPerStaInfo 4 0)])
    /\ stably_sorted [(2, 20, mkDlPerStaInfo 2 0); (3, 30, mkDlPerStaInfo 3 0)] mid'.
Proof.
  apply (merge_sort_sorts_the_range [(1, 10, mkDlPerStaInfo 1 0)]
           [(2, 20, mkDlPerStaInfo 2 0); (3, 30, mkDlPerStaInfo 3 0)]
           [(4, 40, mkDlPerStaInfo 4 0)] 1 2); reflexivity.
Defined.

(** * Decisions on a 160 MHz channel *)





